(** * Planora: habit streak engine and plan-to-calendar pipeline

    A shallow embedding of the Convex functions of [convex/habits.ts] and
    [convex/events.ts] and of the handlers of the planning page
    [app/dashboard/plan/page.tsx], with the properties stated about them.

    Conventions of the embedding.
    - A Convex table is the list of its documents in creation order; every
      document carries its [_id].  Identifiers are drawn from one counter,
      so an identifier is never reused.
    - A Convex mutation is a transaction: it is a state-and-error
      computation over the database, and [runMutation] commits its writes
      only when the handler returns.
    - JavaScript numbers that the code only counts with are integers [Z].
    - A JavaScript string is the Rocq string of the bytes of its UTF-8
      encoding.  [localeCompare] stands for the collation on ISO dates,
      which orders them as their digits and hyphens are ordered; where a
      query sorts other text, the collation is a parameter of the query.
    - The Convex runtime's clock is UTC, so [Date.prototype.setDate] and
      [getDate] act on the same calendar day that [toISOString] prints. *)

From Stdlib Require Import ZArith List String Ascii Bool Lia.
From Stdlib Require Import Permutation Sorted.
Import ListNotations.

Local Open Scope string_scope.
Local Open Scope list_scope.
Local Open Scope Z_scope.

Set Implicit Arguments.

(** String concatenation, JavaScript's [+] on strings. *)
Infix "+++" := String.append (right associativity, at level 60).

(* ================================================================== *)
(** * Results and the transaction monad *)
(* ================================================================== *)

(** A JavaScript call either returns or throws. *)
Inductive Result (A : Type) : Type :=
| Ok (a : A)
| Throw (msg : string).

Arguments Ok {A} a.
Arguments Throw {A} msg.

(** Document identifiers. *)
Abbreviation Id := nat (only parsing).

(** A field of the object given to [ctx.db.patch]: a key that is absent
    keeps the stored value, a key that is present replaces it.  For an
    optional field the new value [None] is JavaScript's [undefined], which
    removes the field. *)
Inductive Upd (A : Type) : Type :=
| Keep
| Put (a : A).

Arguments Keep {A}.
Arguments Put {A} a.

Definition applyUpd {A} (u : Upd A) (old : A) : A :=
  match u with Keep => old | Put a => a end.

(** [Object.fromEntries(Object.entries(updates).filter(([_, value]) =>
    value !== undefined))] on one optional argument of a required field. *)
Definition cleanReq {A} (arg : option A) : Upd A :=
  match arg with Some v => Put v | None => Keep end.

(** The same on an optional argument of an optional field. *)
Definition cleanOpt {A} (arg : option A) : Upd (option A) :=
  match arg with Some v => Put (Some v) | None => Keep end.

(* ================================================================== *)
(** * Calendar days as the runtime's [Date] sees them *)
(* ================================================================== *)

Module Dates.

(** The calendar day of a [Date] object, in UTC. *)
Record Date : Type := mkDate { year : Z; month : Z; day : Z }.

Definition isLeapYear (y : Z) : bool :=
  (y mod 4 =? 0) && (negb (y mod 100 =? 0) || (y mod 400 =? 0)).

Definition daysInMonth (y m : Z) : Z :=
  if m =? 2 then (if isLeapYear y then 29 else 28)
  else if (m =? 4) || (m =? 6) || (m =? 9) || (m =? 11) then 30
  else 31.

(** A day that exists in the calendar. *)
Definition validDate (d : Date) : bool :=
  (1 <=? month d) && (month d <=? 12) &&
  (1 <=? day d) && (day d <=? daysInMonth (year d) (month d)).

(** [checkDate.setDate(checkDate.getDate() - 1)]: day-of-month zero
    rolls over to the last day of the month before. *)
Definition prevDay (d : Date) : Date :=
  if 1 <? day d then mkDate (year d) (month d) (day d - 1)
  else if 1 <? month d
       then mkDate (year d) (month d - 1) (daysInMonth (year d) (month d - 1))
       else mkDate (year d - 1) 12 31.

Definition digit (n : Z) : ascii := ascii_of_nat (48 + Z.to_nat (n mod 10)).

(** The last [w] decimal digits of [n], zero padded. *)
Fixpoint digits (w : nat) (n : Z) : string :=
  match w with
  | O => ""
  | S w' => digits w' (n / 10) +++ String (digit n) ""
  end.

(** The year of [toISOString]: four digits from 0000 to 9999, a sign and
    six digits outside. *)
Definition isoYear (y : Z) : string :=
  if (0 <=? y) && (y <=? 9999) then digits 4 y
  else (if y <? 0 then "-" else "+") +++ digits 6 (Z.abs y).

(** [d.toISOString().split('T')[0]] *)
Definition toISODate (d : Date) : string :=
  isoYear (year d) +++ "-" +++ digits 2 (month d) +++ "-" +++ digits 2 (day d).

(** Chronological order of calendar days. *)
Definition dateCompare (a b : Date) : comparison :=
  match year a ?= year b with
  | Eq => match month a ?= month b with
          | Eq => day a ?= day b
          | c => c
          end
  | c => c
  end.

(** The day [n] days before [d]. *)
Fixpoint daysBefore (n : nat) (d : Date) : Date :=
  match n with
  | O => d
  | S n' => daysBefore n' (prevDay d)
  end.

End Dates.
Import Dates.

(* ================================================================== *)
(** * Schema ([convex/schema.ts]) *)
(* ================================================================== *)

Inductive Frequency := daily | weekdays | weekends | weekly | custom.
Inductive PreferredTime := morning | afternoon | evening | flexible.

Module Category.
Inductive t := work | meal | sleep | habit | planning | personal | other.
End Category.

Module CreatedBy.
Inductive t := ai | user.
End CreatedBy.

Module Habit.
Record t : Type := mk {
  _id : Id;
  userId : Id;
  name : string;
  description : option string;
  frequency : Frequency;
  customDays : option (list Z);
  preferredTime : option PreferredTime;
  durationMinutes : Z;
  currentStreak : Z;
  bestStreak : Z;
  isActive : bool;
  color : option string;
  createdAt : Z
}.

(** The object given to [ctx.db.patch] for a habit. *)
Record Patch : Type := mkPatch {
  p_userId : Upd Id;
  p_name : Upd string;
  p_description : Upd (option string);
  p_frequency : Upd Frequency;
  p_customDays : Upd (option (list Z));
  p_preferredTime : Upd (option PreferredTime);
  p_durationMinutes : Upd Z;
  p_currentStreak : Upd Z;
  p_bestStreak : Upd Z;
  p_isActive : Upd bool;
  p_color : Upd (option string);
  p_createdAt : Upd Z
}.

Definition patch (p : Patch) (h : t) : t :=
  mk (_id h)
     (applyUpd (p_userId p) (userId h))
     (applyUpd (p_name p) (name h))
     (applyUpd (p_description p) (description h))
     (applyUpd (p_frequency p) (frequency h))
     (applyUpd (p_customDays p) (customDays h))
     (applyUpd (p_preferredTime p) (preferredTime h))
     (applyUpd (p_durationMinutes p) (durationMinutes h))
     (applyUpd (p_currentStreak p) (currentStreak h))
     (applyUpd (p_bestStreak p) (bestStreak h))
     (applyUpd (p_isActive p) (isActive h))
     (applyUpd (p_color p) (color h))
     (applyUpd (p_createdAt p) (createdAt h)).
End Habit.

Module HabitLog.
Record t : Type := mk {
  _id : Id;
  habitId : Id;
  userId : Id;
  date : string;
  completed : bool;
  notes : option string;
  createdAt : Z
}.

Record Patch : Type := mkPatch {
  p_completed : Upd bool;
  p_notes : Upd (option string)
}.

Definition patch (p : Patch) (l : t) : t :=
  mk (_id l) (habitId l) (userId l) (date l)
     (applyUpd (p_completed p) (completed l))
     (applyUpd (p_notes p) (notes l))
     (createdAt l).
End HabitLog.

Module CalendarEvent.
Record t : Type := mk {
  _id : Id;
  userId : Id;
  title : string;
  description : option string;
  startTime : string;
  endTime : string;
  date : string;
  category : Category.t;
  isRecurring : bool;
  recurringPattern : option string;
  createdBy : CreatedBy.t;
  completed : option bool;
  createdAt : Z
}.

Record Patch : Type := mkPatch {
  p_userId : Upd Id;
  p_title : Upd string;
  p_description : Upd (option string);
  p_startTime : Upd string;
  p_endTime : Upd string;
  p_date : Upd string;
  p_category : Upd Category.t;
  p_isRecurring : Upd bool;
  p_recurringPattern : Upd (option string);
  p_createdBy : Upd CreatedBy.t;
  p_completed : Upd (option bool);
  p_createdAt : Upd Z
}.

Definition patch (p : Patch) (e : t) : t :=
  mk (_id e)
     (applyUpd (p_userId p) (userId e))
     (applyUpd (p_title p) (title e))
     (applyUpd (p_description p) (description e))
     (applyUpd (p_startTime p) (startTime e))
     (applyUpd (p_endTime p) (endTime e))
     (applyUpd (p_date p) (date e))
     (applyUpd (p_category p) (category e))
     (applyUpd (p_isRecurring p) (isRecurring e))
     (applyUpd (p_recurringPattern p) (recurringPattern e))
     (applyUpd (p_createdBy p) (createdBy e))
     (applyUpd (p_completed p) (completed e))
     (applyUpd (p_createdAt p) (createdAt e)).
End CalendarEvent.

(* ================================================================== *)
(** * The document store *)
(* ================================================================== *)

(** Operations on one table, for any document type with an [_id]. *)
Section Table.
Variable Doc : Type.
Variable doc_id : Doc -> Id.

Definition tbl_get (id : Id) (tbl : list Doc) : option Doc :=
  find (fun d => Nat.eqb (doc_id d) id) tbl.

Definition tbl_patch (id : Id) (f : Doc -> Doc) (tbl : list Doc) : list Doc :=
  map (fun d => if Nat.eqb (doc_id d) id then f d else d) tbl.

Definition tbl_delete (id : Id) (tbl : list Doc) : list Doc :=
  filter (fun d => negb (Nat.eqb (doc_id d) id)) tbl.
End Table.

Record DB : Type := mkDB {
  habits : list Habit.t;
  habitLogs : list HabitLog.t;
  calendarEvents : list CalendarEvent.t;
  nextId : Id
}.

Definition emptyDB : DB := mkDB [] [] [] O.

(** A mutation handler: reads and writes the database, may throw. *)
Definition Mutation (A : Type) : Type := DB -> Result (A * DB).

Definition ret {A} (a : A) : Mutation A := fun db => Ok (a, db).

Definition bind {A B} (m : Mutation A) (k : A -> Mutation B) : Mutation B :=
  fun db => match m db with
            | Ok (a, db') => k a db'
            | Throw e => Throw e
            end.

Definition throw {A} (msg : string) : Mutation A := fun _ => Throw msg.

Notation "x <- m ;; k" := (bind m (fun x => k))
  (at level 61, m at next level, right associativity).
Notation "m ;;; k" := (bind m (fun _ => k))
  (at level 61, right associativity).

(** [await Promise.all(xs.map(f))]: the calls are issued in the order of the
    array and all are awaited. *)
Fixpoint forEachM {A B} (f : A -> Mutation B) (xs : list A) : Mutation (list B) :=
  match xs with
  | [] => ret []
  | x :: xs' => b <- f x ;; bs <- forEachM f xs' ;; ret (b :: bs)
  end.

(** What the caller of a mutation sees: the committed database and the
    outcome.  A handler that throws commits nothing. *)
Definition runMutation {A} (m : Mutation A) (db : DB) : DB * Result A :=
  match m db with
  | Ok (a, db') => (db', Ok a)
  | Throw e => (db, Throw e)
  end.

(** ** [ctx.db] on each table *)

Definition get_habit (id : Id) : Mutation (option Habit.t) :=
  fun db => Ok (tbl_get Habit._id id (habits db), db).

Definition insert_habit (mkDoc : Id -> Habit.t) : Mutation Id :=
  fun db =>
    let id := nextId db in
    Ok (id, mkDB (habits db ++ [mkDoc id]) (habitLogs db) (calendarEvents db) (S id)).

Definition patch_habit (id : Id) (p : Habit.Patch) : Mutation unit :=
  fun db =>
    match tbl_get Habit._id id (habits db) with
    | None => Throw "Update on nonexistent document ID"
    | Some _ =>
        Ok (tt, mkDB (tbl_patch Habit._id id (Habit.patch p) (habits db))
                     (habitLogs db) (calendarEvents db) (nextId db))
    end.

Definition delete_habit (id : Id) : Mutation unit :=
  fun db =>
    match tbl_get Habit._id id (habits db) with
    | None => Throw "Delete on nonexistent document ID"
    | Some _ =>
        Ok (tt, mkDB (tbl_delete Habit._id id (habits db))
                     (habitLogs db) (calendarEvents db) (nextId db))
    end.

Definition insert_habitLog (mkDoc : Id -> HabitLog.t) : Mutation Id :=
  fun db =>
    let id := nextId db in
    Ok (id, mkDB (habits db) (habitLogs db ++ [mkDoc id]) (calendarEvents db) (S id)).

Definition patch_habitLog (id : Id) (p : HabitLog.Patch) : Mutation unit :=
  fun db =>
    match tbl_get HabitLog._id id (habitLogs db) with
    | None => Throw "Update on nonexistent document ID"
    | Some _ =>
        Ok (tt, mkDB (habits db)
                     (tbl_patch HabitLog._id id (HabitLog.patch p) (habitLogs db))
                     (calendarEvents db) (nextId db))
    end.

Definition delete_habitLog (id : Id) : Mutation unit :=
  fun db =>
    match tbl_get HabitLog._id id (habitLogs db) with
    | None => Throw "Delete on nonexistent document ID"
    | Some _ =>
        Ok (tt, mkDB (habits db)
                     (tbl_delete HabitLog._id id (habitLogs db))
                     (calendarEvents db) (nextId db))
    end.

Definition insert_calendarEvent (mkDoc : Id -> CalendarEvent.t) : Mutation Id :=
  fun db =>
    let id := nextId db in
    Ok (id, mkDB (habits db) (habitLogs db) (calendarEvents db ++ [mkDoc id]) (S id)).

Definition patch_calendarEvent (id : Id) (p : CalendarEvent.Patch) : Mutation unit :=
  fun db =>
    match tbl_get CalendarEvent._id id (calendarEvents db) with
    | None => Throw "Update on nonexistent document ID"
    | Some _ =>
        Ok (tt, mkDB (habits db) (habitLogs db)
                     (tbl_patch CalendarEvent._id id (CalendarEvent.patch p)
                                (calendarEvents db))
                     (nextId db))
    end.

(** ** Sorting, as [Array.prototype.sort] and as an index does it *)

(** A stable sort by a comparator: [insertBy] puts [x] before the first
    element it does not come after. *)
Section Sort.
Variable A : Type.
Variable cmp : A -> A -> comparison.

Fixpoint insertBy (x : A) (l : list A) : list A :=
  match l with
  | [] => [x]
  | y :: l' => match cmp x y with
               | Gt => y :: insertBy x l'
               | _ => x :: l
               end
  end.

Fixpoint sortBy (l : list A) : list A :=
  match l with
  | [] => []
  | x :: l' => insertBy x (sortBy l')
  end.
End Sort.

(** [localeCompare] on ISO dates, [YYYY-MM-DD]: texts of one length, made
    of digits with hyphens at the same places, which every collation
    orders as their characters are ordered. *)
Definition localeCompare (a b : string) : comparison := String.compare a b.

(** [.withIndex("by_habit_and_date", q => q.eq("habitId", habitId)).collect()]:
    the habit's logs in index order, by date and then by creation. *)
Definition logsOfHabit (habitId : Id) (db : DB) : list HabitLog.t :=
  sortBy (fun a b => localeCompare (HabitLog.date a) (HabitLog.date b))
         (filter (fun l => Nat.eqb (HabitLog.habitId l) habitId) (habitLogs db)).

Definition collect_by_habit (habitId : Id) : Mutation (list HabitLog.t) :=
  fun db => Ok (logsOfHabit habitId db, db).

(** [.withIndex("by_habit_and_date", q => q.eq("habitId", h).eq("date", d))] *)
Definition logsOfHabitOn (habitId : Id) (d : string) (db : DB) : list HabitLog.t :=
  filter (fun l => Nat.eqb (HabitLog.habitId l) habitId && String.eqb (HabitLog.date l) d)
         (habitLogs db).

(** [.unique()]: the document, [null] when there is none, and an error
    when there are several. *)
Definition unique_by_habit_and_date (habitId : Id) (d : string)
  : Mutation (option HabitLog.t) :=
  fun db =>
    match logsOfHabitOn habitId d db with
    | [] => Ok (None, db)
    | [l] => Ok (Some l, db)
    | _ => Throw "unique() query returned more than one result"
    end.

(* ================================================================== *)
(** * Habits ([convex/habits.ts]) *)
(* ================================================================== *)

(** The clock of one call: [Date.now()] and the calendar day of
    [new Date()]. *)
Record Clock : Type := mkClock { now : Z; today : Date }.

Record Success : Type := mkSuccess { success : bool }.

Module CreateHabitArgs.
Record t : Type := mk {
  userId : Id;
  name : string;
  description : option string;
  frequency : Frequency;
  customDays : option (list Z);
  preferredTime : option PreferredTime;
  durationMinutes : Z;
  color : option string
}.
End CreateHabitArgs.

Definition createHabit (clk : Clock) (args : CreateHabitArgs.t) : Mutation Id :=
  habitId <- insert_habit (fun id =>
    Habit.mk id
      (CreateHabitArgs.userId args)
      (CreateHabitArgs.name args)
      (CreateHabitArgs.description args)
      (CreateHabitArgs.frequency args)
      (CreateHabitArgs.customDays args)
      (CreateHabitArgs.preferredTime args)
      (CreateHabitArgs.durationMinutes args)
      0 (* currentStreak *)
      0 (* bestStreak *)
      true (* isActive *)
      (CreateHabitArgs.color args)
      (now clk)) ;;
  ret habitId.

Module UpdateHabitArgs.
Record t : Type := mk {
  habitId : Id;
  name : option string;
  description : option string;
  frequency : option Frequency;
  customDays : option (list Z);
  preferredTime : option PreferredTime;
  durationMinutes : option Z;
  color : option string;
  isActive : option bool
}.

(** [const { habitId, ...updates } = args] and then [cleanUpdates]: only
    the arguments that were given become keys of the patch. *)
Definition cleanUpdates (args : t) : Habit.Patch :=
  Habit.mkPatch
    Keep
    (cleanReq (name args))
    (cleanOpt (description args))
    (cleanReq (frequency args))
    (cleanOpt (customDays args))
    (cleanOpt (preferredTime args))
    (cleanReq (durationMinutes args))
    Keep
    Keep
    (cleanReq (isActive args))
    (cleanOpt (color args))
    Keep.
End UpdateHabitArgs.

Definition updateHabit (args : UpdateHabitArgs.t) : Mutation Success :=
  patch_habit (UpdateHabitArgs.habitId args) (UpdateHabitArgs.cleanUpdates args) ;;;
  ret (mkSuccess true).

Definition deleteHabit (habitId : Id) : Mutation Success :=
  (* Also delete all logs for this habit *)
  logs <- collect_by_habit habitId ;;
  forEachM (fun log => delete_habitLog (HabitLog._id log)) logs ;;;
  (* Delete the habit itself *)
  delete_habit habitId ;;;
  ret (mkSuccess true).

(** ** The streak walk *)

(** [logs.sort((a, b) => b.date.localeCompare(a.date))] *)
Definition sortByDateDesc (logs : list HabitLog.t) : list HabitLog.t :=
  sortBy (fun a b => localeCompare (HabitLog.date b) (HabitLog.date a)) logs.

(** The three branches of the loop body. *)
Inductive Branch := Counted | NotCompleted | Gap.

Definition branchOf (log : HabitLog.t) (expectedDate : string) : Branch :=
  if String.eqb (HabitLog.date log) expectedDate && HabitLog.completed log
  then Counted
  else if String.eqb (HabitLog.date log) expectedDate && negb (HabitLog.completed log)
       then NotCompleted (* Streak broken *)
       else Gap (* Missing day - streak broken (unless it's future date) *).

(** The [for] loop over the sorted logs, from the state [checkDate],
    [currentStreak]. *)
Fixpoint walk (logs : list HabitLog.t) (checkDate : Date) (currentStreak : Z) : Z :=
  match logs with
  | [] => currentStreak
  | log :: rest =>
      match branchOf log (toISODate checkDate) with
      | Counted => walk rest (prevDay checkDate) (currentStreak + 1)
      | NotCompleted => currentStreak
      | Gap => currentStreak
      end
  end.

(** The branch taken by the first iteration, if there is one. *)
Definition firstBranch (logs : list HabitLog.t) (checkDate : Date) : option Branch :=
  match logs with
  | [] => None
  | log :: _ => Some (branchOf log (toISODate checkDate))
  end.

(** [currentStreak] as the loop leaves it: the walk over the logs sorted
    by date descending, from today and zero. *)
Definition computeStreak (logs : list HabitLog.t) (today : Date) : Z :=
  walk (sortByDateDesc logs) today 0.

Definition updateStreak (clk : Clock) (habitId : Id) : Mutation unit :=
  habit <- get_habit habitId ;;
  match habit with
  | None => ret tt
  | Some habit =>
      logs <- collect_by_habit habitId ;;
      let currentStreak := computeStreak logs (today clk) in
      let bestStreak := Z.max (Habit.bestStreak habit) currentStreak in
      patch_habit habitId
        (Habit.mkPatch Keep Keep Keep Keep Keep Keep Keep
                       (Put currentStreak) (Put bestStreak) Keep Keep Keep)
  end.

Module LogHabitCompletionArgs.
Record t : Type := mk {
  habitId : Id;
  userId : Id;
  date : string;
  completed : bool;
  notes : option string
}.
End LogHabitCompletionArgs.

(** The first half of [logHabitCompletion]: look the log of that habit
    and date up, patch it when it exists and insert it when it does not. *)
Definition upsertLog (clk : Clock) (args : LogHabitCompletionArgs.t) : Mutation unit :=
  let habitId := LogHabitCompletionArgs.habitId args in
  existingLog <- unique_by_habit_and_date habitId (LogHabitCompletionArgs.date args) ;;
  match existingLog with
  | Some existingLog =>
      (* Update existing log *)
      patch_habitLog (HabitLog._id existingLog)
        (HabitLog.mkPatch (Put (LogHabitCompletionArgs.completed args))
                          (Put (LogHabitCompletionArgs.notes args)))
  | None =>
      (* Create new log *)
      insert_habitLog (fun id =>
        HabitLog.mk id habitId
          (LogHabitCompletionArgs.userId args)
          (LogHabitCompletionArgs.date args)
          (LogHabitCompletionArgs.completed args)
          (LogHabitCompletionArgs.notes args)
          (now clk)) ;;;
      ret tt
  end.

Definition logHabitCompletion (clk : Clock) (args : LogHabitCompletionArgs.t)
  : Mutation Success :=
  upsertLog clk args ;;;
  (* Update streak for this habit *)
  updateStreak clk (LogHabitCompletionArgs.habitId args) ;;;
  ret (mkSuccess true).

(* ================================================================== *)
(** * JavaScript values read from the model's reply *)
(* ================================================================== *)

(** What [JSON.parse] returns.  A number carries its decimal rendering
    (the result of [Number.prototype.toString]), which is all the page
    does with one. *)
Unset Elimination Schemes.
Inductive JSON : Type :=
| JNull
| JBool (b : bool)
| JNum (repr : string)
| JStr (s : string)
| JArr (elems : list JSON)
| JObj (members : list (string * JSON)).
Set Elimination Schemes.

(** A JavaScript value: [None] is [undefined]. *)
Abbreviation JSValue := (option JSON) (only parsing).

(** The member of an object under a key; [JSON.parse] keeps the last of
    several members with one key. *)
Fixpoint lookupMember (key : string) (members : list (string * JSON)) : JSValue :=
  match members with
  | [] => None
  | (k, v) :: rest =>
      match lookupMember key rest with
      | Some v' => Some v'
      | None => if String.eqb k key then Some v else None
      end
  end.

(** [v.key] for the keys the page reads ([events], [title], [description],
    [startTime], [endTime], [category]): a [TypeError] on [null], the
    member on an object, [undefined] on anything else. *)
Definition getProp (v : JSON) (key : string) : Result JSValue :=
  match v with
  | JNull => Throw "TypeError: Cannot read properties of null"
  | JObj members => Ok (lookupMember key members)
  | _ => Ok None
  end.

(** Truthiness, for [||] and [&&]. *)
Definition truthy (v : JSValue) : bool :=
  match v with
  | None => false
  | Some JNull => false
  | Some (JBool b) => b
  | Some (JNum repr) => negb (String.eqb repr "0")
  | Some (JStr s) => negb (String.eqb s "")
  | Some (JArr _) => true
  | Some (JObj _) => true
  end.

(** The values of a list of results, or the first error. *)
Fixpoint allOk {A} (rs : list (Result A)) : Result (list A) :=
  match rs with
  | [] => Ok []
  | Throw e :: _ => Throw e
  | Ok a :: rest =>
      match allOk rest with
      | Ok values => Ok (a :: values)
      | Throw e => Throw e
      end
  end.

(** The object has a member of its own under [key]. *)
Definition hasMember (key : string) (members : list (string * JSON)) : bool :=
  match lookupMember key members with
  | Some _ => true
  | None => false
  end.

(** [String(v)], as a template literal applies it.  An array joins the
    texts of its elements, the empty text for [null].  An object is
    converted by its [toString], then by its [valueOf]: the [toString] of
    [Object.prototype] gives [[object Object]]; a member of its own named
    [toString], which in a value of [JSON.parse] is never a function, is
    passed over, [valueOf] gives no primitive value (the one of
    [Object.prototype] returns the object, a member of its own is no
    function), and the conversion ends in a [TypeError]. *)
Fixpoint toStringJSON (v : JSON) : Result string :=
  match v with
  | JNull => Ok "null"
  | JBool true => Ok "true"
  | JBool false => Ok "false"
  | JNum repr => Ok repr
  | JStr s => Ok s
  | JArr elems =>
      match allOk (map (fun e => match e with
                                 | JNull => Ok ""
                                 | _ => toStringJSON e
                                 end) elems) with
      | Ok texts => Ok (String.concat "," texts)
      | Throw e => Throw e
      end
  | JObj members =>
      if hasMember "toString" members
      then Throw "TypeError: Cannot convert object to primitive value"
      else Ok "[object Object]"
  end.

Definition toStringJS (v : JSValue) : Result string :=
  match v with
  | None => Ok "undefined"
  | Some j => toStringJSON j
  end.

(* ================================================================== *)
(** * Events ([convex/events.ts]) *)
(* ================================================================== *)

(** One element of the [events] argument of [createManyEvents], after the
    argument validator accepted it. *)
Module NewEvent.
Record t : Type := mk {
  title : string;
  description : option string;
  startTime : string;
  endTime : string;
  date : string;
  category : Category.t;
  isRecurring : bool;
  createdBy : CreatedBy.t
}.
End NewEvent.

(** The same element as the client sends it. *)
Module RawEvent.
Record t : Type := mk {
  title : JSValue;
  description : JSValue;
  startTime : JSValue;
  endTime : JSValue;
  date : JSValue;
  category : JSValue;
  isRecurring : JSValue;
  createdBy : JSValue
}.
End RawEvent.

(** ** Argument validators *)

(** [v.string()] *)
Definition v_string (v : JSValue) : option string :=
  match v with Some (JStr s) => Some s | _ => None end.

(** [v.optional(v.string())]: the key may be absent. *)
Definition v_optional_string (v : JSValue) : option (option string) :=
  match v with
  | None => Some None
  | Some (JStr s) => Some (Some s)
  | _ => None
  end.

(** [v.boolean()] *)
Definition v_boolean (v : JSValue) : option bool :=
  match v with Some (JBool b) => Some b | _ => None end.

(** The union of the seven category literals. *)
Definition categoryOfString (s : string) : option Category.t :=
  if String.eqb s "work" then Some Category.work
  else if String.eqb s "meal" then Some Category.meal
  else if String.eqb s "sleep" then Some Category.sleep
  else if String.eqb s "habit" then Some Category.habit
  else if String.eqb s "planning" then Some Category.planning
  else if String.eqb s "personal" then Some Category.personal
  else if String.eqb s "other" then Some Category.other
  else None.

Definition v_category (v : JSValue) : option Category.t :=
  match v with Some (JStr s) => categoryOfString s | _ => None end.

(** [v.union(v.literal("ai"), v.literal("user"))] *)
Definition v_createdBy (v : JSValue) : option CreatedBy.t :=
  match v with
  | Some (JStr s) =>
      if String.eqb s "ai" then Some CreatedBy.ai
      else if String.eqb s "user" then Some CreatedBy.user
      else None
  | _ => None
  end.

(** The [v.object({...})] of one event. *)
Definition v_event (e : RawEvent.t) : option NewEvent.t :=
  match v_string (RawEvent.title e),
        v_optional_string (RawEvent.description e),
        v_string (RawEvent.startTime e),
        v_string (RawEvent.endTime e),
        v_string (RawEvent.date e),
        v_category (RawEvent.category e),
        v_boolean (RawEvent.isRecurring e),
        v_createdBy (RawEvent.createdBy e) with
  | Some title, Some description, Some startTime, Some endTime, Some date,
    Some category, Some isRecurring, Some createdBy =>
      Some (NewEvent.mk title description startTime endTime date category
                        isRecurring createdBy)
  | _, _, _, _, _, _, _, _ => None
  end.

(** [v.array(...)]: every element must pass. *)
Fixpoint v_events (es : list RawEvent.t) : option (list NewEvent.t) :=
  match es with
  | [] => Some []
  | e :: rest =>
      match v_event e, v_events rest with
      | Some e', Some rest' => Some (e' :: rest')
      | _, _ => None
      end
  end.

(** ** [createManyEvents] *)

Definition createManyEvents_handler (clk : Clock) (userId : Id)
    (events : list NewEvent.t) : Mutation (list Id) :=
  (* Create all events and collect their IDs *)
  eventIds <- forEachM (fun event =>
    insert_calendarEvent (fun id =>
      CalendarEvent.mk id userId
        (NewEvent.title event)
        (NewEvent.description event)
        (NewEvent.startTime event)
        (NewEvent.endTime event)
        (NewEvent.date event)
        (NewEvent.category event)
        (NewEvent.isRecurring event)
        None (* recurringPattern is not an argument *)
        (NewEvent.createdBy event)
        (Some false) (* completed *)
        (now clk))) events ;;
  ret eventIds.

(** The mutation as a client calls it: the arguments are validated as a
    whole before the handler runs. *)
Definition createManyEvents (clk : Clock) (userId : Id) (events : list RawEvent.t)
  : Mutation (list Id) :=
  match v_events events with
  | None => throw "ArgumentValidationError"
  | Some events' => createManyEvents_handler clk userId events'
  end.

(** ** [updateEvent] *)

Module UpdateEventArgs.
Record t : Type := mk {
  eventId : Id;
  title : option string;
  description : option string;
  startTime : option string;
  endTime : option string;
  category : option Category.t;
  completed : option bool
}.

(** [const { eventId, ...updates } = args] and then [cleanUpdates]. *)
Definition cleanUpdates (args : t) : CalendarEvent.Patch :=
  CalendarEvent.mkPatch
    Keep
    (cleanReq (title args))
    (cleanOpt (description args))
    (cleanReq (startTime args))
    (cleanReq (endTime args))
    Keep
    (cleanReq (category args))
    Keep
    Keep
    Keep
    (cleanOpt (completed args))
    Keep.
End UpdateEventArgs.

Definition updateEvent (args : UpdateEventArgs.t) : Mutation Success :=
  patch_calendarEvent (UpdateEventArgs.eventId args) (UpdateEventArgs.cleanUpdates args) ;;;
  ret (mkSuccess true).

(* ================================================================== *)
(** * The planning page ([app/dashboard/plan/page.tsx]) *)
(* ================================================================== *)

Inductive Role := r_user | r_assistant.

Record Message : Type := mkMessage { role : Role; content : string }.

(** The state of [PlanPage]: its [useState] cells. *)
Record PlanPage : Type := mkPlanPage {
  messages : list Message;
  input : string;
  isLoading : bool;
  parsedSchedule : option (list JSON);
  scheduleConfirmed : bool;
  convexUserId : option Id
}.

(** The planning date of one render: [format(tomorrow, 'yyyy-MM-dd')] and
    [format(tomorrow, 'EEEE, MMMM d')]. *)
Record PlanDay : Type := mkPlanDay {
  tomorrowDate : string;
  tomorrowFormatted : string
}.

(** The page and the database behind it. *)
Record World : Type := mkWorld { page : PlanPage; db : DB }.

(** ** The pattern [/```json\s*([\s\S]*?)\s*```/] *)

(** The white space of JavaScript, the same for [\s] in a pattern and for
    [String.prototype.trim]: TAB, LF, VT, FF, CR, SPACE, U+00A0, U+1680,
    U+2000 to U+200A, U+2028, U+2029, U+202F, U+205F, U+3000 and U+FEFF.
    In UTF-8 the first six are one byte, U+00A0 is two and the others are
    three. *)

Definition byte (c : ascii) : N := N_of_ascii c.

(** TAB, LF, VT, FF, CR, SPACE *)
Definition isSpace (c : ascii) : bool :=
  match nat_of_ascii c with
  | 9%nat | 10%nat | 11%nat | 12%nat | 13%nat | 32%nat => true
  | _ => false
  end.

(** U+00A0 is [C2 A0]. *)
Definition isSpace2 (c1 c2 : ascii) : bool :=
  N.eqb (byte c1) 194 && N.eqb (byte c2) 160.

(** U+1680 is [E1 9A 80]; U+2000 to U+200A are [E2 80 80] to [E2 80 8A];
    U+2028, U+2029 and U+202F are [E2 80 A8], [E2 80 A9] and [E2 80 AF];
    U+205F is [E2 81 9F]; U+3000 is [E3 80 80]; U+FEFF is [EF BB BF]. *)
Definition isSpace3 (c1 c2 c3 : ascii) : bool :=
  (N.eqb (byte c1) 225 && N.eqb (byte c2) 154 && N.eqb (byte c3) 128)
  || (N.eqb (byte c1) 226 && N.eqb (byte c2) 128
      && (N.leb 128 (byte c3) && N.leb (byte c3) 138
          || N.eqb (byte c3) 168 || N.eqb (byte c3) 169 || N.eqb (byte c3) 175))
  || (N.eqb (byte c1) 226 && N.eqb (byte c2) 129 && N.eqb (byte c3) 159)
  || (N.eqb (byte c1) 227 && N.eqb (byte c2) 128 && N.eqb (byte c3) 128)
  || (N.eqb (byte c1) 239 && N.eqb (byte c2) 187 && N.eqb (byte c3) 191).

(** [s] without the white space character at its head, if it has one. *)
Definition stripSpace (s : string) : option string :=
  match s with
  | EmptyString => None
  | String c1 r1 =>
      if isSpace c1 then Some r1
      else match r1 with
           | EmptyString => None
           | String c2 r2 =>
               if isSpace2 c1 c2 then Some r2
               else match r2 with
                    | EmptyString => None
                    | String c3 r3 => if isSpace3 c1 c2 c3 then Some r3 else None
                    end
           end
  end.

(** [\s*] at the head of [s]: every white space character there is
    dropped. *)
Fixpoint dropSpaces (s : string) : string :=
  match s with
  | EmptyString => EmptyString
  | String c1 r1 =>
      if isSpace c1 then dropSpaces r1
      else match r1 with
           | EmptyString => s
           | String c2 r2 =>
               if isSpace2 c1 c2 then dropSpaces r2
               else match r2 with
                    | EmptyString => s
                    | String c3 r3 => if isSpace3 c1 c2 c3 then dropSpaces r3 else s
                    end
           end
  end.

Fixpoint dropChars (n : nat) (s : string) : string :=
  match n, s with
  | S n', String _ s' => dropChars n' s'
  | _, _ => s
  end.

(** What follows the leftmost occurrence of [pat] in [s]. *)
Fixpoint afterFirst (pat s : string) : option string :=
  if String.prefix pat s then Some (dropChars (String.length pat) s)
  else match s with
       | EmptyString => None
       | String _ s' => afterFirst pat s'
       end.

Definition fence : string := "```".

(** [\s*```] matches at the head of [s]. *)
Definition closesHere (s : string) : bool := String.prefix fence (dropSpaces s).

(** The group [([\s\S]*?)] followed by [\s*```]: the shortest prefix after
    which the closing fence matches. *)
Fixpoint lazyCapture (s : string) : option string :=
  if closesHere s then Some EmptyString
  else match s with
       | EmptyString => None
       | String c s' => option_map (String c) (lazyCapture s')
       end.

(** [assistantMessage.match(/```json\s*([\s\S]*?)\s*```/)], group 1. *)
Definition jsonMatch (assistantMessage : string) : option string :=
  match afterFirst (fence +++ "json") assistantMessage with
  | None => None
  | Some rest => lazyCapture (dropSpaces rest)
  end.

(** ** [String.prototype.trim] *)

(** The text up to the white space that ends it: it is cut where only
    white space follows. *)
Fixpoint trimEnd (s : string) : string :=
  match s with
  | EmptyString => EmptyString
  | String c s' =>
      if String.eqb (dropSpaces s) EmptyString then EmptyString
      else String c (trimEnd s')
  end.

Definition trim (s : string) : string := trimEnd (dropSpaces s).

(** ** [handleSubmit] *)

(** What the call to [/api/chat] comes to: the stream read to its end, or
    a failure ([fetch] rejects, the status is not ok, or a read fails). *)
Inductive ChatResponse :=
| ChatFailed
| ChatStreamed (chunks : list string).

(** [parsed.events && Array.isArray(parsed.events)]: the array, when both
    hold. *)
Definition eventsOf (parsed : JSON) : Result (option (list JSON)) :=
  match getProp parsed "events" with
  | Throw e => Throw e
  | Ok (Some (JArr elems)) => Ok (Some elems)
  | Ok _ => Ok None
  end.

Definition setMessages (ms : list Message) (p : PlanPage) : PlanPage :=
  mkPlanPage ms (input p) (isLoading p) (parsedSchedule p)
             (scheduleConfirmed p) (convexUserId p).

Definition setInput (s : string) (p : PlanPage) : PlanPage :=
  mkPlanPage (messages p) s (isLoading p) (parsedSchedule p)
             (scheduleConfirmed p) (convexUserId p).

Definition setIsLoading (b : bool) (p : PlanPage) : PlanPage :=
  mkPlanPage (messages p) (input p) b (parsedSchedule p)
             (scheduleConfirmed p) (convexUserId p).

Definition setParsedSchedule (s : option (list JSON)) (p : PlanPage) : PlanPage :=
  mkPlanPage (messages p) (input p) (isLoading p) s
             (scheduleConfirmed p) (convexUserId p).

Definition setScheduleConfirmed (b : bool) (p : PlanPage) : PlanPage :=
  mkPlanPage (messages p) (input p) (isLoading p) (parsedSchedule p)
             b (convexUserId p).

Definition chatErrorMessage : Message :=
  mkMessage r_assistant "Sorry, I encountered an error. Please try again.".

Section HandleSubmit.

(** [JSON.parse]: [None] when it throws a [SyntaxError]. *)
Variable JSON_parse : string -> option JSON.

(** The check for a schedule in the finished reply; every exception of
    the inner [try] is caught and dropped. *)
Definition detectSchedule (assistantMessage : string) (p : PlanPage) : PlanPage :=
  match jsonMatch assistantMessage with
  | Some block =>
      match JSON_parse block with
      | Some parsed =>
          match eventsOf parsed with
          | Ok (Some events) => setParsedSchedule (Some events) p
          | Ok None => p
          | Throw _ => p
          end
      | None => p (* JSON parsing failed, that's okay *)
      end
  | None => p
  end.

Definition handleSubmit (response : ChatResponse) (w : World) : World :=
  let p := page w in
  (* Don't submit if input is empty or already loading *)
  if String.eqb (trim (input p)) EmptyString || isLoading p then w
  else
    let userMessage := mkMessage r_user (trim (input p)) in
    let newMessages := messages p ++ [userMessage] in
    let p1 := setIsLoading true (setInput EmptyString (setMessages newMessages p)) in
    let p2 :=
      match response with
      | ChatStreamed chunks =>
          let assistantMessage := String.concat EmptyString chunks in
          detectSchedule assistantMessage
            (setMessages (newMessages ++ [mkMessage r_assistant assistantMessage]) p1)
      | ChatFailed =>
          setMessages (newMessages ++ [chatErrorMessage]) p1
      end in
    mkWorld (setIsLoading false p2) (db w).

End HandleSubmit.

(** ** [handleConfirmSchedule] *)

(** The element of [eventsToCreate] built from one proposed event.  The
    template literals convert what is under [startTime] and [endTime] to
    text, which can throw. *)
Definition eventToCreate (day : PlanDay) (event : JSON) : Result RawEvent.t :=
  match getProp event "title", getProp event "description",
        getProp event "startTime", getProp event "endTime",
        getProp event "category" with
  | Ok title, Ok description, Ok startTime, Ok endTime, Ok category =>
      match toStringJS startTime, toStringJS endTime with
      | Ok startText, Ok endText =>
          Ok (RawEvent.mk
                title
                description
                (Some (JStr (tomorrowDate day +++ "T" +++ startText +++ ":00")))
                (Some (JStr (tomorrowDate day +++ "T" +++ endText +++ ":00")))
                (Some (JStr (tomorrowDate day)))
                (if truthy category then category else Some (JStr "other"))
                (Some (JBool false))
                (Some (JStr "ai")))
      | Throw e, _ => Throw e
      | _, Throw e => Throw e
      end
  | Throw e, _, _, _, _ => Throw e
  | _, Throw e, _, _, _ => Throw e
  | _, _, Throw e, _, _ => Throw e
  | _, _, _, Throw e, _ => Throw e
  | _, _, _, _, Throw e => Throw e
  end.

(** [parsedSchedule.map(...)]; an exception in the callback ends the map. *)
Fixpoint eventsToCreate (day : PlanDay) (schedule : list JSON)
  : Result (list RawEvent.t) :=
  match schedule with
  | [] => Ok []
  | event :: rest =>
      match eventToCreate day event with
      | Throw e => Throw e
      | Ok e =>
          match eventsToCreate day rest with
          | Throw e' => Throw e'
          | Ok es => Ok (e :: es)
          end
      end
  end.

Definition newline : string := String (ascii_of_nat 10) EmptyString.

(** The texts of the two messages below are those of the file, byte for
    byte. *)
Definition savedMessage (day : PlanDay) : Message :=
  mkMessage r_assistant
    ("âœ… **Your schedule for " +++ tomorrowFormatted day +++ " is saved!**"
     +++ newline +++ newline
     +++ "You can view it in your calendar. Have a productive day tomorrow! ðŸš€").

Definition saveErrorMessage : Message :=
  mkMessage r_assistant "Sorry, I had trouble saving your schedule. Please try again.".

(** The body of the [try]: build [eventsToCreate] and call the mutation.
    An exception of the callback of [map] is thrown before anything is
    sent. *)
Definition saveSchedule (clk : Clock) (day : PlanDay) (userId : Id)
    (schedule : list JSON) (db : DB) : DB * Result (list Id) :=
  (* Transform events for database *)
  match eventsToCreate day schedule with
  | Throw e => (db, Throw e)
  | Ok events =>
      (* Save to database *)
      runMutation (createManyEvents clk userId events) db
  end.

Definition handleConfirmSchedule (clk : Clock) (day : PlanDay) (w : World) : World :=
  let p := page w in
  match parsedSchedule p, convexUserId p with
  | Some schedule, Some userId =>
      let p1 := setIsLoading true p in
      let attempt := saveSchedule clk day userId schedule (db w) in
      let p2 :=
        match snd attempt with
        | Ok _ =>
            setMessages (messages p1 ++ [savedMessage day])
                        (setScheduleConfirmed true p1)
        | Throw _ =>
            setMessages (messages p1 ++ [saveErrorMessage]) p1
        end in
      mkWorld (setIsLoading false p2) (fst attempt)
  | _, _ => w
  end.

(** [handleStartOver] *)
Definition startOverMessage (day : PlanDay) : Message :=
  mkMessage r_assistant
    ("Let's start fresh! ðŸ”„" +++ newline +++ newline
     +++ "What would you like to plan for **" +++ tomorrowFormatted day
     +++ "**? Do you have work tomorrow?").

Definition handleStartOver (day : PlanDay) (w : World) : World :=
  mkWorld (setScheduleConfirmed false
             (setParsedSchedule None
                (setMessages [startOverMessage day] (page w))))
          (db w).

(* ================================================================== *)
(** * The mutations as a client calls them *)
(* ================================================================== *)

Inductive Call : Type :=
| CallCreateHabit (clk : Clock) (args : CreateHabitArgs.t)
| CallUpdateHabit (args : UpdateHabitArgs.t)
| CallDeleteHabit (habitId : Id)
| CallLogHabitCompletion (clk : Clock) (args : LogHabitCompletionArgs.t)
| CallCreateManyEvents (clk : Clock) (userId : Id) (events : list RawEvent.t)
| CallUpdateEvent (args : UpdateEventArgs.t).

(** The database that one call commits. *)
Definition exec (c : Call) (db : DB) : DB :=
  match c with
  | CallCreateHabit clk args => fst (runMutation (createHabit clk args) db)
  | CallUpdateHabit args => fst (runMutation (updateHabit args) db)
  | CallDeleteHabit habitId => fst (runMutation (deleteHabit habitId) db)
  | CallLogHabitCompletion clk args => fst (runMutation (logHabitCompletion clk args) db)
  | CallCreateManyEvents clk userId events =>
      fst (runMutation (createManyEvents clk userId events) db)
  | CallUpdateEvent args => fst (runMutation (updateEvent args) db)
  end.

Definition execAll (calls : list Call) (db : DB) : DB :=
  fold_left (fun db c => exec c db) calls db.

(* ================================================================== *)
(** * The properties, in the words of the specification *)
(* ================================================================== *)

(** The logs of a set that are dated [d]. *)
Definition logsDated (d : string) (logs : list HabitLog.t) : list HabitLog.t :=
  filter (fun l => String.eqb (HabitLog.date l) d) logs.

(** The length of the unbroken run of completed logs that ends at [d]:
    exactly one log on [d], completed, and then the run that ends the day
    before.  At most [n] days are inspected. *)
Fixpoint runEndingAt (n : nat) (logs : list HabitLog.t) (d : Date) : Z :=
  match n with
  | O => 0
  | S n' =>
      match logsDated (toISODate d) logs with
      | [l] => if HabitLog.completed l then 1 + runEndingAt n' logs (prevDay d) else 0
      | _ => 0
      end
  end.

(** The maximal unbroken run of completed logs ending today; it cannot be
    longer than the number of logs. *)
Definition maximalRun (logs : list HabitLog.t) (today : Date) : Z :=
  runEndingAt (List.length logs) logs today.

(** [bestStreak >= currentStreak >= 0] on every habit. *)
Definition streaksOk (db : DB) : Prop :=
  Forall (fun h => 0 <= Habit.currentStreak h <= Habit.bestStreak h) (habits db).

(** At most one log per (habit, date) pair. *)
Definition uniqueLogs (db : DB) : Prop :=
  forall habitId d, (List.length (logsOfHabitOn habitId d db) <= 1)%nat.

(** Identifiers in use are below the counter, and no two documents of a
    table share one. *)
Definition idsFresh (db : DB) : Prop :=
  Forall (fun h => (Habit._id h < nextId db)%nat) (habits db) /\
  Forall (fun l => (HabitLog._id l < nextId db)%nat) (habitLogs db) /\
  NoDup (map Habit._id (habits db)) /\
  NoDup (map HabitLog._id (habitLogs db)).

(** What [updateHabit] may do to the habit it names. *)
Definition habitUpdated (args : UpdateHabitArgs.t) (h h' : Habit.t) : Prop :=
  Habit._id h' = Habit._id h /\
  Habit.userId h' = Habit.userId h /\
  Habit.currentStreak h' = Habit.currentStreak h /\
  Habit.bestStreak h' = Habit.bestStreak h /\
  Habit.createdAt h' = Habit.createdAt h /\
  Habit.name h' = match UpdateHabitArgs.name args with
                  | Some v => v | None => Habit.name h end /\
  Habit.description h' = match UpdateHabitArgs.description args with
                         | Some v => Some v | None => Habit.description h end /\
  Habit.frequency h' = match UpdateHabitArgs.frequency args with
                       | Some v => v | None => Habit.frequency h end /\
  Habit.customDays h' = match UpdateHabitArgs.customDays args with
                        | Some v => Some v | None => Habit.customDays h end /\
  Habit.preferredTime h' = match UpdateHabitArgs.preferredTime args with
                           | Some v => Some v | None => Habit.preferredTime h end /\
  Habit.durationMinutes h' = match UpdateHabitArgs.durationMinutes args with
                             | Some v => v | None => Habit.durationMinutes h end /\
  Habit.color h' = match UpdateHabitArgs.color args with
                   | Some v => Some v | None => Habit.color h end /\
  Habit.isActive h' = match UpdateHabitArgs.isActive args with
                      | Some v => v | None => Habit.isActive h end.

(** What [updateEvent] may do to the event it names. *)
Definition eventUpdated (args : UpdateEventArgs.t) (e e' : CalendarEvent.t) : Prop :=
  CalendarEvent._id e' = CalendarEvent._id e /\
  CalendarEvent.userId e' = CalendarEvent.userId e /\
  CalendarEvent.date e' = CalendarEvent.date e /\
  CalendarEvent.createdBy e' = CalendarEvent.createdBy e /\
  CalendarEvent.createdAt e' = CalendarEvent.createdAt e /\
  CalendarEvent.isRecurring e' = CalendarEvent.isRecurring e /\
  CalendarEvent.recurringPattern e' = CalendarEvent.recurringPattern e /\
  CalendarEvent.title e' = match UpdateEventArgs.title args with
                           | Some v => v | None => CalendarEvent.title e end /\
  CalendarEvent.description e' = match UpdateEventArgs.description args with
                                 | Some v => Some v
                                 | None => CalendarEvent.description e end /\
  CalendarEvent.startTime e' = match UpdateEventArgs.startTime args with
                               | Some v => v | None => CalendarEvent.startTime e end /\
  CalendarEvent.endTime e' = match UpdateEventArgs.endTime args with
                             | Some v => v | None => CalendarEvent.endTime e end /\
  CalendarEvent.category e' = match UpdateEventArgs.category args with
                              | Some v => v | None => CalendarEvent.category e end /\
  CalendarEvent.completed e' = match UpdateEventArgs.completed args with
                               | Some v => Some v
                               | None => CalendarEvent.completed e end.

(** ** What one call does to a table *)

(** The patch of [updateStreak]. *)
Definition streakPatch (currentStreak bestStreak : Z) : Habit.Patch :=
  Habit.mkPatch Keep Keep Keep Keep Keep Keep Keep
                (Put currentStreak) (Put bestStreak) Keep Keep Keep.

(** What a call can do to the habits table. *)
Inductive habitsStep (db db' : DB) : Prop :=
| hs_same :
    habits db' = habits db -> habitsStep db db'
| hs_insert (h : Habit.t) :
    habits db' = habits db ++ [h] ->
    Habit._id h = nextId db ->
    (nextId db < nextId db')%nat ->
    Habit.currentStreak h = 0 -> Habit.bestStreak h = 0 ->
    habitsStep db db'
| hs_update (args : UpdateHabitArgs.t) :
    habits db' = tbl_patch Habit._id (UpdateHabitArgs.habitId args)
                           (Habit.patch (UpdateHabitArgs.cleanUpdates args)) (habits db) ->
    habitsStep db db'
| hs_delete (habitId : Id) :
    habits db' = tbl_delete Habit._id habitId (habits db) ->
    habitsStep db db'
| hs_streak (habitId : Id) (h : Habit.t) (c : Z) :
    tbl_get Habit._id habitId (habits db) = Some h ->
    0 <= c ->
    habits db' = tbl_patch Habit._id habitId
                           (Habit.patch (streakPatch c (Z.max (Habit.bestStreak h) c)))
                           (habits db) ->
    habitsStep db db'.

(** What a call can do to the habit logs. *)
Inductive logsStep (db db' : DB) : Prop :=
| ls_same :
    habitLogs db' = habitLogs db -> logsStep db db'
| ls_insert (l : HabitLog.t) :
    habitLogs db' = habitLogs db ++ [l] ->
    HabitLog._id l = nextId db ->
    (nextId db < nextId db')%nat ->
    logsOfHabitOn (HabitLog.habitId l) (HabitLog.date l) db = [] ->
    logsStep db db'
| ls_patch (id : Id) (p : HabitLog.Patch) :
    habitLogs db' = tbl_patch HabitLog._id id (HabitLog.patch p) (habitLogs db) ->
    logsStep db db'
| ls_filter (keep : HabitLog.t -> bool) :
    habitLogs db' = filter keep (habitLogs db) ->
    logsStep db db'.

(** The documents that [createManyEvents] inserts, numbered from [n]. *)
Fixpoint insertedEvents (clk : Clock) (userId : Id) (n : Id) (events : list NewEvent.t)
  : list CalendarEvent.t :=
  match events with
  | [] => []
  | event :: rest =>
      CalendarEvent.mk n userId
        (NewEvent.title event) (NewEvent.description event)
        (NewEvent.startTime event) (NewEvent.endTime event)
        (NewEvent.date event) (NewEvent.category event)
        (NewEvent.isRecurring event) None (NewEvent.createdBy event)
        (Some false) (now clk)
      :: insertedEvents clk userId (S n) rest
  end.

(** ** The log of a pair after a write *)

(** The log that a write leaves for its pair: the new document when there
    was none, and the old one with [completed] and [notes] replaced when
    there was one. *)
Definition logAfterWrite (clk : Clock) (args : LogHabitCompletionArgs.t) (db : DB)
  : HabitLog.t :=
  match logsOfHabitOn (LogHabitCompletionArgs.habitId args)
                      (LogHabitCompletionArgs.date args) db with
  | [] =>
      HabitLog.mk (nextId db)
        (LogHabitCompletionArgs.habitId args)
        (LogHabitCompletionArgs.userId args)
        (LogHabitCompletionArgs.date args)
        (LogHabitCompletionArgs.completed args)
        (LogHabitCompletionArgs.notes args)
        (now clk)
  | old :: _ =>
      HabitLog.mk (HabitLog._id old) (HabitLog.habitId old) (HabitLog.userId old)
        (HabitLog.date old)
        (LogHabitCompletionArgs.completed args)
        (LogHabitCompletionArgs.notes args)
        (HabitLog.createdAt old)
  end.

(** ** The order of the sorted logs *)

(** [a <= b] in the order of [localeCompare]. *)
Definition strLe (a b : string) : Prop := localeCompare a b <> Gt.

Section DescendingOrder.
Variable A : Type.
Variable key : A -> string.

(** Descending by key: the comparator of [sortByDateDesc]. *)
Definition cmpDesc (a b : A) : comparison := localeCompare (key b) (key a).

(** [b] does not come before [a]. *)
Definition geKey (a b : A) : Prop := strLe (key b) (key a).
End DescendingOrder.

(** ** Proposed events and the events made from them *)






(** ** Replies without a schedule *)

(** The fenced block gives no schedule: [JSON.parse] throws on it, or the
    value it returns has no array under [events]. *)
Definition blockFails (JSON_parse : string -> option JSON) (block : string) : Prop :=
  JSON_parse block = None \/
  exists parsed, JSON_parse block = Some parsed /\
                 forall events, eventsOf parsed <> Ok (Some events).

(** ** Days and logs that the comparison of ISO dates orders *)

(** The days that [toISOString] prints with a four-digit year. *)
Definition inRange (d : Date) : bool :=
  validDate d && (0 <=? year d) && (year d <=? 9999).

(** Ten to the power [w], the bound of the numbers of [w] digits. *)
Fixpoint pow10 (w : nat) : Z :=
  match w with
  | O => 1
  | S w' => 10 * pow10 w'
  end.

(** The log is dated by a day of the calendar, with a four-digit year,
    that is not after [d]. *)
Definition datedWithin (d : Date) (l : HabitLog.t) : Prop :=
  exists x, inRange x = true /\
            HabitLog.date l = toISODate x /\
            dateCompare x d <> Gt.

(* ================================================================== *)
(** * Data for the scenarios *)
(* ================================================================== *)

(** ** Habits and logs *)

Definition gymLog (id : Id) (d : string) (c : bool) : HabitLog.t :=
  HabitLog.mk id 0 7 d c None 0.

Definition sampleClock : Clock := mkClock 1704240000000 (mkDate 2024 1 3).

Definition gymArgs : CreateHabitArgs.t :=
  CreateHabitArgs.mk 7 "Gym" None daily None None 30 None.

(** A habit is created and completed today ... *)
Definition gymCalls : list Call :=
  [CallCreateHabit sampleClock gymArgs;
   CallLogHabitCompletion sampleClock
     (LogHabitCompletionArgs.mk 0 7 "2024-01-03" true None)].

(** ... and then today's log is overwritten as not completed. *)
Definition gymUndo : list Call :=
  [CallLogHabitCompletion sampleClock
     (LogHabitCompletionArgs.mk 0 7 "2024-01-03" false None)].

Definition gymHabit (currentStreak bestStreak : Z) : Habit.t :=
  Habit.mk 0 7 "Gym" None daily None None 30 currentStreak bestStreak true None
           1704240000000.

Definition firstWrite : LogHabitCompletionArgs.t :=
  LogHabitCompletionArgs.mk 0 7 "2024-01-04" true (Some "ran 5k").

Definition secondWrite : LogHabitCompletionArgs.t :=
  LogHabitCompletionArgs.mk 0 7 "2024-01-04" false None.

Definition nextDayClock : Clock := mkClock 1704326400000 (mkDate 2024 1 4).

(** A habit with ten logs, one for each of the first ten days of 2024. *)
Definition tenLogCalls : list Call :=
  CallCreateHabit sampleClock gymArgs ::
  map (fun d => CallLogHabitCompletion sampleClock
                  (LogHabitCompletionArgs.mk 0 7 d true None))
      ["2024-01-01"; "2024-01-02"; "2024-01-03"; "2024-01-04"; "2024-01-05";
       "2024-01-06"; "2024-01-07"; "2024-01-08"; "2024-01-09"; "2024-01-10"].

(** Logs on the 2nd and the 3rd, and one dated the 4th, seen on the 3rd. *)
Definition aheadLogs : list HabitLog.t :=
  [gymLog 1 "2024-01-02" true; gymLog 2 "2024-01-03" true; gymLog 3 "2024-01-04" true].

Definition aheadDB : DB :=
  mkDB [gymHabit 2 2] aheadLogs [] 4.

Definition meditate : JSON :=
  JObj [("title", JStr "Meditate"); ("startTime", JStr "07:00");
        ("endTime", JStr "07:30"); ("category", JStr "habit")].

Definition standup : JSON :=
  JObj [("title", JStr "Standup+work"); ("startTime", JStr "09:00");
        ("endTime", JStr "17:00"); ("category", JStr "work")].

(** An event whose category is not one of the seven. *)
Definition morningRun : JSON :=
  JObj [("title", JStr "Morning run"); ("startTime", JStr "06:00");
        ("endTime", JStr "06:45"); ("category", JStr "exercise")].

Definition june2 : PlanDay := mkPlanDay "2024-06-02" "Sunday, June 2".

Definition proposedPage (schedule : list JSON) : PlanPage :=
  mkPlanPage [mkMessage r_assistant "Here is your plan."] "" false
             (Some schedule) false (Some 7%nat).

(** An event without a category. *)
Definition lunch : JSON :=
  JObj [("title", JStr "Lunch"); ("startTime", JStr "12:00");
        ("endTime", JStr "12:30"); ("description", JStr "Away from the desk")].


(* ================================================================== *)
(** * A parser to run replies with *)
(* ================================================================== *)

(** [handleSubmit] is stated for every function in the place of
    [JSON.parse].  To run it on a concrete reply this module gives one: a
    parser of the JSON texts made of objects, arrays, strings with the
    simple escapes, integers, [true], [false] and [null].  Anything else
    is refused. *)
Module MiniJSON.

Definition code (c : ascii) : N := N_of_ascii c.

Definition isJsonSpace (c : ascii) : bool :=
  match code c with
  | 9%N | 10%N | 13%N | 32%N => true
  | _ => false
  end.

Fixpoint skipSpaces (s : string) : string :=
  match s with
  | EmptyString => EmptyString
  | String c s' => if isJsonSpace c then skipSpaces s' else s
  end.

Definition isDigit (c : ascii) : bool :=
  (48 <=? code c)%N && (code c <=? 57)%N.

Fixpoint spanDigits (s : string) : string * string :=
  match s with
  | EmptyString => (EmptyString, EmptyString)
  | String c s' =>
      if isDigit c then let (d, r) := spanDigits s' in (String c d, r)
      else (EmptyString, s)
  end.

(** The character after a backslash. *)
Definition unescape (c : ascii) : option ascii :=
  match code c with
  | 34%N => Some c
  | 92%N => Some c
  | 47%N => Some c
  | 110%N => Some (ascii_of_nat 10)
  | 116%N => Some (ascii_of_nat 9)
  | 114%N => Some (ascii_of_nat 13)
  | 98%N => Some (ascii_of_nat 8)
  | 102%N => Some (ascii_of_nat 12)
  | _ => None
  end.

(** A string literal, after its opening quote. *)
Fixpoint stringBody (s : string) : option (string * string) :=
  match s with
  | EmptyString => None
  | String c s' =>
      match code c with
      | 34%N => Some (EmptyString, s')
      | 92%N =>
          match s' with
          | EmptyString => None
          | String e s'' =>
              match unescape e, stringBody s'' with
              | Some ch, Some (r, rest) => Some (String ch r, rest)
              | _, _ => None
              end
          end
      | _ =>
          if (code c <? 32)%N then None
          else match stringBody s' with
               | Some (r, rest) => Some (String c r, rest)
               | None => None
               end
      end
  end.

(** An integer: no leading zero, no fraction, no exponent. *)
Definition integerLiteral (s : string) : option (JSON * string) :=
  let (negative, s1) :=
    match s with
    | String c s' => if (code c =? 45)%N then (true, s') else (false, s)
    | EmptyString => (false, s)
    end in
  let (ds, rest) := spanDigits s1 in
  let wellFormed :=
    match ds with
    | EmptyString => false
    | String d EmptyString => true
    | String d _ => negb (code d =? 48)%N
    end in
  let continues :=
    match rest with
    | String c _ => (code c =? 46)%N || (code c =? 101)%N || (code c =? 69)%N
    | EmptyString => false
    end in
  if wellFormed && negb continues
  then Some (JNum (if negative && negb (String.eqb ds "0") then "-" +++ ds else ds), rest)
  else None.

Fixpoint value (fuel : nat) (s : string) {struct fuel} : option (JSON * string) :=
  match fuel with
  | O => None
  | S fuel' =>
      match skipSpaces s with
      | EmptyString => None
      | String c rest =>
          match code c with
          | 123%N =>
              match skipSpaces rest with
              | String c' rest' =>
                  if (code c' =? 125)%N then Some (JObj [], rest')
                  else match members fuel' rest with
                       | Some (ms, r) => Some (JObj ms, r)
                       | None => None
                       end
              | EmptyString => None
              end
          | 91%N =>
              match skipSpaces rest with
              | String c' rest' =>
                  if (code c' =? 93)%N then Some (JArr [], rest')
                  else match elements fuel' rest with
                       | Some (vs, r) => Some (JArr vs, r)
                       | None => None
                       end
              | EmptyString => None
              end
          | 34%N =>
              match stringBody rest with
              | Some (str, r) => Some (JStr str, r)
              | None => None
              end
          | _ =>
              if String.prefix "null" (String c rest)
              then Some (JNull, dropChars 4 (String c rest))
              else if String.prefix "true" (String c rest)
              then Some (JBool true, dropChars 4 (String c rest))
              else if String.prefix "false" (String c rest)
              then Some (JBool false, dropChars 5 (String c rest))
              else integerLiteral (String c rest)
          end
      end
  end

with elements (fuel : nat) (s : string) {struct fuel} : option (list JSON * string) :=
  match fuel with
  | O => None
  | S fuel' =>
      match value fuel' s with
      | None => None
      | Some (v, rest) =>
          match skipSpaces rest with
          | String c rest' =>
              if (code c =? 44)%N
              then match elements fuel' rest' with
                   | Some (vs, r) => Some (v :: vs, r)
                   | None => None
                   end
              else if (code c =? 93)%N then Some ([v], rest')
              else None
          | EmptyString => None
          end
      end
  end

with members (fuel : nat) (s : string) {struct fuel}
  : option (list (string * JSON) * string) :=
  match fuel with
  | O => None
  | S fuel' =>
      match skipSpaces s with
      | String c rest =>
          if (code c =? 34)%N
          then match stringBody rest with
               | Some (key, rest1) =>
                   match skipSpaces rest1 with
                   | String c1 rest2 =>
                       if (code c1 =? 58)%N
                       then match value fuel' rest2 with
                            | Some (v, rest3) =>
                                match skipSpaces rest3 with
                                | String c3 rest4 =>
                                    if (code c3 =? 44)%N
                                    then match members fuel' rest4 with
                                         | Some (ms, r) => Some ((key, v) :: ms, r)
                                         | None => None
                                         end
                                    else if (code c3 =? 125)%N
                                    then Some ([(key, v)], rest4)
                                    else None
                                | EmptyString => None
                                end
                            | None => None
                            end
                       else None
                   | EmptyString => None
                   end
               | None => None
               end
          else None
      | EmptyString => None
      end
  end.

(** The whole text must be one value. *)
Definition parse (s : string) : option JSON :=
  match value (2 * String.length s + 2) s with
  | Some (v, rest) =>
      match skipSpaces rest with
      | EmptyString => Some v
      | String _ _ => None
      end
  | None => None
  end.

End MiniJSON.

(** A double quote, and a string between two. *)
Definition dquote : string := String (ascii_of_nat 34) EmptyString.
Definition quoted (s : string) : string := dquote +++ s +++ dquote.

Definition memberText (key value : string) : string :=
  quoted key +++ ": " +++ quoted value.

Definition eventText (title startTime endTime category : string) : string :=
  "{ " +++ memberText "title" title +++ ", "
  +++ memberText "startTime" startTime +++ ", "
  +++ memberText "endTime" endTime +++ ", "
  +++ memberText "category" category +++ " }".

(** A reply that ends the planning with a schedule of two events. *)
Definition scheduleBlock : string :=
  "{ " +++ quoted "events" +++ ": [" +++ newline
  +++ eventText "Meditate" "07:00" "07:30" "habit" +++ "," +++ newline
  +++ eventText "Standup+work" "09:00" "17:00" "work" +++ newline
  +++ "], " +++ memberText "summary" "A calm start." +++ " }".

Definition scheduleReply : string :=
  "Great, here is your plan for tomorrow!" +++ newline +++ newline
  +++ fence +++ "json" +++ newline +++ scheduleBlock +++ newline +++ fence
  +++ newline +++ "Does this look good?".

(** The same reply with the closing brace of the first event missing. *)
Definition brokenBlock : string :=
  "{ " +++ quoted "events" +++ ": [" +++ newline
  +++ "{ " +++ memberText "title" "Meditate" +++ "," +++ newline
  +++ eventText "Standup+work" "09:00" "17:00" "work" +++ newline
  +++ "] }".

Definition brokenReply : string :=
  "Great, here is your plan for tomorrow!" +++ newline +++ newline
  +++ fence +++ "json" +++ newline +++ brokenBlock +++ newline +++ fence
  +++ newline +++ "Does this look good?".

Definition chattingPage (text : string) : PlanPage :=
  mkPlanPage [mkMessage r_assistant "Do you have work tomorrow?"] text false
             None false (Some 7%nat).

(** The broken reply, streamed in three chunks. *)
Definition brokenChunks : list string :=
  ["Great, here is your plan for tomorrow!" +++ newline +++ newline;
   fence +++ "json" +++ newline +++ brokenBlock;
   newline +++ fence +++ newline +++ "Does this look good?"].

(* ================================================================== *)
(** * The queries of [convex/habits.ts] *)
(* ================================================================== *)

(** [.withIndex("by_user", q => q.eq("userId", userId)).collect()] on
    habits: the user's habits in creation order. *)
Definition habitsOfUser (userId : Id) (db : DB) : list Habit.t :=
  filter (fun h => Nat.eqb (Habit.userId h) userId) (habits db).

(** [habits.sort((a, b) => b.createdAt - a.createdAt)]: a negative
    difference puts [a] first. *)
Definition getHabits (userId : Id) (db : DB) : list Habit.t :=
  (* Sort by creation date (newest first) *)
  sortBy (fun a b => Z.compare (Habit.createdAt b) (Habit.createdAt a))
         (habitsOfUser userId db).

Section GetActiveHabits.

(** [a.name.localeCompare(b.name)]: the collation of two names in the
    locale of the runtime.  Names are free text, so the order of their
    characters is not taken for it. *)
Variable localeCompare_names : string -> string -> comparison.

Definition getActiveHabits (userId : Id) (db : DB) : list Habit.t :=
  (* Filter to active only and sort by name *)
  sortBy (fun a b => localeCompare_names (Habit.name a) (Habit.name b))
         (filter (fun h => Habit.isActive h) (habitsOfUser userId db)).

End GetActiveHabits.

Definition getHabitLogsByDate (userId : Id) (date : string) (db : DB)
  : list HabitLog.t :=
  filter (fun l => Nat.eqb (HabitLog.userId l) userId && String.eqb (HabitLog.date l) date)
         (habitLogs db).

Record HabitStats : Type := mkHabitStats {
  stats_completed : Z;
  stats_total : Z;
  stats_percentage : Z
}.

(** [log.date >= args.startDate && log.date <= args.endDate], the
    comparison of strings by their characters. *)
Definition dateWithin (startDate endDate date : string) : bool :=
  String.leb startDate date && String.leb date endDate.

Section GetHabitStats.

(** [Math.round((completedCount / totalCount) * 100)], as the runtime's
    floating point computes it from the two counts. *)
Variable Math_round_percent : Z -> Z -> Z.

Definition getHabitStats (habitId : Id) (startDate endDate : string) (db : DB)
  : HabitStats :=
  let logs := logsOfHabit habitId db in
  (* Filter to date range *)
  let filteredLogs :=
    filter (fun log => dateWithin startDate endDate (HabitLog.date log)) logs in
  let completedCount :=
    Z.of_nat (List.length (filter (fun log => HabitLog.completed log) filteredLogs)) in
  let totalCount := Z.of_nat (List.length filteredLogs) in
  mkHabitStats completedCount totalCount
    (if 0 <? totalCount then Math_round_percent completedCount totalCount else 0).

End GetHabitStats.

(* ================================================================== *)
(** * The other functions of [convex/events.ts] *)
(* ================================================================== *)

(** [.withIndex("by_user_and_date", q => q.eq("userId", u).eq("date", d))
    .collect()] on calendar events. *)
Definition eventsOfUserOn (userId : Id) (date : string) (db : DB)
  : list CalendarEvent.t :=
  filter (fun e => Nat.eqb (CalendarEvent.userId e) userId
                   && String.eqb (CalendarEvent.date e) date)
         (calendarEvents db).

Section EventQueries.

(** [a.startTime.localeCompare(b.startTime)] and
    [a.date.localeCompare(b.date)]: the collation of two texts in the
    locale of the runtime.  The start time of an event is free text (the
    planning page stores what the assistant proposed, padded or not), so
    the order of characters is not taken for it. *)
Variable collate : string -> string -> comparison.

Definition getEventsByDate (userId : Id) (date : string) (db : DB)
  : list CalendarEvent.t :=
  (* Sort by start time *)
  sortBy (fun a b => collate (CalendarEvent.startTime a) (CalendarEvent.startTime b))
         (eventsOfUserOn userId date db).

(** The comparator of [getEventsByDateRange]. *)
Definition compareDateThenStart (a b : CalendarEvent.t) : comparison :=
  (* Sort by date first, then by start time *)
  if negb (String.eqb (CalendarEvent.date a) (CalendarEvent.date b))
  then collate (CalendarEvent.date a) (CalendarEvent.date b)
  else collate (CalendarEvent.startTime a) (CalendarEvent.startTime b).

Definition getEventsByDateRange (userId : Id) (startDate endDate : string) (db : DB)
  : list CalendarEvent.t :=
  (* Get all events for user, then filter by date range *)
  let allEvents :=
    filter (fun e => Nat.eqb (CalendarEvent.userId e) userId) (calendarEvents db) in
  let filteredEvents :=
    filter (fun event => dateWithin startDate endDate (CalendarEvent.date event))
           allEvents in
  sortBy compareDateThenStart filteredEvents.

End EventQueries.

Module CreateEventArgs.
Record t : Type := mk {
  userId : Id;
  title : string;
  description : option string;
  startTime : string;
  endTime : string;
  date : string;
  category : Category.t;
  isRecurring : bool;
  recurringPattern : option string;
  createdBy : CreatedBy.t
}.
End CreateEventArgs.

(** The document [{ ...args, completed: false, createdAt: Date.now() }]
    under the identifier that the insertion gives it. *)
Definition createEvent_document (clk : Clock) (args : CreateEventArgs.t) (id : Id)
  : CalendarEvent.t :=
  CalendarEvent.mk id
    (CreateEventArgs.userId args)
    (CreateEventArgs.title args)
    (CreateEventArgs.description args)
    (CreateEventArgs.startTime args)
    (CreateEventArgs.endTime args)
    (CreateEventArgs.date args)
    (CreateEventArgs.category args)
    (CreateEventArgs.isRecurring args)
    (CreateEventArgs.recurringPattern args)
    (CreateEventArgs.createdBy args)
    (Some false) (* completed *)
    (now clk).

Definition createEvent (clk : Clock) (args : CreateEventArgs.t) : Mutation Id :=
  (* Insert the new event *)
  eventId <- insert_calendarEvent (createEvent_document clk args) ;;
  ret eventId.

Definition delete_calendarEvent (id : Id) : Mutation unit :=
  fun db =>
    match tbl_get CalendarEvent._id id (calendarEvents db) with
    | None => Throw "Delete on nonexistent document ID"
    | Some _ =>
        Ok (tt, mkDB (habits db) (habitLogs db)
                     (tbl_delete CalendarEvent._id id (calendarEvents db))
                     (nextId db))
    end.

Definition deleteEvent (eventId : Id) : Mutation Success :=
  delete_calendarEvent eventId ;;;
  ret (mkSuccess true).

Record Deleted : Type := mkDeleted { deleted : Z }.

Definition deleteEventsByDate (userId : Id) (date : string) : Mutation Deleted :=
  events <- (fun db => Ok (eventsOfUserOn userId date db, db)) ;;
  (* Delete all events *)
  forEachM (fun event => delete_calendarEvent (CalendarEvent._id event)) events ;;;
  ret (mkDeleted (Z.of_nat (List.length events))).

(** The patch of [markEventComplete]. *)
Definition completedPatch (completed : bool) : CalendarEvent.Patch :=
  CalendarEvent.mkPatch Keep Keep Keep Keep Keep Keep Keep Keep Keep Keep
                        (Put (Some completed)) Keep.

Definition markEventComplete (eventId : Id) (completed : bool) : Mutation Success :=
  patch_calendarEvent eventId (completedPatch completed) ;;;
  ret (mkSuccess true).

(* ================================================================== *)
(** * The habits page and the calendar page *)
(* ================================================================== *)

(** The part of the state of [HabitsPage] that its handlers read:
    the user and [format(new Date(), 'yyyy-MM-dd')], the client's day. *)
Record HabitsPage : Type := mkHabitsPage {
  hp_convexUserId : option Id;
  hp_today : string
}.

(** [useQuery(api.habits.getHabitLogsByDate, ...)]: [undefined] while
    there is no user. *)
Definition todayLogs (p : HabitsPage) (db : DB) : option (list HabitLog.t) :=
  match hp_convexUserId p with
  | Some userId => Some (getHabitLogsByDate userId (hp_today p) db)
  | None => None
  end.

Definition isHabitCompletedToday (p : HabitsPage) (db : DB) (habitId : Id) : bool :=
  match todayLogs p db with
  | None => false
  | Some logs =>
      existsb (fun log => Nat.eqb (HabitLog.habitId log) habitId && HabitLog.completed log)
              logs
  end.

(** [handleToggleCompletion]: the database after the click. *)
Definition handleToggleCompletion (clk : Clock) (p : HabitsPage) (habitId : Id) (db : DB)
  : DB :=
  match hp_convexUserId p with
  | None => db
  | Some userId =>
      let isCompleted := isHabitCompletedToday p db habitId in
      fst (runMutation
             (logHabitCompletion clk
                (LogHabitCompletionArgs.mk habitId userId (hp_today p)
                                           (negb isCompleted) None))
             db)
  end.

(** [getEventsForDate] of the calendar page, on the result of its week
    query ([None] while it loads) and the day formatted [yyyy-MM-dd]. *)
Definition getEventsForDate (events : option (list CalendarEvent.t)) (dateStr : string)
  : list CalendarEvent.t :=
  match events with
  | None => []
  | Some es => filter (fun e => String.eqb (CalendarEvent.date e) dateStr) es
  end.

(** The form of the habits page: [newHabit] and [showAddForm]. *)
Record NewHabit : Type := mkNewHabit {
  nh_name : string;
  nh_description : string;
  nh_frequency : Frequency;
  nh_preferredTime : PreferredTime;
  nh_durationMinutes : Z;
  nh_color : string
}.

Record HabitForm : Type := mkHabitForm {
  newHabit : NewHabit;
  showAddForm : bool
}.

(** The form as [useState] starts it and as a reset leaves it;
    [habitColors[0]] is the red. *)
Definition initialNewHabit : NewHabit :=
  mkNewHabit "" "" daily flexible 30 "#ef4444".

(** [s || undefined] *)
Definition orUndefined (s : string) : option string :=
  if String.eqb s EmptyString then None else Some s.

(** [handleCreateHabit]: the form and the database after the submit. *)
Definition handleCreateHabit (clk : Clock) (p : HabitsPage) (form : HabitForm) (db : DB)
  : HabitForm * DB :=
  let nh := newHabit form in
  match hp_convexUserId p with
  | None => (form, db)
  | Some convexUserId =>
      if String.eqb (trim (nh_name nh)) EmptyString then (form, db)
      else
        match runMutation
                (createHabit clk
                   (CreateHabitArgs.mk convexUserId
                      (trim (nh_name nh))
                      (orUndefined (trim (nh_description nh)))
                      (nh_frequency nh)
                      None
                      (Some (nh_preferredTime nh))
                      (nh_durationMinutes nh)
                      (Some (nh_color nh))))
                db with
        | (db', Ok _) =>
            (* Reset form *)
            (mkHabitForm initialNewHabit false, db')
        | (_, Throw _) => (form, db)
        end
  end.

(* ================================================================== *)
(** * Users ([convex/users.ts]) *)
(* ================================================================== *)

Module User.
Record t : Type := mk {
  _id : Id;
  clerkId : string;
  email : string;
  name : option string;
  planningTime : option string;
  timezone : option string;
  onboardingComplete : bool;
  createdAt : Z
}.
End User.

(** The users table, with the counter of its identifiers. *)
Record UserDB : Type := mkUserDB {
  users : list User.t;
  nextUserId : Id
}.

(** A handler on the users table. *)
Definition UserMutation (A : Type) : Type := UserDB -> Result (A * UserDB).

(** What the caller sees: a handler that throws commits nothing. *)
Definition runUserMutation {A} (m : UserMutation A) (udb : UserDB)
  : UserDB * Result A :=
  match m udb with
  | Ok (a, udb') => (udb', Ok a)
  | Throw e => (udb, Throw e)
  end.

(** [.withIndex("by_clerk_id", q => q.eq("clerkId", clerkId))] *)
Definition usersOfClerk (clerkId : string) (udb : UserDB) : list User.t :=
  filter (fun u => String.eqb (User.clerkId u) clerkId) (users udb).

(** [.unique()] on that index. *)
Definition unique_by_clerk_id (clerkId : string) (udb : UserDB)
  : Result (option User.t) :=
  match usersOfClerk clerkId udb with
  | [] => Ok None
  | [u] => Ok (Some u)
  | _ => Throw "unique() query returned more than one result"
  end.

Module GetOrCreateUserArgs.
Record t : Type := mk {
  clerkId : string;
  email : string;
  name : option string
}.
End GetOrCreateUserArgs.

Definition getOrCreateUser (clk : Clock) (args : GetOrCreateUserArgs.t)
  : UserMutation Id :=
  fun udb =>
    (* Try to find existing user by Clerk ID *)
    match unique_by_clerk_id (GetOrCreateUserArgs.clerkId args) udb with
    | Throw e => Throw e
    | Ok (Some existingUser) =>
        (* If user exists, return their ID *)
        Ok (User._id existingUser, udb)
    | Ok None =>
        (* Otherwise, create new user *)
        let userId := nextUserId udb in
        Ok (userId,
            mkUserDB (users udb ++
                      [User.mk userId
                         (GetOrCreateUserArgs.clerkId args)
                         (GetOrCreateUserArgs.email args)
                         (GetOrCreateUserArgs.name args)
                         None None
                         false (* onboardingComplete *)
                         (now clk)])
                     (S userId))
    end.

Definition getCurrentUser (clerkId : string) (udb : UserDB) : Result (option User.t) :=
  unique_by_clerk_id clerkId udb.

Definition getUserById (userId : Id) (udb : UserDB) : option User.t :=
  tbl_get User._id userId (users udb).

(** [ctx.db.patch(user._id, fields)] on the users table. *)
Definition patch_user (id : Id) (f : User.t -> User.t) : UserMutation unit :=
  fun udb =>
    match tbl_get User._id id (users udb) with
    | None => Throw "Update on nonexistent document ID"
    | Some _ => Ok (tt, mkUserDB (tbl_patch User._id id f (users udb)) (nextUserId udb))
    end.

Definition withPlanningTime (planningTime : string) (u : User.t) : User.t :=
  User.mk (User._id u) (User.clerkId u) (User.email u) (User.name u)
          (Some planningTime) (User.timezone u) (User.onboardingComplete u)
          (User.createdAt u).

Definition updatePlanningTime (clerkId planningTime : string) : UserMutation Success :=
  fun udb =>
    (* Find the user *)
    match unique_by_clerk_id clerkId udb with
    | Throw e => Throw e
    | Ok None => Throw "User not found"
    | Ok (Some user) =>
        (* Update the user's planning time *)
        match patch_user (User._id user) (withPlanningTime planningTime) udb with
        | Throw e => Throw e
        | Ok (_, udb') => Ok (mkSuccess true, udb')
        end
    end.

Definition onboarded (planningTime timezone : string) (u : User.t) : User.t :=
  User.mk (User._id u) (User.clerkId u) (User.email u) (User.name u)
          (Some planningTime) (Some timezone) true (User.createdAt u).

Definition completeOnboarding (clerkId planningTime timezone : string)
  : UserMutation Success :=
  fun udb =>
    match unique_by_clerk_id clerkId udb with
    | Throw e => Throw e
    | Ok None => Throw "User not found"
    | Ok (Some user) =>
        match patch_user (User._id user) (onboarded planningTime timezone) udb with
        | Throw e => Throw e
        | Ok (_, udb') => Ok (mkSuccess true, udb')
        end
    end.

(** The calls of the users table as a client makes them. *)
Inductive UserCall : Type :=
| CallGetOrCreateUser (clk : Clock) (args : GetOrCreateUserArgs.t)
| CallUpdatePlanningTime (clerkId planningTime : string)
| CallCompleteOnboarding (clerkId planningTime timezone : string).

Definition execUser (c : UserCall) (udb : UserDB) : UserDB :=
  match c with
  | CallGetOrCreateUser clk args => fst (runUserMutation (getOrCreateUser clk args) udb)
  | CallUpdatePlanningTime clerkId planningTime =>
      fst (runUserMutation (updatePlanningTime clerkId planningTime) udb)
  | CallCompleteOnboarding clerkId planningTime timezone =>
      fst (runUserMutation (completeOnboarding clerkId planningTime timezone) udb)
  end.

Definition execUsers (calls : list UserCall) (udb : UserDB) : UserDB :=
  fold_left (fun udb c => execUser c udb) calls udb.

Definition emptyUserDB : UserDB := mkUserDB [] O.

(** One user for a Clerk identifier, one identifier for a user, and the
    identifiers in use below the counter. *)
Definition usersOk (udb : UserDB) : Prop :=
  NoDup (map User.clerkId (users udb)) /\
  NoDup (map User._id (users udb)) /\
  Forall (fun u => (User._id u < nextUserId udb)%nat) (users udb).

(* ================================================================== *)
(** * Every mutation of habits and events, as a client calls it *)
(* ================================================================== *)

Inductive ApiCall : Type :=
| ApiCall_of (c : Call)
| ApiCreateEvent (clk : Clock) (args : CreateEventArgs.t)
| ApiDeleteEvent (eventId : Id)
| ApiDeleteEventsByDate (userId : Id) (date : string)
| ApiMarkEventComplete (eventId : Id) (completed : bool).

(** The database that one call commits. *)
Definition execApi (c : ApiCall) (db : DB) : DB :=
  match c with
  | ApiCall_of c => exec c db
  | ApiCreateEvent clk args => fst (runMutation (createEvent clk args) db)
  | ApiDeleteEvent eventId => fst (runMutation (deleteEvent eventId) db)
  | ApiDeleteEventsByDate userId date =>
      fst (runMutation (deleteEventsByDate userId date) db)
  | ApiMarkEventComplete eventId completed =>
      fst (runMutation (markEventComplete eventId completed) db)
  end.

Definition execApiAll (calls : list ApiCall) (db : DB) : DB :=
  fold_left (fun db c => execApi c db) calls db.

(* ================================================================== *)
(** * Orders of the queries *)
(* ================================================================== *)

(** [a] may stand before [b] under the comparator [cmp]. *)
Definition notAfter {A} (cmp : A -> A -> comparison) (a b : A) : Prop :=
  cmp a b <> Gt.

(** The order of [getEventsByDateRange] under a collation: an earlier
    date, or the same date and a start time that is not later. *)
Definition byDateThenStart (collate : string -> string -> comparison)
    (a b : CalendarEvent.t) : Prop :=
  collate (CalendarEvent.date a) (CalendarEvent.date b) = Lt \/
  (CalendarEvent.date a = CalendarEvent.date b /\
   collate (CalendarEvent.startTime a) (CalendarEvent.startTime b) <> Gt).

(** A collation compares two texts the same way in both directions, and
    what it puts not after is transitive. *)
Definition isCollation (collate : string -> string -> comparison) : Prop :=
  (forall x y, collate y x = CompOpp (collate x y)) /\
  (forall x y z, collate x y <> Gt -> collate y z <> Gt -> collate x z <> Gt).

(** The collation tells the dates of the events apart. *)
Definition datesApart (collate : string -> string -> comparison)
    (events : list CalendarEvent.t) : Prop :=
  forall a b, In a events -> In b events ->
              collate (CalendarEvent.date a) (CalendarEvent.date b) = Eq ->
              CalendarEvent.date a = CalendarEvent.date b.

(** The identifiers of the events are below the counter, and no two events
    share one. *)
Definition eventsFresh (db : DB) : Prop :=
  Forall (fun e => (CalendarEvent._id e < nextId db)%nat) (calendarEvents db) /\
  NoDup (map CalendarEvent._id (calendarEvents db)).

(** An event with [completed] set and every other field as it was. *)
Definition withCompleted (c : bool) (e : CalendarEvent.t) : CalendarEvent.t :=
  CalendarEvent.mk (CalendarEvent._id e) (CalendarEvent.userId e)
    (CalendarEvent.title e) (CalendarEvent.description e)
    (CalendarEvent.startTime e) (CalendarEvent.endTime e) (CalendarEvent.date e)
    (CalendarEvent.category e) (CalendarEvent.isRecurring e)
    (CalendarEvent.recurringPattern e) (CalendarEvent.createdBy e)
    (Some c) (CalendarEvent.createdAt e).

(** ** Texts around a fenced block *)

(** Every character of the string passes the test. *)
Fixpoint allChars (p : ascii -> bool) (s : string) : bool :=
  match s with
  | EmptyString => true
  | String c s' => p c && allChars p s'
  end.

Definition notBacktick (c : ascii) : bool := negb (Ascii.eqb c "`").

(** A byte that continues a character of several bytes in UTF-8. *)
Definition isContinuation (c : ascii) : bool :=
  N.leb 128 (byte c) && N.leb (byte c) 191.

(** The text does not begin in the middle of a character. *)
Definition startsCharacter (s : string) : bool :=
  match s with
  | EmptyString => true
  | String c _ => negb (isContinuation c)
  end.

(** A reply that holds [block] between [```json] and the closing fence,
    with the text [before], the white space [ws1] and [ws2] around the
    block, and the text [after]. *)
Definition fencedReply (before ws1 block ws2 after : string) : string :=
  before +++ (fence +++ "json") +++ ws1 +++ block +++ ws2 +++ fence +++ after.

(** ** What a confirm stores *)

(** An event as [handleConfirmSchedule] has it stored for the user on the
    planning day. *)
Definition storedByConfirm (clk : Clock) (day : PlanDay) (userId : Id)
    (e : CalendarEvent.t) : Prop :=
  CalendarEvent.userId e = userId /\
  CalendarEvent.date e = tomorrowDate day /\
  String.prefix (tomorrowDate day +++ "T") (CalendarEvent.startTime e) = true /\
  String.prefix (tomorrowDate day +++ "T") (CalendarEvent.endTime e) = true /\
  CalendarEvent.isRecurring e = false /\
  CalendarEvent.recurringPattern e = None /\
  CalendarEvent.createdBy e = CreatedBy.ai /\
  CalendarEvent.completed e = Some false /\
  CalendarEvent.createdAt e = now clk.

(* ================================================================== *)
(** * More data for the scenarios *)
(* ================================================================== *)

(** The arguments that switch the habit of [gymCalls] off. *)
Definition switchOffGym : UpdateHabitArgs.t :=
  UpdateHabitArgs.mk 0 None None None None None None None (Some false).

(** Rounding half up in exact arithmetic, to run [getHabitStats] with. *)
Definition roundHalfUp (completedCount totalCount : Z) : Z :=
  (200 * completedCount + totalCount) / (2 * totalCount).

Definition gymPage : HabitsPage := mkHabitsPage (Some 7%nat) "2024-01-03".

(** Four events of user 7 in a week of June 2024, and one of user 8. *)
Definition weekEvent (id userId : Id) (title startTime endTime date : string)
  : CalendarEvent.t :=
  CalendarEvent.mk id userId title None startTime endTime date Category.other
                   false None CreatedBy.user (Some false) 1717200000000.

Definition weekDB : DB :=
  mkDB [] []
       [weekEvent 0 7 "Review" "2024-06-04T15:00:00" "2024-06-04T16:00:00" "2024-06-04";
        weekEvent 1 7 "Lunch" "2024-06-03T12:00:00" "2024-06-03T12:30:00" "2024-06-03";
        weekEvent 2 8 "Swim" "2024-06-03T07:00:00" "2024-06-03T08:00:00" "2024-06-03";
        weekEvent 3 7 "Run" "2024-06-03T06:00:00" "2024-06-03T06:45:00" "2024-06-03";
        weekEvent 4 7 "Call" "2024-06-03T12:00:00" "2024-06-03T12:15:00" "2024-06-03"]
       5.

Definition dinnerArgs : CreateEventArgs.t :=
  CreateEventArgs.mk 7 "Dinner" None "2024-06-03T19:00:00" "2024-06-03T20:00:00"
                     "2024-06-03" Category.meal false None CreatedBy.user.

(** A reply with two fenced blocks; the first holds one event. *)
Definition oneEventBlock : string :=
  "{ " +++ quoted "events" +++ ": ["
  +++ eventText "Meditate" "07:00" "07:30" "habit" +++ "] }".

(** The no-break space, U+00A0. *)
Definition nbsp : string := String (ascii_of_nat 194) (String (ascii_of_nat 160) EmptyString).

Definition twoBlockReply : string :=
  fencedReply "Here it is:" (newline +++ nbsp) oneEventBlock (nbsp +++ newline +++ " ")
              (" or " +++ fence +++ "json" +++ scheduleBlock +++ fence).

(** A proposed event with a title and nothing else. *)
Definition nap : JSON := JObj [("title", JStr "Nap")].

(** A proposed event whose end is an object with a member of its own
    named [toString]. *)
Definition napWithoutEnd : JSON :=
  JObj [("title", JStr "Nap"); ("startTime", JStr "13:00");
        ("endTime", JObj [("toString", JNum "1")])].

(** Logs of a habit that is not in the table. *)
Definition orphanDB : DB := mkDB [] aheadLogs [] 4.


Definition checkToday : LogHabitCompletionArgs.t :=
  LogHabitCompletionArgs.mk 0 7 "2024-01-03" true None.

Definition readForm : HabitForm :=
  mkHabitForm (mkNewHabit "  Read  " "   " weekdays evening 20 "#3b82f6") true.

Definition blankForm : HabitForm :=
  mkHabitForm (mkNewHabit (" " +++ nbsp +++ " ") "never stored" daily flexible 30
                          "#ef4444") true.

Definition signIn : GetOrCreateUserArgs.t :=
  GetOrCreateUserArgs.mk "clerk_1" "ada@example.org" (Some "Ada").

(** The same Clerk user, seen later with another address and no name. *)
Definition signInAgain : GetOrCreateUserArgs.t :=
  GetOrCreateUserArgs.mk "clerk_1" "lovelace@example.org" None.

Definition laterClock : Clock := mkClock 1704330000000 (mkDate 2024 1 4).

(* ================================================================== *)
(** * Scenarios of the embedding *)
(* ================================================================== *)

Example toISODate_sample : toISODate (mkDate 2024 1 3) = "2024-01-03".
Proof. reflexivity. Qed.

Example toISODate_before_common_era : toISODate (prevDay (mkDate 0 1 1)) = "-000001-12-31".
Proof. reflexivity. Qed.

Example prevDay_leap : prevDay (mkDate 2024 3 1) = mkDate 2024 2 29.
Proof. reflexivity. Qed.

Example streak_three_days :
  computeStreak [gymLog 1 "2024-01-01" true; gymLog 2 "2024-01-02" true;
                 gymLog 3 "2024-01-03" true] (mkDate 2024 1 3) = 3.
Proof. reflexivity. Qed.

Example streak_broken_yesterday :
  computeStreak [gymLog 1 "2024-01-01" true; gymLog 2 "2024-01-02" false;
                 gymLog 3 "2024-01-03" true] (mkDate 2024 1 3) = 1.
Proof. reflexivity. Qed.

Example streak_no_log_today :
  computeStreak [gymLog 1 "2024-01-01" true; gymLog 2 "2024-01-02" true;
                 gymLog 3 "2024-01-03" true] (mkDate 2024 1 4) = 0.
Proof. reflexivity. Qed.

Example jsonMatch_sample :
  jsonMatch ("Here is your plan:" +++ newline +++ "```json" +++ newline
             +++ "{ }" +++ newline +++ "```" +++ newline +++ "Enjoy")
  = Some "{ }".
Proof. reflexivity. Qed.

Example jsonMatch_unclosed : jsonMatch "```json {" = None.
Proof. reflexivity. Qed.

Example trim_sample : trim "  go to gym  " = "go to gym".
Proof. reflexivity. Qed.

(* ================================================================== *)
(** * Lemmas on tables and on the transaction monad *)
(* ================================================================== *)

Section TableFacts.
Variable Doc : Type.
Variable doc_id : Doc -> Id.

Lemma tbl_get_some (id : Id) (tbl : list Doc) (d : Doc) :
  tbl_get doc_id id tbl = Some d -> In d tbl /\ doc_id d = id.
Proof.
  unfold tbl_get. intros H. apply find_some in H. destruct H as [Hin Heq].
  apply Nat.eqb_eq in Heq. auto.
Qed.

Lemma tbl_get_none (id : Id) (tbl : list Doc) :
  tbl_get doc_id id tbl = None -> forall d, In d tbl -> doc_id d <> id.
Proof.
  unfold tbl_get. intros H d Hin Heq.
  pose proof (find_none _ _ H d Hin) as Hn. simpl in Hn.
  apply Nat.eqb_neq in Hn. contradiction.
Qed.

Lemma tbl_get_in (id : Id) (tbl : list Doc) (d : Doc) :
  In d tbl -> doc_id d = id -> exists d', tbl_get doc_id id tbl = Some d'.
Proof.
  intros Hin Heq. destruct (tbl_get doc_id id tbl) eqn:E; eauto.
  exfalso. exact (@tbl_get_none id tbl E d Hin Heq).
Qed.

Lemma tbl_patch_length (id : Id) (f : Doc -> Doc) (tbl : list Doc) :
  List.length (tbl_patch doc_id id f tbl) = List.length tbl.
Proof. unfold tbl_patch. apply length_map. Qed.

Lemma tbl_patch_Forall2 (id : Id) (f : Doc -> Doc) (tbl : list Doc) :
  Forall2 (fun d d' => d' = if Nat.eqb (doc_id d) id then f d else d)
          tbl (tbl_patch doc_id id f tbl).
Proof. induction tbl; simpl; constructor; auto. Qed.

Lemma tbl_get_patch (id id' : Id) (f : Doc -> Doc) (tbl : list Doc) :
  (forall d, doc_id (f d) = doc_id d) ->
  tbl_get doc_id id' (tbl_patch doc_id id f tbl) =
  option_map (fun d => if Nat.eqb (doc_id d) id then f d else d)
             (tbl_get doc_id id' tbl).
Proof.
  intros Hid. induction tbl as [|d tbl IH]; simpl; [reflexivity|].
  destruct (Nat.eqb (doc_id d) id) eqn:E.
  - rewrite Hid. destruct (Nat.eqb (doc_id d) id') eqn:E'; simpl.
    + rewrite E. reflexivity.
    + exact IH.
  - destruct (Nat.eqb (doc_id d) id') eqn:E'; simpl.
    + rewrite E. reflexivity.
    + exact IH.
Qed.

Lemma tbl_get_delete_same (id : Id) (tbl : list Doc) :
  tbl_get doc_id id (tbl_delete doc_id id tbl) = None.
Proof.
  induction tbl as [|d tbl IH]; simpl; [reflexivity|].
  destruct (Nat.eqb (doc_id d) id) eqn:E; simpl; [exact IH|].
  rewrite E. exact IH.
Qed.

Lemma tbl_get_delete_other (id id' : Id) (tbl : list Doc) :
  id' <> id ->
  tbl_get doc_id id' (tbl_delete doc_id id tbl) = tbl_get doc_id id' tbl.
Proof.
  intros Hne. induction tbl as [|d tbl IH]; simpl; [reflexivity|].
  destruct (Nat.eqb (doc_id d) id) eqn:E; simpl.
  - apply Nat.eqb_eq in E.
    destruct (Nat.eqb (doc_id d) id') eqn:E'; [|exact IH].
    apply Nat.eqb_eq in E'. congruence.
  - destruct (Nat.eqb (doc_id d) id'); [reflexivity|exact IH].
Qed.

Lemma tbl_get_app_fresh (id : Id) (tbl : list Doc) (d : Doc) :
  tbl_get doc_id id (tbl ++ [d]) =
  match tbl_get doc_id id tbl with
  | Some d' => Some d'
  | None => if Nat.eqb (doc_id d) id then Some d else None
  end.
Proof.
  induction tbl as [|x tbl IH]; simpl; [reflexivity|].
  destruct (Nat.eqb (doc_id x) id); [reflexivity|exact IH].
Qed.
End TableFacts.

(** A handler that throws leaves the committed database as it was. *)
Lemma runMutation_throw_unchanged {A} (m : Mutation A) (db : DB) (e : string) :
  snd (runMutation m db) = Throw e -> fst (runMutation m db) = db.
Proof.
  unfold runMutation. destruct (m db) as [[a db']|msg]; simpl; [discriminate|reflexivity].
Qed.

Lemma runMutation_ok {A} (m : Mutation A) (db db' : DB) (a : A) :
  m db = Ok (a, db') -> runMutation m db = (db', Ok a).
Proof. unfold runMutation. intros ->. reflexivity. Qed.

Lemma Forall2_diag_In {A} (R : A -> A -> Prop) (l : list A) :
  (forall x, In x l -> R x x) -> Forall2 R l l.
Proof.
  induction l as [|x l IH]; intros H; constructor.
  - apply H. left. reflexivity.
  - apply IH. intros y Hy. apply H. right. exact Hy.
Qed.

Lemma Forall2_impl {A B} (R S : A -> B -> Prop) (l : list A) (l' : list B) :
  (forall x y, R x y -> S x y) -> Forall2 R l l' -> Forall2 S l l'.
Proof. intros H F. induction F; constructor; auto. Qed.

Lemma habit_patch_cleanUpdates (args : UpdateHabitArgs.t) (h : Habit.t) :
  habitUpdated args h (Habit.patch (UpdateHabitArgs.cleanUpdates args) h).
Proof.
  destruct args as [hid n d f c p dm col act]; unfold habitUpdated; simpl.
  destruct n, d, f, c, p, dm, col, act; simpl; repeat split; reflexivity.
Qed.

Lemma event_patch_cleanUpdates (args : UpdateEventArgs.t) (e : CalendarEvent.t) :
  eventUpdated args e (CalendarEvent.patch (UpdateEventArgs.cleanUpdates args) e).
Proof.
  destruct args as [eid t d s en c co]; unfold eventUpdated; simpl.
  destruct t, d, s, en, c, co; simpl; repeat split; reflexivity.
Qed.

(* ================================================================== *)
(** * C10: what [updateHabit] and [updateEvent] leave alone *)
(* ================================================================== *)

(** C10.  [updateHabit] and [updateEvent] change nothing but the one
    document they name, and on it every field whose optional argument was
    omitted keeps its value, while a given argument replaces it.  The
    fields that are not arguments at all are never changed: [currentStreak],
    [bestStreak], [userId] and [createdAt] of a habit, and [date], [userId],
    [createdBy] and [createdAt] of an event.  A call that throws commits
    nothing. *)
Theorem updateHabit_updateEvent_frame :
  forall db : DB,
    (forall args : UpdateHabitArgs.t,
        let db' := fst (runMutation (updateHabit args) db) in
        habitLogs db' = habitLogs db /\
        calendarEvents db' = calendarEvents db /\
        Forall2 (fun h h' =>
                   if Nat.eqb (Habit._id h) (UpdateHabitArgs.habitId args)
                   then habitUpdated args h h'
                   else h' = h)
                (habits db) (habits db')) /\
    (forall args : UpdateEventArgs.t,
        let db' := fst (runMutation (updateEvent args) db) in
        habits db' = habits db /\
        habitLogs db' = habitLogs db /\
        Forall2 (fun e e' =>
                   if Nat.eqb (CalendarEvent._id e) (UpdateEventArgs.eventId args)
                   then eventUpdated args e e'
                   else e' = e)
                (calendarEvents db) (calendarEvents db')).
Proof.
  intros db. split; intros args db'; subst db'.
  - unfold runMutation, updateHabit, bind, patch_habit, ret.
    destruct (tbl_get Habit._id (UpdateHabitArgs.habitId args) (habits db)) eqn:E; simpl.
    + repeat split.
      eapply Forall2_impl; [|apply tbl_patch_Forall2].
      intros h h' ->. simpl.
      destruct (Nat.eqb (Habit._id h) (UpdateHabitArgs.habitId args)); [|reflexivity].
      apply habit_patch_cleanUpdates.
    + repeat split. apply Forall2_diag_In. intros h Hin.
      destruct (Nat.eqb (Habit._id h) (UpdateHabitArgs.habitId args)) eqn:E'; [|reflexivity].
      apply Nat.eqb_eq in E'. exfalso. eapply tbl_get_none; eauto.
  - unfold runMutation, updateEvent, bind, patch_calendarEvent, ret.
    destruct (tbl_get CalendarEvent._id (UpdateEventArgs.eventId args) (calendarEvents db))
      eqn:E; simpl.
    + repeat split.
      eapply Forall2_impl; [|apply tbl_patch_Forall2].
      intros e e' ->. simpl.
      destruct (Nat.eqb (CalendarEvent._id e) (UpdateEventArgs.eventId args)); [|reflexivity].
      apply event_patch_cleanUpdates.
    + repeat split. apply Forall2_diag_In. intros e Hin.
      destruct (Nat.eqb (CalendarEvent._id e) (UpdateEventArgs.eventId args)) eqn:E';
        [|reflexivity].
      apply Nat.eqb_eq in E'. exfalso. eapply tbl_get_none; eauto.
Qed.

(* ================================================================== *)
(** * C9: the recompute on a habit that does not exist *)
(* ================================================================== *)

Lemma upsertLog_habits (clk : Clock) (args : LogHabitCompletionArgs.t)
      (db db1 : DB) (u : unit) :
  upsertLog clk args db = Ok (u, db1) ->
  habits db1 = habits db /\ calendarEvents db1 = calendarEvents db.
Proof.
  unfold upsertLog, bind, unique_by_habit_and_date.
  destruct (logsOfHabitOn _ _ db) as [|l [|l' ls]]; simpl; try discriminate.
  - unfold insert_habitLog, ret. intros H. inversion H; subst. simpl. auto.
  - unfold patch_habitLog.
    destruct (tbl_get HabitLog._id (HabitLog._id l) (habitLogs db)); [|discriminate].
    intros H. inversion H; subst. simpl. auto.
Qed.

(** The recompute always returns, and it writes to the habit alone. *)
Lemma updateStreak_returns (clk : Clock) (habitId : Id) (db : DB) :
  exists db', updateStreak clk habitId db = Ok (tt, db') /\
              habitLogs db' = habitLogs db /\
              calendarEvents db' = calendarEvents db /\
              nextId db' = nextId db.
Proof.
  unfold updateStreak, bind, get_habit.
  destruct (tbl_get Habit._id habitId (habits db)) as [h|] eqn:E.
  - unfold collect_by_habit, patch_habit. rewrite E.
    eexists. split; [reflexivity|]. simpl. auto.
  - exists db. unfold ret. auto.
Qed.

(** C9.  When the habit does not exist, [updateStreak] returns without an
    error and leaves the database as it found it; and [logHabitCompletion]
    then commits exactly what its log write produced.  For any habit at
    all, once the log write returned the mutation returns too and commits
    the habit logs as the write left them: the recompute never undoes the
    write. *)
Theorem updateStreak_missing_habit_noop :
  forall (clk : Clock) (habitId : Id) (db : DB),
    tbl_get Habit._id habitId (habits db) = None ->
    updateStreak clk habitId db = Ok (tt, db) /\
    (forall args : LogHabitCompletionArgs.t,
        LogHabitCompletionArgs.habitId args = habitId ->
        runMutation (logHabitCompletion clk args) db =
        match upsertLog clk args db with
        | Ok (_, db1) => (db1, Ok (mkSuccess true))
        | Throw e => (db, Throw e)
        end) /\
    (forall (args : LogHabitCompletionArgs.t) (db0 db1 : DB) (u : unit),
        upsertLog clk args db0 = Ok (u, db1) ->
        exists db', runMutation (logHabitCompletion clk args) db0
                    = (db', Ok (mkSuccess true)) /\
                    habitLogs db' = habitLogs db1).
Proof.
  intros clk habitId db Hnone.
  assert (Hnoop : forall d, habits d = habits db -> updateStreak clk habitId d = Ok (tt, d)).
  { intros d Hd. unfold updateStreak, bind, get_habit. rewrite Hd, Hnone. reflexivity. }
  split; [apply Hnoop; reflexivity|]. split.
  - intros args Hid. unfold runMutation, logHabitCompletion, bind.
    destruct (upsertLog clk args db) as [[u db1]|e] eqn:E; [|reflexivity].
    apply upsertLog_habits in E. destruct E as [Hh _].
    rewrite Hid, (Hnoop db1 Hh). reflexivity.
  - intros args db0 db1 u E.
    destruct (updateStreak_returns clk (LogHabitCompletionArgs.habitId args) db1)
      as [db' [Hs [Hl _]]].
    exists db'. split; [|exact Hl].
    unfold runMutation, logHabitCompletion, bind. rewrite E, Hs. reflexivity.
Qed.

(** The claim at the empty database and a habit identifier that names no
    habit: the log is written and stays. *)
Lemma updateStreak_missing_habit_noop_witness :
  tbl_get Habit._id 5 (habits emptyDB) = None /\
  updateStreak sampleClock 5 emptyDB = Ok (tt, emptyDB) /\
  runMutation (logHabitCompletion sampleClock
                 (LogHabitCompletionArgs.mk 5 7 "2024-01-03" true None)) emptyDB
  = (mkDB [] [HabitLog.mk 0 5 7 "2024-01-03" true None 1704240000000] [] 1,
     Ok (mkSuccess true)) /\
  exists db',
    runMutation (logHabitCompletion sampleClock
                   (LogHabitCompletionArgs.mk 5 7 "2024-01-03" true None)) emptyDB
    = (db', Ok (mkSuccess true)) /\
    habitLogs db' = [HabitLog.mk 0 5 7 "2024-01-03" true None 1704240000000].
Proof.
  destruct (@updateStreak_missing_habit_noop sampleClock 5%nat emptyDB eq_refl)
    as [H1 [H2 H3]].
  split; [reflexivity|]. split; [exact H1|]. split.
  - exact (H2 (LogHabitCompletionArgs.mk 5 7 "2024-01-03" true None) eq_refl).
  - exact (H3 (LogHabitCompletionArgs.mk 5 7 "2024-01-03" true None) emptyDB
              (mkDB [] [HabitLog.mk 0 5 7 "2024-01-03" true None 1704240000000] [] 1)
              tt eq_refl).
Defined.

(* ================================================================== *)
(** * How one call moves the tables *)
(* ================================================================== *)

Section TableSteps.
Variable Doc : Type.
Variable doc_id : Doc -> Id.

Lemma map_id_tbl_patch (id : Id) (f : Doc -> Doc) (tbl : list Doc) :
  (forall d, doc_id (f d) = doc_id d) ->
  map doc_id (tbl_patch doc_id id f tbl) = map doc_id tbl.
Proof.
  intros Hid. induction tbl as [|d tbl IH]; simpl; [reflexivity|].
  rewrite IH. destruct (Nat.eqb (doc_id d) id); [rewrite Hid|]; reflexivity.
Qed.

Lemma NoDup_map_filter (p : Doc -> bool) (tbl : list Doc) :
  NoDup (map doc_id tbl) -> NoDup (map doc_id (filter p tbl)).
Proof.
  induction tbl as [|d tbl IH]; simpl; intros H; [constructor|].
  inversion H as [|x xs Hnin Hnd]; subst.
  destruct (p d); simpl; [|auto].
  constructor; [|auto].
  intros Hin. apply Hnin. apply in_map_iff in Hin. destruct Hin as [y [Hy Hin]].
  apply filter_In in Hin. destruct Hin as [Hin _].
  apply in_map_iff. exists y. auto.
Qed.

Lemma Forall_filter (P : Doc -> Prop) (p : Doc -> bool) (tbl : list Doc) :
  Forall P tbl -> Forall P (filter p tbl).
Proof.
  intros H. apply Forall_forall. intros x Hin. apply filter_In in Hin.
  destruct Hin as [Hin _]. rewrite Forall_forall in H. auto.
Qed.

Lemma NoDup_map_app_fresh (n : Id) (tbl : list Doc) (x : Doc) :
  Forall (fun d => (doc_id d < n)%nat) tbl ->
  NoDup (map doc_id tbl) ->
  doc_id x = n ->
  NoDup (map doc_id (tbl ++ [x])).
Proof.
  intros Hlt Hnd Hx. rewrite map_app. simpl.
  apply NoDup_app_remove_l with (l := []). simpl.
  apply Permutation_NoDup with (l := doc_id x :: map doc_id tbl).
  - apply Permutation_cons_append.
  - constructor; [|exact Hnd].
    intros Hin. apply in_map_iff in Hin. destruct Hin as [y [Hy Hin]].
    rewrite Forall_forall in Hlt. specialize (Hlt y Hin). lia.
Qed.

Lemma Forall_lt_weaken (n m : Id) (tbl : list Doc) :
  (n <= m)%nat ->
  Forall (fun d => (doc_id d < n)%nat) tbl ->
  Forall (fun d => (doc_id d < m)%nat) tbl.
Proof.
  intros Hle H. eapply Forall_impl; [|exact H]. simpl. intros; lia.
Qed.

Lemma Forall_lt_tbl_patch (n id : Id) (f : Doc -> Doc) (tbl : list Doc) :
  (forall d, doc_id (f d) = doc_id d) ->
  Forall (fun d => (doc_id d < n)%nat) tbl ->
  Forall (fun d => (doc_id d < n)%nat) (tbl_patch doc_id id f tbl).
Proof.
  intros Hid H. unfold tbl_patch. apply Forall_map.
  eapply Forall_impl; [|exact H]. simpl. intros d Hd.
  destruct (Nat.eqb (doc_id d) id); [rewrite Hid|]; exact Hd.
Qed.

Lemma tbl_get_unique (id : Id) (tbl : list Doc) (d : Doc) :
  NoDup (map doc_id tbl) -> In d tbl -> doc_id d = id ->
  tbl_get doc_id id tbl = Some d.
Proof.
  induction tbl as [|x tbl IH]; simpl; intros Hnd Hin Hid; [contradiction|].
  inversion Hnd as [|y ys Hnin Hnd']; subst.
  destruct Hin as [->|Hin].
  - rewrite Nat.eqb_refl. reflexivity.
  - destruct (Nat.eqb (doc_id x) (doc_id d)) eqn:E.
    + apply Nat.eqb_eq in E. exfalso. apply Hnin. rewrite E.
      apply in_map. exact Hin.
    + apply IH; auto.
Qed.
End TableSteps.

(** The walk only counts up. *)
Lemma walk_ge (logs : list HabitLog.t) (d : Date) (acc : Z) :
  acc <= walk logs d acc.
Proof.
  revert d acc. induction logs as [|l logs IH]; intros d acc; simpl; [lia|].
  destruct (branchOf l (toISODate d)); try lia.
  specialize (IH (prevDay d) (acc + 1)). lia.
Qed.

Lemma computeStreak_nonneg (logs : list HabitLog.t) (d : Date) :
  0 <= computeStreak logs d.
Proof. unfold computeStreak. apply walk_ge. Qed.

Lemma filter_twice {A} (p q : A -> bool) (l : list A) :
  filter p (filter q l) = filter (fun x => q x && p x) l.
Proof.
  induction l as [|x l IH]; simpl; [reflexivity|].
  destruct (q x); simpl; [destruct (p x); simpl; rewrite IH; reflexivity|exact IH].
Qed.

Lemma filter_all {A} (l : list A) : filter (fun _ => true) l = l.
Proof. induction l as [|x l IH]; simpl; [reflexivity|rewrite IH; reflexivity]. Qed.

(** Deleting a list of logs one after the other. *)
Lemma delete_logs_effect (ls : list HabitLog.t) (db db1 : DB) (us : list unit) :
  forEachM (fun log => delete_habitLog (HabitLog._id log)) ls db = Ok (us, db1) ->
  habits db1 = habits db /\
  calendarEvents db1 = calendarEvents db /\
  nextId db1 = nextId db /\
  habitLogs db1 =
  filter (fun d => negb (existsb (fun l => Nat.eqb (HabitLog._id d) (HabitLog._id l)) ls))
         (habitLogs db).
Proof.
  revert db us. induction ls as [|l ls IH]; intros db us; simpl.
  - unfold ret. intros H. inversion H; subst. repeat split.
    symmetry. apply filter_all.
  - unfold bind at 1. unfold delete_habitLog at 1.
    destruct (tbl_get HabitLog._id (HabitLog._id l) (habitLogs db)); [|discriminate].
    unfold bind at 1.
    match goal with |- context [forEachM ?f ls ?d] =>
      destruct (forEachM f ls d) as [[us' db2]|e] eqn:E; [|discriminate] end.
    unfold ret. intros H. inversion H; subst.
    apply IH in E. simpl in E. destruct E as [Hh [Hc [Hn Hl]]].
    repeat split; auto.
    rewrite Hl. unfold tbl_delete. rewrite filter_twice.
    apply filter_ext. intros x. rewrite negb_orb. reflexivity.
Qed.

Lemma insertedEvents_length clk userId n events :
  List.length (insertedEvents clk userId n events) = List.length events.
Proof.
  revert n. induction events as [|e es IH]; intros n; simpl; [reflexivity|].
  rewrite IH. reflexivity.
Qed.

(** The handler of [createManyEvents] always returns: it appends one
    document per event, in order. *)
Lemma createManyEvents_handler_effect clk userId (events : list NewEvent.t) (db : DB) :
  createManyEvents_handler clk userId events db =
  Ok (seq (nextId db) (List.length events),
      mkDB (habits db) (habitLogs db)
           (calendarEvents db ++ insertedEvents clk userId (nextId db) events)
           (nextId db + List.length events)).
Proof.
  unfold createManyEvents_handler.
  assert (H : forall evs d,
    forEachM (fun event =>
      insert_calendarEvent (fun id =>
        CalendarEvent.mk id userId (NewEvent.title event) (NewEvent.description event)
          (NewEvent.startTime event) (NewEvent.endTime event) (NewEvent.date event)
          (NewEvent.category event) (NewEvent.isRecurring event) None
          (NewEvent.createdBy event) (Some false) (now clk))) evs d =
    Ok (seq (nextId d) (List.length evs),
        mkDB (habits d) (habitLogs d)
             (calendarEvents d ++ insertedEvents clk userId (nextId d) evs)
             (nextId d + List.length evs))).
  { induction evs as [|e es IH]; intros d; simpl.
    - unfold ret. rewrite app_nil_r, Nat.add_0_r. destruct d; reflexivity.
    - unfold bind at 1. unfold insert_calendarEvent at 1.
      unfold bind at 1. rewrite IH. simpl. unfold ret.
      rewrite <- app_assoc. simpl. rewrite Nat.add_succ_r. reflexivity. }
  unfold bind. rewrite H. reflexivity.
Qed.

Lemma exec_steps (c : Call) (db : DB) :
  habitsStep db (exec c db) /\
  logsStep db (exec c db) /\
  (nextId db <= nextId (exec c db))%nat.
Proof.
  destruct c as [clk args|args|habitId|clk args|clk userId events|args]; simpl.
  - (* createHabit *)
    unfold runMutation, createHabit, bind, insert_habit, ret. simpl.
    split; [|split; [apply ls_same; reflexivity|lia]].
    eapply hs_insert; simpl; try reflexivity. lia.
  - (* updateHabit *)
    unfold runMutation, updateHabit, bind, patch_habit, ret.
    destruct (tbl_get Habit._id (UpdateHabitArgs.habitId args) (habits db)); simpl.
    + split; [eapply hs_update; reflexivity|]. split; [apply ls_same; reflexivity|lia].
    + split; [apply hs_same; reflexivity|]. split; [apply ls_same; reflexivity|lia].
  - (* deleteHabit *)
    unfold runMutation, deleteHabit, bind, collect_by_habit.
    destruct (forEachM _ (logsOfHabit habitId db) db) as [[us db1]|e] eqn:E.
    + apply delete_logs_effect in E. destruct E as [Hh [Hc [Hn Hl]]].
      unfold delete_habit.
      destruct (tbl_get Habit._id habitId (habits db1)); simpl.
      * split; [eapply hs_delete; simpl; rewrite Hh; reflexivity|].
        split; [eapply ls_filter; simpl; exact Hl|lia].
      * split; [apply hs_same; reflexivity|]. split; [apply ls_same; reflexivity|lia].
    + simpl. split; [apply hs_same; reflexivity|].
      split; [apply ls_same; reflexivity|lia].
  - (* logHabitCompletion *)
    unfold runMutation, logHabitCompletion, bind.
    destruct (upsertLog clk args db) as [[u db1]|e] eqn:E; simpl.
    2:{ split; [apply hs_same; reflexivity|]. split; [apply ls_same; reflexivity|lia]. }
    destruct (updateStreak_returns clk (LogHabitCompletionArgs.habitId args) db1)
      as [db' [Hs [Hl [Hc Hn]]]].
    rewrite Hs. unfold ret. simpl.
    assert (Hup : logsStep db db1 /\ habits db1 = habits db /\
                  (nextId db <= nextId db1)%nat).
    { revert E. unfold upsertLog, bind, unique_by_habit_and_date.
      destruct (logsOfHabitOn _ _ db) as [|l [|l' ls]] eqn:Eq; simpl; try discriminate.
      - unfold insert_habitLog, ret. intros H. inversion H; subst. simpl.
        split; [|split; [reflexivity|lia]].
        eapply ls_insert; simpl; try reflexivity; [lia|exact Eq].
      - unfold patch_habitLog.
        destruct (tbl_get HabitLog._id (HabitLog._id l) (habitLogs db)); [|discriminate].
        intros H. inversion H; subst. simpl.
        split; [|split; [reflexivity|lia]].
        eapply ls_patch; reflexivity. }
    destruct Hup as [Hls [Hh1 Hn1]].
    split; [|split; [|lia]].
    + revert Hs. unfold updateStreak, bind, get_habit.
      destruct (tbl_get Habit._id (LogHabitCompletionArgs.habitId args) (habits db1))
        as [h|] eqn:G.
      * unfold collect_by_habit, patch_habit. rewrite G. intros H. inversion H; subst.
        eapply hs_streak with (h := h);
          [rewrite <- Hh1; exact G | apply computeStreak_nonneg | simpl; rewrite Hh1 ].
        reflexivity.
      * unfold ret. intros H. inversion H; subst. apply hs_same. exact Hh1.
    + destruct Hls as [H|l H1 H2 H3 H4|id p H|keep H].
      * apply ls_same. congruence.
      * eapply ls_insert; eauto; [congruence|lia].
      * eapply ls_patch. rewrite Hl. exact H.
      * eapply ls_filter. rewrite Hl. exact H.
  - (* createManyEvents *)
    unfold runMutation, createManyEvents.
    destruct (v_events events) as [evs|]; simpl.
    + rewrite createManyEvents_handler_effect. simpl.
      split; [apply hs_same; reflexivity|]. split; [apply ls_same; reflexivity|lia].
    + unfold throw. simpl.
      split; [apply hs_same; reflexivity|]. split; [apply ls_same; reflexivity|lia].
  - (* updateEvent *)
    unfold runMutation, updateEvent, bind, patch_calendarEvent, ret.
    destruct (tbl_get CalendarEvent._id _ (calendarEvents db)); simpl;
      (split; [apply hs_same; reflexivity|]; split; [apply ls_same; reflexivity|lia]).
Qed.

(* ================================================================== *)
(** * Invariants of the store *)
(* ================================================================== *)

Lemma habit_patch_id (p : Habit.Patch) (h : Habit.t) :
  Habit._id (Habit.patch p h) = Habit._id h.
Proof. reflexivity. Qed.

Lemma habitLog_patch_id (p : HabitLog.Patch) (l : HabitLog.t) :
  HabitLog._id (HabitLog.patch p l) = HabitLog._id l.
Proof. reflexivity. Qed.

Lemma idsFresh_empty : idsFresh emptyDB.
Proof. unfold idsFresh, emptyDB; simpl. repeat split; constructor. Qed.

Lemma exec_idsFresh (c : Call) (db : DB) : idsFresh db -> idsFresh (exec c db).
Proof.
  intros [Hh [Hl [Hnh Hnl]]].
  destruct (exec_steps c db) as [Hhs [Hls Hn]].
  unfold idsFresh. repeat split.
  - destruct Hhs as [H|h H H1 H2 _ _|args H|habitId H|habitId h c' _ _ H]; rewrite H.
    + eapply Forall_lt_weaken; eauto.
    + apply Forall_app. split; [eapply Forall_lt_weaken; eauto|].
      constructor; [lia|constructor].
    + apply Forall_lt_tbl_patch; [apply habit_patch_id|].
      eapply Forall_lt_weaken; eauto.
    + apply Forall_filter. eapply Forall_lt_weaken; eauto.
    + apply Forall_lt_tbl_patch; [apply habit_patch_id|].
      eapply Forall_lt_weaken; eauto.
  - destruct Hls as [H|l H H1 H2 _|id p H|keep H]; rewrite H.
    + eapply Forall_lt_weaken; eauto.
    + apply Forall_app. split; [eapply Forall_lt_weaken; eauto|].
      constructor; [lia|constructor].
    + apply Forall_lt_tbl_patch; [apply habitLog_patch_id|].
      eapply Forall_lt_weaken; eauto.
    + apply Forall_filter. eapply Forall_lt_weaken; eauto.
  - destruct Hhs as [H|h H H1 H2 _ _|args H|habitId H|habitId h c' _ _ H]; rewrite H.
    + exact Hnh.
    + eapply NoDup_map_app_fresh; eauto.
    + rewrite map_id_tbl_patch by apply habit_patch_id. exact Hnh.
    + apply NoDup_map_filter. exact Hnh.
    + rewrite map_id_tbl_patch by apply habit_patch_id. exact Hnh.
  - destruct Hls as [H|l H H1 H2 _|id p H|keep H]; rewrite H.
    + exact Hnl.
    + eapply NoDup_map_app_fresh; eauto.
    + rewrite map_id_tbl_patch by apply habitLog_patch_id. exact Hnl.
    + apply NoDup_map_filter. exact Hnl.
Qed.

Lemma exec_streaksOk (c : Call) (db : DB) : streaksOk db -> streaksOk (exec c db).
Proof.
  unfold streaksOk. intros Hok.
  destruct (exec_steps c db) as [Hhs _].
  destruct Hhs as [H|h H H1 H2 Hc Hb|args H|habitId H|habitId h c' _ Hc H]; rewrite H.
  - exact Hok.
  - apply Forall_app. split; [exact Hok|]. constructor; [lia|constructor].
  - unfold tbl_patch. apply Forall_map. eapply Forall_impl; [|exact Hok].
    intros x Hx. simpl.
    destruct (Nat.eqb (Habit._id x) (UpdateHabitArgs.habitId args)); [|exact Hx].
    destruct (habit_patch_cleanUpdates args x) as [_ [_ [Hcs [Hbs _]]]].
    rewrite Hcs, Hbs. exact Hx.
  - apply Forall_filter. exact Hok.
  - unfold tbl_patch. apply Forall_map. eapply Forall_impl; [|exact Hok].
    intros x Hx. simpl.
    destruct (Nat.eqb (Habit._id x) habitId); [|exact Hx].
    simpl. lia.
Qed.

(** A habit found after a call was there before with a [bestStreak] that
    is not larger, or it is new. *)
Lemma exec_best_mono (c : Call) (db : DB) (id : Id) (h' : Habit.t) :
  idsFresh db ->
  tbl_get Habit._id id (habits (exec c db)) = Some h' ->
  (exists h, tbl_get Habit._id id (habits db) = Some h /\
             Habit.bestStreak h <= Habit.bestStreak h') \/
  (tbl_get Habit._id id (habits db) = None /\ (nextId db <= id)%nat).
Proof.
  intros [Hh [Hl [Hnh Hnl]]] Hget.
  destruct (exec_steps c db) as [Hhs _].
  destruct Hhs as [H|h H H1 H2 Hc Hb|args H|habitId H|habitId h c' Hg Hc H];
    rewrite H in Hget.
  - left. exists h'. split; [exact Hget|lia].
  - rewrite tbl_get_app_fresh in Hget.
    destruct (tbl_get Habit._id id (habits db)) as [h0|] eqn:G.
    + left. exists h0. inversion Hget; subst. split; [reflexivity|lia].
    + right. split; [reflexivity|].
      destruct (Nat.eqb (Habit._id h) id) eqn:E; [|discriminate].
      apply Nat.eqb_eq in E. lia.
  - rewrite tbl_get_patch in Hget by apply habit_patch_id.
    destruct (tbl_get Habit._id id (habits db)) as [h0|] eqn:G; [|discriminate].
    left. exists h0. split; [reflexivity|]. simpl in Hget. inversion Hget; subst.
    destruct (Nat.eqb (Habit._id h0) (UpdateHabitArgs.habitId args)); [|lia].
    destruct (habit_patch_cleanUpdates args h0) as [_ [_ [_ [Hbs _]]]].
    rewrite Hbs. lia.
  - left. exists h'. split; [|lia].
    destruct (Nat.eq_dec id habitId) as [->|Hne].
    + rewrite tbl_get_delete_same in Hget. discriminate.
    + rewrite tbl_get_delete_other in Hget by exact Hne. exact Hget.
  - rewrite tbl_get_patch in Hget by apply habit_patch_id.
    destruct (tbl_get Habit._id id (habits db)) as [h0|] eqn:G; [|discriminate].
    left. exists h0. split; [reflexivity|]. simpl in Hget. inversion Hget; subst.
    destruct (Nat.eqb (Habit._id h0) habitId) eqn:E; [|lia].
    apply Nat.eqb_eq in E. simpl.
    assert (h = h0).
    { apply tbl_get_some in Hg. destruct Hg as [Hin Hid].
      apply tbl_get_some in G. destruct G as [Hin0 Hid0].
      pose proof (@tbl_get_unique _ Habit._id _ (habits db) _ Hnh Hin Hid) as U1.
      assert (Hid0' : Habit._id h0 = habitId) by exact E.
      pose proof (@tbl_get_unique _ Habit._id _ (habits db) _ Hnh Hin0 Hid0') as U2.
      congruence. }
    subst h0. lia.
Qed.

Lemma execAll_snoc (calls : list Call) (c : Call) (db : DB) :
  execAll (calls ++ [c]) db = exec c (execAll calls db).
Proof. unfold execAll. rewrite fold_left_app. reflexivity. Qed.

Lemma execAll_invariants (calls : list Call) (db : DB) :
  idsFresh db -> streaksOk db ->
  idsFresh (execAll calls db) /\ streaksOk (execAll calls db) /\
  (nextId db <= nextId (execAll calls db))%nat.
Proof.
  intros Hf Hs. induction calls as [|c calls IH] using rev_ind.
  - simpl. auto.
  - rewrite execAll_snoc. destruct IH as [IHf [IHs IHn]].
    split; [apply exec_idsFresh; exact IHf|].
    split; [apply exec_streaksOk; exact IHs|].
    destruct (exec_steps c (execAll calls db)) as [_ [_ Hn]]. lia.
Qed.

Lemma execAll_best_mono (calls : list Call) (db : DB) (id : Id) (h h' : Habit.t) :
  idsFresh db -> streaksOk db ->
  tbl_get Habit._id id (habits db) = Some h ->
  tbl_get Habit._id id (habits (execAll calls db)) = Some h' ->
  Habit.bestStreak h <= Habit.bestStreak h'.
Proof.
  intros Hf Hs Hg. revert h'.
  induction calls as [|c calls IH] using rev_ind; intros h' Hg'.
  - simpl in Hg'. rewrite Hg in Hg'. inversion Hg'; subst. lia.
  - rewrite execAll_snoc in Hg'.
    destruct (execAll_invariants calls Hf Hs) as [Hf' [_ Hn]].
    destruct (@exec_best_mono c _ _ _ Hf' Hg') as [[h0 [G0 Hle]]|[G0 Hge]].
    + specialize (IH h0 G0). lia.
    + exfalso. apply tbl_get_some in Hg. destruct Hg as [Hin Hid].
      destruct Hf as [Hlt _]. rewrite Forall_forall in Hlt.
      specialize (Hlt h Hin). lia.
Qed.

(* ================================================================== *)
(** * C3: [bestStreak] bounds [currentStreak] and never decreases *)
(* ================================================================== *)

(** What the recompute writes on an existing habit. *)
Lemma updateStreak_existing (clk : Clock) (habitId : Id) (db : DB) (h : Habit.t) :
  tbl_get Habit._id habitId (habits db) = Some h ->
  exists db' h',
    updateStreak clk habitId db = Ok (tt, db') /\
    tbl_get Habit._id habitId (habits db') = Some h' /\
    Habit.currentStreak h' = computeStreak (logsOfHabit habitId db) (today clk) /\
    Habit.bestStreak h' = Z.max (Habit.bestStreak h) (Habit.currentStreak h').
Proof.
  intros G. unfold updateStreak, bind, get_habit, collect_by_habit, patch_habit.
  rewrite G. simpl. rewrite G. eexists. eexists. split; [reflexivity|]. simpl.
  rewrite tbl_get_patch by apply habit_patch_id. rewrite G. simpl.
  apply tbl_get_some in G. destruct G as [_ Hid]. rewrite Hid, Nat.eqb_refl.
  split; [reflexivity|]. simpl. auto.
Qed.

(** C3.  After any sequence of calls from the empty database every habit
    has [0 <= currentStreak <= bestStreak]; [createHabit] appends a habit
    with both at zero; a recompute on an existing habit stores the new
    [currentStreak] and the maximum of the old [bestStreak] and it; and the
    [bestStreak] of a habit never decreases, whatever calls follow. *)
Theorem bestStreak_bounds_and_monotone :
  forall calls : list Call,
    let db := execAll calls emptyDB in
    streaksOk db /\
    (forall clk args,
        exists h, habits (exec (CallCreateHabit clk args) db) = habits db ++ [h] /\
                  Habit.currentStreak h = 0 /\ Habit.bestStreak h = 0) /\
    (forall clk habitId h,
        tbl_get Habit._id habitId (habits db) = Some h ->
        exists db' h',
          updateStreak clk habitId db = Ok (tt, db') /\
          tbl_get Habit._id habitId (habits db') = Some h' /\
          Habit.bestStreak h' = Z.max (Habit.bestStreak h) (Habit.currentStreak h') /\
          Habit.currentStreak h' <= Habit.bestStreak h' /\
          Habit.bestStreak h <= Habit.bestStreak h') /\
    (forall (more : list Call) habitId h h',
        tbl_get Habit._id habitId (habits db) = Some h ->
        tbl_get Habit._id habitId (habits (execAll more db)) = Some h' ->
        Habit.bestStreak h <= Habit.bestStreak h').
Proof.
  intros calls db.
  assert (Hok0 : streaksOk emptyDB) by (unfold streaksOk; simpl; constructor).
  destruct (execAll_invariants calls idsFresh_empty Hok0) as [Hf [Hs _]].
  fold db in Hf, Hs.
  split; [exact Hs|]. split; [|split].
  - intros clk args. simpl.
    unfold runMutation, createHabit, bind, insert_habit, ret. simpl.
    eexists. split; [reflexivity|]. simpl. auto.
  - intros clk habitId h G.
    destruct (updateStreak_existing clk _ _ G) as [db' [h' [H1 [H2 [H3 H4]]]]].
    exists db', h'. repeat split; auto; lia.
  - intros more habitId h h' G G'.
    eapply execAll_best_mono; eauto.
Qed.

Lemma bestStreak_bounds_and_monotone_witness :
  tbl_get Habit._id 0 (habits (execAll gymCalls emptyDB)) = Some (gymHabit 1 1) /\
  tbl_get Habit._id 0 (habits (execAll gymUndo (execAll gymCalls emptyDB)))
  = Some (gymHabit 0 1) /\
  Habit.bestStreak (gymHabit 1 1) <= Habit.bestStreak (gymHabit 0 1) /\
  exists db' h',
    updateStreak sampleClock 0 (execAll gymCalls emptyDB) = Ok (tt, db') /\
    tbl_get Habit._id 0 (habits db') = Some h' /\
    Habit.bestStreak h' = Z.max (Habit.bestStreak (gymHabit 1 1)) (Habit.currentStreak h') /\
    Habit.currentStreak h' <= Habit.bestStreak h' /\
    Habit.bestStreak (gymHabit 1 1) <= Habit.bestStreak h'.
Proof.
  destruct (bestStreak_bounds_and_monotone gymCalls) as [_ [_ [H3 H4]]].
  assert (G : tbl_get Habit._id 0 (habits (execAll gymCalls emptyDB))
              = Some (gymHabit 1 1)) by reflexivity.
  assert (G' : tbl_get Habit._id 0 (habits (execAll gymUndo (execAll gymCalls emptyDB)))
               = Some (gymHabit 0 1)) by reflexivity.
  split; [exact G|]. split; [exact G'|]. split.
  - exact (H4 gymUndo 0%nat (gymHabit 1 1) (gymHabit 0 1) G G').
  - exact (H3 sampleClock 0%nat (gymHabit 1 1) G).
Defined.

(* ================================================================== *)
(** * C4: one log per habit and date *)
(* ================================================================== *)

Lemma filter_map_commute {A} (p : A -> bool) (g : A -> A) (l : list A) :
  (forall x, p (g x) = p x) ->
  filter p (map g l) = map g (filter p l).
Proof.
  intros H. induction l as [|x l IH]; simpl; [reflexivity|].
  rewrite H. destruct (p x); simpl; rewrite IH; reflexivity.
Qed.

Lemma filter_length_le {A} (p : A -> bool) (l : list A) :
  (List.length (filter p l) <= List.length l)%nat.
Proof.
  induction l as [|x l IH]; simpl; [lia|]. destruct (p x); simpl; lia.
Qed.

Lemma filter_filter_swap {A} (p q : A -> bool) (l : list A) :
  filter p (filter q l) = filter q (filter p l).
Proof.
  rewrite !filter_twice. apply filter_ext. intros x. apply andb_comm.
Qed.

Lemma logsStep_uniqueLogs (db db' : DB) :
  logsStep db db' -> uniqueLogs db -> uniqueLogs db'.
Proof.
  intros Hstep Hu habitId d. specialize (Hu habitId d). unfold logsOfHabitOn in *.
  destruct Hstep as [H|l H H1 H2 H3|id p H|keep H]; rewrite H.
  - exact Hu.
  - rewrite filter_app, length_app. simpl.
    destruct (Nat.eqb (HabitLog.habitId l) habitId && String.eqb (HabitLog.date l) d)
      eqn:E; simpl; [|lia].
    apply andb_true_iff in E. destruct E as [E1 E2].
    apply Nat.eqb_eq in E1. apply String.eqb_eq in E2. subst habitId d.
    unfold logsOfHabitOn in H3. rewrite H3. simpl. lia.
  - unfold tbl_patch. rewrite filter_map_commute.
    + rewrite length_map. exact Hu.
    + intros x. destruct (Nat.eqb (HabitLog._id x) id); reflexivity.
  - rewrite filter_filter_swap.
    eapply Nat.le_trans; [apply filter_length_le|exact Hu].
Qed.

Lemma exec_uniqueLogs (c : Call) (db : DB) : uniqueLogs db -> uniqueLogs (exec c db).
Proof.
  intros Hu. destruct (exec_steps c db) as [_ [Hls _]].
  eapply logsStep_uniqueLogs; eauto.
Qed.

Lemma execAll_uniqueLogs (calls : list Call) (db : DB) :
  uniqueLogs db -> uniqueLogs (execAll calls db).
Proof.
  intros Hu. induction calls as [|c calls IH] using rev_ind; [exact Hu|].
  rewrite execAll_snoc. apply exec_uniqueLogs. exact IH.
Qed.

Lemma logHabitCompletion_write (clk : Clock) (args : LogHabitCompletionArgs.t) (db : DB) :
  uniqueLogs db ->
  exists db',
    runMutation (logHabitCompletion clk args) db = (db', Ok (mkSuccess true)) /\
    logsOfHabitOn (LogHabitCompletionArgs.habitId args)
                  (LogHabitCompletionArgs.date args) db'
    = [logAfterWrite clk args db].
Proof.
  intros Hu.
  pose proof (Hu (LogHabitCompletionArgs.habitId args) (LogHabitCompletionArgs.date args))
    as Hlen.
  assert (Hw : exists db1,
    upsertLog clk args db = Ok (tt, db1) /\
    logsOfHabitOn (LogHabitCompletionArgs.habitId args)
                  (LogHabitCompletionArgs.date args) db1
    = [logAfterWrite clk args db]).
  { unfold upsertLog, bind, unique_by_habit_and_date, logAfterWrite.
    destruct (logsOfHabitOn _ _ db) as [|old [|x xs]] eqn:E; simpl in Hlen; [| |lia].
    - unfold insert_habitLog, ret. eexists. split; [reflexivity|].
      unfold logsOfHabitOn in *. simpl. rewrite filter_app, E. simpl.
      rewrite Nat.eqb_refl, String.eqb_refl. reflexivity.
    - assert (Hin : In old (habitLogs db)).
      { unfold logsOfHabitOn in E.
        assert (In old (filter (fun l => Nat.eqb (HabitLog.habitId l)
                                 (LogHabitCompletionArgs.habitId args)
                               && String.eqb (HabitLog.date l)
                                 (LogHabitCompletionArgs.date args)) (habitLogs db)))
          as Hf by (rewrite E; left; reflexivity).
        apply filter_In in Hf. tauto. }
      unfold patch_habitLog.
      destruct (@tbl_get_in _ HabitLog._id _ _ _ Hin eq_refl) as [o G]. rewrite G.
      eexists. split; [reflexivity|].
      unfold logsOfHabitOn in *. simpl. unfold tbl_patch.
      rewrite filter_map_commute.
      + rewrite E. simpl. rewrite Nat.eqb_refl. reflexivity.
      + intros x. destruct (Nat.eqb (HabitLog._id x) (HabitLog._id old)); reflexivity. }
  destruct Hw as [db1 [Hup Hlogs]].
  destruct (updateStreak_returns clk (LogHabitCompletionArgs.habitId args) db1)
    as [db' [Hs [Hl _]]].
  exists db'. split.
  - unfold runMutation, logHabitCompletion, bind. rewrite Hup, Hs. reflexivity.
  - unfold logsOfHabitOn in *. rewrite Hl. exact Hlogs.
Qed.

(** C4.  From the empty database, after any sequence of calls there is at
    most one log for every habit and date.  On such a database a call
    of [logHabitCompletion] returns and leaves exactly one log for its
    pair: a new one when there was none, and otherwise the existing
    record, with its [_id], [userId] and [createdAt], and with [completed]
    and [notes] overwritten.  So two writes for one pair leave one log,
    the first write's record holding the second write's values. *)
Theorem logHabitCompletion_upsert :
  forall calls : list Call,
    let db := execAll calls emptyDB in
    uniqueLogs db /\
    (forall clk args,
        exists db',
          runMutation (logHabitCompletion clk args) db = (db', Ok (mkSuccess true)) /\
          uniqueLogs db' /\
          logsOfHabitOn (LogHabitCompletionArgs.habitId args)
                        (LogHabitCompletionArgs.date args) db'
          = [logAfterWrite clk args db]) /\
    (forall clk1 clk2 args1 args2,
        LogHabitCompletionArgs.habitId args2 = LogHabitCompletionArgs.habitId args1 ->
        LogHabitCompletionArgs.date args2 = LogHabitCompletionArgs.date args1 ->
        let db1 := exec (CallLogHabitCompletion clk1 args1) db in
        let db2 := exec (CallLogHabitCompletion clk2 args2) db1 in
        let first := logAfterWrite clk1 args1 db in
        logsOfHabitOn (LogHabitCompletionArgs.habitId args1)
                      (LogHabitCompletionArgs.date args1) db1 = [first] /\
        logsOfHabitOn (LogHabitCompletionArgs.habitId args1)
                      (LogHabitCompletionArgs.date args1) db2
        = [HabitLog.mk (HabitLog._id first) (HabitLog.habitId first)
             (HabitLog.userId first) (HabitLog.date first)
             (LogHabitCompletionArgs.completed args2)
             (LogHabitCompletionArgs.notes args2)
             (HabitLog.createdAt first)]).
Proof.
  intros calls db.
  assert (Hu : uniqueLogs db).
  { apply execAll_uniqueLogs. intros h d. simpl. lia. }
  split; [exact Hu|]. split.
  - intros clk args.
    destruct (logHabitCompletion_write clk args Hu) as [db' [Hrun Hlogs]].
    exists db'. split; [exact Hrun|]. split; [|exact Hlogs].
    pose proof (exec_uniqueLogs (CallLogHabitCompletion clk args) Hu) as Hu'.
    simpl in Hu'. rewrite Hrun in Hu'. exact Hu'.
  - intros clk1 clk2 args1 args2 Hh Hd db1 db2 first.
    destruct (logHabitCompletion_write clk1 args1 Hu) as [d1 [Hrun1 Hlogs1]].
    assert (E1 : db1 = d1) by (unfold db1; simpl; rewrite Hrun1; reflexivity).
    assert (Hu1 : uniqueLogs db1) by (apply exec_uniqueLogs; exact Hu).
    destruct (logHabitCompletion_write clk2 args2 Hu1) as [d2 [Hrun2 Hlogs2]].
    assert (E2 : db2 = d2) by (unfold db2; simpl; rewrite Hrun2; reflexivity).
    rewrite E1, E2. split; [exact Hlogs1|].
    rewrite Hh, Hd in Hlogs2. rewrite Hlogs2.
    unfold logAfterWrite at 1. rewrite Hh, Hd, E1, Hlogs1. reflexivity.
Qed.

(** Two writes for 2024-01-04 after the habit of [gymCalls]: one log, the
    document of the first write with the values of the second. *)
Lemma logHabitCompletion_upsert_witness :
  LogHabitCompletionArgs.habitId secondWrite = LogHabitCompletionArgs.habitId firstWrite /\
  LogHabitCompletionArgs.date secondWrite = LogHabitCompletionArgs.date firstWrite /\
  logsOfHabitOn 0 "2024-01-04"
    (exec (CallLogHabitCompletion sampleClock firstWrite) (execAll gymCalls emptyDB))
  = [HabitLog.mk 2 0 7 "2024-01-04" true (Some "ran 5k") 1704240000000] /\
  logsOfHabitOn 0 "2024-01-04"
    (exec (CallLogHabitCompletion nextDayClock secondWrite)
       (exec (CallLogHabitCompletion sampleClock firstWrite) (execAll gymCalls emptyDB)))
  = [HabitLog.mk 2 0 7 "2024-01-04" false None 1704240000000].
Proof.
  destruct (logHabitCompletion_upsert gymCalls) as [_ [_ H]].
  split; [reflexivity|]. split; [reflexivity|].
  exact (H sampleClock nextDayClock firstWrite secondWrite eq_refl eq_refl).
Defined.

(* ================================================================== *)
(** * Sorting rearranges and orders *)
(* ================================================================== *)

Section SortFacts.
Variable A : Type.
Variable cmp : A -> A -> comparison.

Lemma insertBy_perm (x : A) (l : list A) : Permutation (insertBy cmp x l) (x :: l).
Proof.
  induction l as [|y l IH]; simpl; [apply Permutation_refl|].
  destruct (cmp x y); try apply Permutation_refl.
  eapply Permutation_trans; [apply perm_skip; exact IH|apply perm_swap].
Qed.

Lemma sortBy_perm (l : list A) : Permutation (sortBy cmp l) l.
Proof.
  induction l as [|x l IH]; simpl; [apply Permutation_refl|].
  eapply Permutation_trans; [apply insertBy_perm|apply perm_skip; exact IH].
Qed.

Lemma sortBy_In (x : A) (l : list A) : In x (sortBy cmp l) <-> In x l.
Proof.
  split; intros H.
  - eapply Permutation_in; [apply sortBy_perm|exact H].
  - eapply Permutation_in; [apply Permutation_sym; apply sortBy_perm|exact H].
Qed.

Lemma sortBy_length (l : list A) : List.length (sortBy cmp l) = List.length l.
Proof. apply Permutation_length. apply sortBy_perm. Qed.
End SortFacts.

Lemma NoDup_map_In_inj {A B} (f : A -> B) (l : list A) (x y : A) :
  NoDup (map f l) -> In x l -> In y l -> f x = f y -> x = y.
Proof.
  induction l as [|a l IH]; simpl; intros Hnd Hx Hy Hf; [contradiction|].
  inversion Hnd as [|b bs Hnin Hnd']; subst.
  destruct Hx as [->|Hx], Hy as [->|Hy]; auto.
  - exfalso. apply Hnin. rewrite Hf. apply in_map. exact Hy.
  - exfalso. apply Hnin. rewrite <- Hf. apply in_map. exact Hx.
Qed.

(* ================================================================== *)
(** * C8: deleting a habit takes its logs along *)
(* ================================================================== *)

Lemma logsOfHabit_In (habitId : Id) (db : DB) (l : HabitLog.t) :
  In l (logsOfHabit habitId db) <->
  In l (habitLogs db) /\ HabitLog.habitId l = habitId.
Proof.
  unfold logsOfHabit. rewrite sortBy_In, filter_In, Nat.eqb_eq. reflexivity.
Qed.

Lemma delete_logs_ok (ls : list HabitLog.t) (db : DB) :
  NoDup (map HabitLog._id ls) ->
  (forall l, In l ls -> In (HabitLog._id l) (map HabitLog._id (habitLogs db))) ->
  exists us db1,
    forEachM (fun log => delete_habitLog (HabitLog._id log)) ls db = Ok (us, db1).
Proof.
  revert db. induction ls as [|l ls IH]; intros db Hnd Hin; simpl.
  - unfold ret. eauto.
  - inversion Hnd as [|x xs Hnin Hnd']; subst.
    unfold bind at 1. unfold delete_habitLog at 1.
    assert (Hl : In (HabitLog._id l) (map HabitLog._id (habitLogs db)))
      by (apply Hin; left; reflexivity).
    apply in_map_iff in Hl. destruct Hl as [d [Hd Hind]].
    destruct (@tbl_get_in _ HabitLog._id _ _ _ Hind Hd) as [o G]. rewrite G.
    unfold bind at 1.
    match goal with |- context [forEachM ?f ls ?d'] =>
      destruct (IH d' Hnd') as [us [db1 E]] end.
    + intros l' Hl'. simpl.
      assert (Hold : In (HabitLog._id l') (map HabitLog._id (habitLogs db)))
        by (apply Hin; right; exact Hl').
      apply in_map_iff in Hold. destruct Hold as [d' [Hd' Hind']].
      apply in_map_iff. exists d'. split; [exact Hd'|].
      unfold tbl_delete. apply filter_In. split; [exact Hind'|].
      apply negb_true_iff. apply Nat.eqb_neq. intros Heq.
      apply Hnin. rewrite <- Heq, Hd'. apply in_map. exact Hl'.
    + rewrite E. unfold ret. eauto.
Qed.

(** C8.  On a habit that exists, [deleteHabit] first deletes every log of
    the habit, reaching a database in which no habit log names the habit
    and the habit is still there, and then deletes the habit.  The mutation
    returns; afterwards no habit log references the habit, the habit cannot
    be found, and the logs of other habits are as they were. *)
Theorem deleteHabit_cascade :
  forall (db : DB) (habitId : Id) (h : Habit.t),
    NoDup (map HabitLog._id (habitLogs db)) ->
    tbl_get Habit._id habitId (habits db) = Some h ->
    exists us db1 db',
      forEachM (fun log => delete_habitLog (HabitLog._id log))
               (logsOfHabit habitId db) db = Ok (us, db1) /\
      logsOfHabit habitId db1 = [] /\
      tbl_get Habit._id habitId (habits db1) = Some h /\
      delete_habit habitId db1 = Ok (tt, db') /\
      runMutation (deleteHabit habitId) db = (db', Ok (mkSuccess true)) /\
      habitLogs db' =
        filter (fun l => negb (Nat.eqb (HabitLog.habitId l) habitId)) (habitLogs db) /\
      Forall (fun l => HabitLog.habitId l <> habitId) (habitLogs db') /\
      logsOfHabit habitId db' = [] /\
      tbl_get Habit._id habitId (habits db') = None.
Proof.
  intros db habitId h Hnd G.
  assert (Hls : NoDup (map HabitLog._id (logsOfHabit habitId db))).
  { unfold logsOfHabit. eapply Permutation_NoDup.
    - apply Permutation_map. apply Permutation_sym. apply sortBy_perm.
    - apply NoDup_map_filter. exact Hnd. }
  destruct (@delete_logs_ok (logsOfHabit habitId db) db Hls) as [us [db1 E]].
  { intros l Hl. apply logsOfHabit_In in Hl. apply in_map. tauto. }
  destruct (delete_logs_effect _ _ E) as [Hh [Hc [Hn Hl]]].
  assert (Hfilter : habitLogs db1 =
    filter (fun l => negb (Nat.eqb (HabitLog.habitId l) habitId)) (habitLogs db)).
  { rewrite Hl. apply filter_ext_in. intros x Hx. f_equal.
    destruct (Nat.eqb (HabitLog.habitId x) habitId) eqn:Ex.
    - apply existsb_exists. exists x. split; [|apply Nat.eqb_refl].
      apply logsOfHabit_In. apply Nat.eqb_eq in Ex. auto.
    - destruct (existsb _ (logsOfHabit habitId db)) eqn:Ee; [|reflexivity].
      apply existsb_exists in Ee. destruct Ee as [y [Hy Hid]].
      apply Nat.eqb_eq in Hid. apply logsOfHabit_In in Hy. destruct Hy as [Hy Hyh].
      assert (x = y)
        by exact (@NoDup_map_In_inj _ _ HabitLog._id (habitLogs db) x y Hnd Hx Hy Hid).
      subst y. apply Nat.eqb_neq in Ex. contradiction. }
  assert (Hnone : Forall (fun l => HabitLog.habitId l <> habitId) (habitLogs db1)).
  { rewrite Hfilter. apply Forall_forall. intros x Hx. apply filter_In in Hx.
    destruct Hx as [_ Hx]. apply negb_true_iff in Hx. apply Nat.eqb_neq in Hx. exact Hx. }
  assert (Hempty : logsOfHabit habitId db1 = []).
  { destruct (logsOfHabit habitId db1) as [|l ls] eqn:El; [reflexivity|].
    assert (Hin : In l (logsOfHabit habitId db1)) by (rewrite El; left; reflexivity).
    apply logsOfHabit_In in Hin. destruct Hin as [Hin Hid].
    rewrite Forall_forall in Hnone. exfalso. exact (Hnone l Hin Hid). }
  assert (G1 : tbl_get Habit._id habitId (habits db1) = Some h) by (rewrite Hh; exact G).
  exists us, db1.
  eexists. split; [exact E|]. split; [exact Hempty|]. split; [exact G1|].
  split; [unfold delete_habit; rewrite G1; reflexivity|].
  split.
  { unfold runMutation, deleteHabit, bind, collect_by_habit. rewrite E.
    unfold delete_habit. rewrite G1. reflexivity. }
  simpl. split; [exact Hfilter|]. split; [exact Hnone|].
  split; [exact Hempty|]. apply tbl_get_delete_same.
Qed.

Lemma deleteHabit_cascade_witness :
  let db := execAll tenLogCalls emptyDB in
  NoDup (map HabitLog._id (habitLogs db)) /\
  tbl_get Habit._id 0 (habits db) = Some (gymHabit 0 3) /\
  List.length (logsOfHabit 0 db) = 10%nat /\
  exists db',
    runMutation (deleteHabit 0) db = (db', Ok (mkSuccess true)) /\
    habitLogs db' = [] /\
    tbl_get Habit._id 0 (habits db') = None.
Proof.
  intros db.
  assert (Hnd : NoDup (map HabitLog._id (habitLogs db))).
  { vm_compute. repeat (apply NoDup_cons; [simpl; lia|]). apply NoDup_nil. }
  assert (G : tbl_get Habit._id 0 (habits db) = Some (gymHabit 0 3)) by reflexivity.
  split; [exact Hnd|]. split; [exact G|]. split; [reflexivity|].
  destruct (@deleteHabit_cascade db 0%nat (gymHabit 0 3) Hnd G)
    as [us [db1 [db' [_ [_ [_ [_ [Hrun [Hlogs [_ [_ Hgone]]]]]]]]]]].
  exists db'. split; [exact Hrun|]. split; [|exact Hgone].
  rewrite Hlogs. reflexivity.
Defined.

(* ================================================================== *)
(** * The order of strings *)
(* ================================================================== *)

Lemma string_compare_refl (s : string) : String.compare s s = Eq.
Proof.
  induction s as [|c s IH]; simpl; [reflexivity|].
  unfold Ascii.compare. rewrite N.compare_refl. exact IH.
Qed.

Lemma string_compare_eq (s t : string) : String.compare s t = Eq -> s = t.
Proof. apply String.compare_eq_iff. Qed.

Lemma string_compare_lt_trans (a b c : string) :
  String.compare a b = Lt -> String.compare b c = Lt -> String.compare a c = Lt.
Proof.
  revert b c. induction a as [|x a IH]; intros [|y b] [|z c]; simpl;
    try congruence.
  unfold Ascii.compare.
  destruct (N.compare_spec (N_of_ascii x) (N_of_ascii y)) as [Exy|Lxy|Gxy];
    destruct (N.compare_spec (N_of_ascii y) (N_of_ascii z)) as [Eyz|Lyz|Gyz];
    try congruence; intros H1 H2.
  - rewrite Exy, Eyz, N.compare_refl. eapply IH; eauto.
  - rewrite Exy. apply N.compare_lt_iff in Lyz. rewrite Lyz. reflexivity.
  - rewrite <- Eyz. apply N.compare_lt_iff in Lxy. rewrite Lxy. reflexivity.
  - assert (L : (N_of_ascii x < N_of_ascii z)%N) by (eapply N.lt_trans; eauto).
    apply N.compare_lt_iff in L. rewrite L. reflexivity.
Qed.

Lemma strLe_refl (a : string) : strLe a a.
Proof. unfold strLe, localeCompare. rewrite string_compare_refl. discriminate. Qed.

Lemma strLe_trans (a b c : string) : strLe a b -> strLe b c -> strLe a c.
Proof.
  unfold strLe, localeCompare. intros H1 H2.
  destruct (String.compare a b) eqn:E1; [| |congruence].
  - apply string_compare_eq in E1. subst b. exact H2.
  - destruct (String.compare b c) eqn:E2; [| |congruence].
    + apply string_compare_eq in E2. subst c. rewrite E1. discriminate.
    + rewrite (string_compare_lt_trans _ _ _ E1 E2). discriminate.
Qed.

Lemma strLe_of_gt (a b : string) : localeCompare a b = Gt -> strLe b a.
Proof.
  unfold strLe, localeCompare. intros H. rewrite String.compare_antisym, H.
  simpl. discriminate.
Qed.


Section Sortedness.
Variable A : Type.
Variable key : A -> string.

Lemma insertBy_desc_sorted (x : A) (l : list A) :
  StronglySorted (geKey key) l -> StronglySorted (geKey key) (insertBy (cmpDesc key) x l).
Proof.
  induction l as [|y l IH]; simpl; intros Hs.
  - constructor; constructor.
  - apply StronglySorted_inv in Hs. destruct Hs as [Hs Hy].
    destruct (cmpDesc key x y) eqn:E.
    + constructor; [constructor; auto|].
      assert (Hxy : geKey key x y) by (unfold geKey, strLe; unfold cmpDesc in E; congruence).
      constructor; [exact Hxy|].
      eapply Forall_impl; [|exact Hy]. intros z Hz. unfold geKey in *.
      eapply strLe_trans; eauto.
    + constructor; [constructor; auto|].
      assert (Hxy : geKey key x y) by (unfold geKey, strLe; unfold cmpDesc in E; congruence).
      constructor; [exact Hxy|].
      eapply Forall_impl; [|exact Hy]. intros z Hz. unfold geKey in *.
      eapply strLe_trans; eauto.
    + constructor; [apply IH; exact Hs|].
      assert (Hyx : geKey key y x) by (apply strLe_of_gt; exact E).
      rewrite Forall_forall. intros z Hz.
      eapply Permutation_in in Hz; [|apply insertBy_perm].
      destruct Hz as [<-|Hz]; [exact Hyx|].
      rewrite Forall_forall in Hy. auto.
Qed.

Lemma sortBy_desc_sorted (l : list A) :
  StronglySorted (geKey key) (sortBy (cmpDesc key) l).
Proof.
  induction l as [|x l IH]; simpl; [constructor|].
  apply insertBy_desc_sorted. exact IH.
Qed.
End Sortedness.

Lemma sortByDateDesc_sorted (logs : list HabitLog.t) :
  StronglySorted (geKey HabitLog.date) (sortByDateDesc logs).
Proof. apply (sortBy_desc_sorted HabitLog.date). Qed.

(** The first log of the sorted array carries the greatest date. *)
Lemma sortByDateDesc_head_max (logs : list HabitLog.t) (l : HabitLog.t)
      (rest : list HabitLog.t) (x : HabitLog.t) :
  sortByDateDesc logs = l :: rest -> In x logs ->
  strLe (HabitLog.date x) (HabitLog.date l).
Proof.
  intros E Hx. pose proof (sortByDateDesc_sorted logs) as Hs. rewrite E in Hs.
  apply StronglySorted_inv in Hs. destruct Hs as [_ Hall].
  assert (Hin : In x (l :: rest)).
  { rewrite <- E. unfold sortByDateDesc. apply sortBy_In. exact Hx. }
  destruct Hin as [<-|Hin]; [apply strLe_refl|].
  rewrite Forall_forall in Hall. exact (Hall x Hin).
Qed.

(* ================================================================== *)
(** * C7: a most recent log that is not dated today *)
(* ================================================================== *)

Lemma branchOf_other_date (l : HabitLog.t) (expected : string) :
  HabitLog.date l <> expected -> branchOf l expected = Gap.
Proof.
  intros H. unfold branchOf. apply String.eqb_neq in H. rewrite H. reflexivity.
Qed.

(** C7.  When the first log of the array sorted by date descending is not
    dated today, the first iteration takes the gap branch and the loop
    stops with [currentStreak = 0]; this is so whenever some log is dated
    after today; the recompute then stores zero on the habit; and it
    happens even when the logs hold an unbroken completed run that ends
    today. *)
Theorem walk_stops_at_first_log_not_today :
  (forall (logs : list HabitLog.t) (today : Date) (l : HabitLog.t) (rest : list HabitLog.t),
      sortByDateDesc logs = l :: rest ->
      HabitLog.date l <> toISODate today ->
      firstBranch (sortByDateDesc logs) today = Some Gap /\
      computeStreak logs today = 0) /\
  (forall (logs : list HabitLog.t) (today : Date) (x : HabitLog.t),
      In x logs ->
      localeCompare (HabitLog.date x) (toISODate today) = Gt ->
      firstBranch (sortByDateDesc logs) today = Some Gap /\
      computeStreak logs today = 0) /\
  (forall (clk : Clock) (habitId : Id) (db : DB) (h : Habit.t)
          (l : HabitLog.t) (rest : list HabitLog.t),
      tbl_get Habit._id habitId (habits db) = Some h ->
      sortByDateDesc (logsOfHabit habitId db) = l :: rest ->
      HabitLog.date l <> toISODate (today clk) ->
      exists db' h',
        updateStreak clk habitId db = Ok (tt, db') /\
        tbl_get Habit._id habitId (habits db') = Some h' /\
        Habit.currentStreak h' = 0) /\
  (exists (logs : list HabitLog.t) (today : Date),
      maximalRun logs today = 2 /\ computeStreak logs today = 0).
Proof.
  assert (Ha : forall logs today l rest,
             sortByDateDesc logs = l :: rest ->
             HabitLog.date l <> toISODate today ->
             firstBranch (sortByDateDesc logs) today = Some Gap /\
             computeStreak logs today = 0).
  { intros logs today l rest E Hne. unfold computeStreak. rewrite E. simpl.
    rewrite (branchOf_other_date _ Hne). auto. }
  split; [exact Ha|]. split; [|split].
  - intros logs today x Hx Hgt.
    destruct (sortByDateDesc logs) as [|l rest] eqn:E.
    + exfalso. assert (Hin : In x (sortByDateDesc logs))
        by (unfold sortByDateDesc; apply sortBy_In; exact Hx).
      rewrite E in Hin. exact Hin.
    + rewrite <- E. apply (Ha logs today l rest E).
      intros Heq. pose proof (sortByDateDesc_head_max logs x E Hx) as Hle.
      rewrite Heq in Hle. exact (Hle Hgt).
  - intros clk habitId db h l rest G E Hne.
    destruct (updateStreak_existing clk _ _ G) as [db' [h' [H1 [H2 [H3 _]]]]].
    exists db', h'. split; [exact H1|]. split; [exact H2|].
    rewrite H3. apply (Ha _ _ l rest E Hne).
  - exists [gymLog 1 "2024-01-02" true; gymLog 2 "2024-01-03" true;
            gymLog 3 "2024-01-04" true], (mkDate 2024 1 3).
    split; reflexivity.
Qed.

Lemma walk_stops_at_first_log_not_today_witness :
  sortByDateDesc aheadLogs
  = [gymLog 3 "2024-01-04" true; gymLog 2 "2024-01-03" true; gymLog 1 "2024-01-02" true] /\
  HabitLog.date (gymLog 3 "2024-01-04" true) <> toISODate (mkDate 2024 1 3) /\
  localeCompare (HabitLog.date (gymLog 3 "2024-01-04" true)) (toISODate (mkDate 2024 1 3))
  = Gt /\
  firstBranch (sortByDateDesc aheadLogs) (mkDate 2024 1 3) = Some Gap /\
  computeStreak aheadLogs (mkDate 2024 1 3) = 0 /\
  exists db' h',
    updateStreak sampleClock 0 aheadDB = Ok (tt, db') /\
    tbl_get Habit._id 0 (habits db') = Some h' /\
    Habit.currentStreak h' = 0.
Proof.
  destruct walk_stops_at_first_log_not_today as [Ha [Hb [Hc _]]].
  assert (Hne : HabitLog.date (gymLog 3 "2024-01-04" true) <> toISODate (mkDate 2024 1 3))
    by (simpl; discriminate).
  split; [reflexivity|]. split; [exact Hne|]. split; [reflexivity|].
  split; [|split].
  - exact (proj1 (Hb aheadLogs (mkDate 2024 1 3) (gymLog 3 "2024-01-04" true)
                     (or_intror (or_intror (or_introl eq_refl))) eq_refl)).
  - exact (proj2 (Ha aheadLogs (mkDate 2024 1 3) (gymLog 3 "2024-01-04" true)
                     [gymLog 2 "2024-01-03" true; gymLog 1 "2024-01-02" true]
                     eq_refl Hne)).
  - exact (Hc sampleClock 0%nat aheadDB (gymHabit 2 2) (gymLog 3 "2024-01-04" true)
              [gymLog 2 "2024-01-03" true; gymLog 1 "2024-01-02" true]
              eq_refl eq_refl Hne).
Defined.

(* ================================================================== *)
(** * C6: a confirm whose batch insert fails *)
(* ================================================================== *)

(** C6.  When the call of [createManyEvents] made by [handleConfirmSchedule]
    throws, the database is the one before the call, so none of the events
    is stored; the apology is appended to the transcript;
    [scheduleConfirmed] keeps its value, so it stays false; and
    [parsedSchedule] and the user are kept, so that the same confirm can be
    made again. *)
Theorem failed_confirm_keeps_schedule :
  forall (clk : Clock) (day : PlanDay) (w : World) (schedule : list JSON)
         (userId : Id) (events : list RawEvent.t) (e : string),
    parsedSchedule (page w) = Some schedule ->
    convexUserId (page w) = Some userId ->
    eventsToCreate day schedule = Ok events ->
    createManyEvents clk userId events (db w) = Throw e ->
    let w' := handleConfirmSchedule clk day w in
    db w' = db w /\
    messages (page w') = messages (page w) ++ [saveErrorMessage] /\
    scheduleConfirmed (page w') = scheduleConfirmed (page w) /\
    parsedSchedule (page w') = Some schedule /\
    convexUserId (page w') = Some userId /\
    isLoading (page w') = false /\
    saveSchedule clk day userId schedule (db w') = (db w, Throw e).
Proof.
  intros clk day w schedule userId events e Hs Hu He Hthrow w'.
  assert (Hsave : saveSchedule clk day userId schedule (db w) = (db w, Throw e)).
  { unfold saveSchedule, runMutation. rewrite He, Hthrow. reflexivity. }
  subst w'. unfold handleConfirmSchedule. rewrite Hs, Hu, Hsave. simpl.
  repeat split; auto.
Qed.

(** Two good events and one that the validator refuses: nothing is stored. *)
Lemma failed_confirm_keeps_schedule_witness :
  let w := mkWorld (proposedPage [meditate; morningRun; standup]) emptyDB in
  let w' := handleConfirmSchedule sampleClock june2 w in
  calendarEvents (db w') = [] /\
  db w' = emptyDB /\
  messages (page w') = [mkMessage r_assistant "Here is your plan."; saveErrorMessage] /\
  scheduleConfirmed (page w') = false /\
  parsedSchedule (page w') = Some [meditate; morningRun; standup].
Proof.
  intros w w'.
  destruct (eventsToCreate june2 [meditate; morningRun; standup]) as [events|] eqn:Ev;
    [|discriminate].
  destruct (@failed_confirm_keeps_schedule sampleClock june2 w
              [meditate; morningRun; standup] 7%nat events "ArgumentValidationError"
              eq_refl eq_refl Ev)
    as [H1 [H2 [H3 [H4 _]]]].
  { inversion Ev; subst. reflexivity. }
  fold w' in H1, H2, H3, H4.
  split; [rewrite H1; reflexivity|]. split; [exact H1|].
  split; [exact H2|]. split; [exact H3|exact H4].
Defined.

(* ================================================================== *)
(** * C2: what a confirm creates *)
(* ================================================================== *)





Example confirm_june2 :
  calendarEvents
    (db (handleConfirmSchedule sampleClock june2
           (mkWorld (proposedPage [meditate; standup; lunch]) emptyDB)))
  = [CalendarEvent.mk 0 7 "Meditate" None "2024-06-02T07:00:00" "2024-06-02T07:30:00"
       "2024-06-02" Category.habit false None CreatedBy.ai (Some false) 1704240000000;
     CalendarEvent.mk 1 7 "Standup+work" None "2024-06-02T09:00:00" "2024-06-02T17:00:00"
       "2024-06-02" Category.work false None CreatedBy.ai (Some false) 1704240000000;
     CalendarEvent.mk 2 7 "Lunch" (Some "Away from the desk") "2024-06-02T12:00:00"
       "2024-06-02T12:30:00" "2024-06-02" Category.other false None CreatedBy.ai
       (Some false) 1704240000000].
Proof. reflexivity. Qed.



(* ================================================================== *)
(** * The sample replies *)
(* ================================================================== *)

Example parse_scheduleBlock :
  MiniJSON.parse scheduleBlock
  = Some (JObj [("events", JArr [meditate; standup]); ("summary", JStr "A calm start.")]).
Proof. vm_compute. reflexivity. Qed.

Example parse_brokenBlock : MiniJSON.parse brokenBlock = None.
Proof. vm_compute. reflexivity. Qed.

Example jsonMatch_scheduleReply : jsonMatch scheduleReply = Some scheduleBlock.
Proof. vm_compute. reflexivity. Qed.

Example jsonMatch_brokenReply : jsonMatch brokenReply = Some brokenBlock.
Proof. vm_compute. reflexivity. Qed.

(* ================================================================== *)
(** * C5: a reply whose block does not parse *)
(* ================================================================== *)

(** C5.  When the reply has streamed to its end and its fenced json block
    fails to parse, or parses to a value without a top-level [events]
    array, [handleSubmit] leaves [parsedSchedule] and [scheduleConfirmed]
    as they were and the database untouched, so no event is created; the
    transcript has grown by the user's message and by the assistant's
    reply in full, and the page is ready for the next message. *)
Theorem failed_parse_changes_nothing :
  forall (JSON_parse : string -> option JSON) (chunks : list string)
         (block : string) (w : World),
    String.eqb (trim (input (page w))) EmptyString || isLoading (page w) = false ->
    jsonMatch (String.concat EmptyString chunks) = Some block ->
    blockFails JSON_parse block ->
    let w' := handleSubmit JSON_parse (ChatStreamed chunks) w in
    parsedSchedule (page w') = parsedSchedule (page w) /\
    scheduleConfirmed (page w') = scheduleConfirmed (page w) /\
    db w' = db w /\
    messages (page w') =
      messages (page w) ++ [mkMessage r_user (trim (input (page w)));
                            mkMessage r_assistant (String.concat EmptyString chunks)] /\
    isLoading (page w') = false.
Proof.
  intros JSON_parse chunks block w Hguard Hmatch Hfail w'.
  subst w'. unfold handleSubmit. rewrite Hguard. simpl.
  unfold detectSchedule. rewrite Hmatch.
  assert (Happ : forall (a : list Message) x y, (a ++ [x]) ++ [y] = a ++ [x; y])
    by (intros; rewrite <- app_assoc; reflexivity).
  destruct Hfail as [Hnone|[parsed [Hsome Hev]]].
  - rewrite Hnone. simpl. rewrite Happ. repeat split; reflexivity.
  - rewrite Hsome.
    destruct (eventsOf parsed) as [[events|]|msg] eqn:E.
    + exfalso. exact (Hev events eq_refl).
    + simpl. rewrite Happ. repeat split; reflexivity.
    + simpl. rewrite Happ. repeat split; reflexivity.
Qed.

Lemma failed_parse_changes_nothing_witness :
  let w := mkWorld (chattingPage " yes, 9 to 5 ") emptyDB in
  let w' := handleSubmit MiniJSON.parse (ChatStreamed brokenChunks) w in
  jsonMatch (String.concat EmptyString brokenChunks) = Some brokenBlock /\
  blockFails MiniJSON.parse brokenBlock /\
  parsedSchedule (page w') = None /\
  scheduleConfirmed (page w') = false /\
  db w' = emptyDB /\
  messages (page w') =
    [mkMessage r_assistant "Do you have work tomorrow?";
     mkMessage r_user "yes, 9 to 5";
     mkMessage r_assistant brokenReply] /\
  isLoading (page w') = false.
Proof.
  intros w w'.
  assert (Hmatch : jsonMatch (String.concat EmptyString brokenChunks) = Some brokenBlock)
    by (vm_compute; reflexivity).
  assert (Hfail : blockFails MiniJSON.parse brokenBlock)
    by (left; vm_compute; reflexivity).
  split; [exact Hmatch|]. split; [exact Hfail|].
  exact (@failed_parse_changes_nothing MiniJSON.parse brokenChunks brokenBlock w
           eq_refl Hmatch Hfail).
Defined.

(** The good reply proposes its two events, and a confirm stores them. *)
Example submit_then_confirm :
  let w := mkWorld (chattingPage "looks good") emptyDB in
  let w1 := handleSubmit MiniJSON.parse (ChatStreamed [scheduleReply]) w in
  let w2 := handleConfirmSchedule sampleClock june2 w1 in
  parsedSchedule (page w1) = Some [meditate; standup] /\
  calendarEvents (db w1) = [] /\
  map CalendarEvent.startTime (calendarEvents (db w2))
  = ["2024-06-02T07:00:00"; "2024-06-02T09:00:00"] /\
  map CalendarEvent.date (calendarEvents (db w2)) = ["2024-06-02"; "2024-06-02"] /\
  map CalendarEvent.createdBy (calendarEvents (db w2)) = [CreatedBy.ai; CreatedBy.ai].
Proof. vm_compute. repeat split; reflexivity. Qed.

(* ================================================================== *)
(** * C1: the streak and the maximal run ending today *)
(* ================================================================== *)

(** C1, at the input where the code departs from it.  The habit has one
    completed log on each of 2024-01-02, 2024-01-03 and 2024-01-04, and
    today is 2024-01-03.  The unbroken run of completed logs that ends
    today has length 2, and the recompute stores [currentStreak = 0]: the
    log dated after today is compared with today first and ends the loop.
    With no logs the recompute stores 0, as the claim says. *)
Theorem computeStreak_differs_behind_later_log :
  maximalRun aheadLogs (mkDate 2024 1 3) = 2 /\
  computeStreak aheadLogs (mkDate 2024 1 3) = 0 /\
  (exists db',
      updateStreak sampleClock 0 aheadDB = Ok (tt, db') /\
      option_map Habit.currentStreak (tbl_get Habit._id 0 (habits db')) = Some 0) /\
  (forall today : Date, computeStreak [] today = 0 /\ maximalRun [] today = 0).
Proof.
  split; [reflexivity|]. split; [reflexivity|]. split.
  - eexists. split; [vm_compute; reflexivity|reflexivity].
  - intros today. split; reflexivity.
Qed.

(** ** Calendar days in order *)

Lemma daysInMonth_bounds (y m : Z) : 28 <= daysInMonth y m <= 31.
Proof.
  unfold daysInMonth.
  destruct (m =? 2); [destruct (isLeapYear y); lia|].
  destruct ((m =? 4) || (m =? 6) || (m =? 9) || (m =? 11)); lia.
Qed.

Lemma validDate_bounds (d : Date) :
  validDate d = true ->
  1 <= month d <= 12 /\ 1 <= day d <= daysInMonth (year d) (month d).
Proof.
  unfold validDate. rewrite !andb_true_iff, !Z.leb_le. tauto.
Qed.

Lemma validDate_intro (d : Date) :
  1 <= month d <= 12 -> 1 <= day d <= daysInMonth (year d) (month d) ->
  validDate d = true.
Proof.
  unfold validDate. rewrite !andb_true_iff, !Z.leb_le. tauto.
Qed.

Lemma inRange_bounds (d : Date) :
  inRange d = true -> validDate d = true /\ 0 <= year d <= 9999.
Proof.
  unfold inRange. rewrite !andb_true_iff, !Z.leb_le. tauto.
Qed.

Lemma dateCompare_lt (a b : Date) :
  dateCompare a b = Lt <->
  year a < year b \/
  (year a = year b /\ (month a < month b \/ (month a = month b /\ day a < day b))).
Proof.
  unfold dateCompare.
  destruct (Z.compare_spec (year a) (year b));
    destruct (Z.compare_spec (month a) (month b));
    destruct (Z.compare_spec (day a) (day b));
    split; intros; try discriminate; try reflexivity; try lia.
Qed.

Lemma dateCompare_eq (a b : Date) : dateCompare a b = Eq <-> a = b.
Proof.
  unfold dateCompare. destruct a as [ya ma da], b as [yb mb db]; simpl.
  destruct (Z.compare_spec ya yb); destruct (Z.compare_spec ma mb);
    destruct (Z.compare_spec da db);
    split; intros H'; try discriminate; try reflexivity;
    try (subst; reflexivity); inversion H'; lia.
Qed.

Lemma dateCompare_gt (a b : Date) : dateCompare a b = Gt <-> dateCompare b a = Lt.
Proof.
  rewrite dateCompare_lt. unfold dateCompare.
  destruct (Z.compare_spec (year a) (year b));
    destruct (Z.compare_spec (month a) (month b));
    destruct (Z.compare_spec (day a) (day b));
    split; intros; try discriminate; try reflexivity; try lia.
Qed.

Lemma prevDay_valid (d : Date) : validDate d = true -> validDate (prevDay d) = true.
Proof.
  intros H. apply validDate_bounds in H. destruct H as [Hm Hd].
  unfold prevDay.
  destruct (Z.ltb_spec 1 (day d)); [|destruct (Z.ltb_spec 1 (month d))];
    apply validDate_intro; simpl; try lia.
  - pose proof (daysInMonth_bounds (year d) (month d - 1)). lia.
  - change (daysInMonth (year d - 1) 12) with 31. lia.
Qed.

Lemma prevDay_lt (d : Date) : validDate d = true -> dateCompare (prevDay d) d = Lt.
Proof.
  intros H. apply validDate_bounds in H. destruct H as [Hm Hd].
  apply dateCompare_lt. unfold prevDay.
  destruct (Z.ltb_spec 1 (day d)); [|destruct (Z.ltb_spec 1 (month d))]; simpl; lia.
Qed.

Lemma prevDay_year_le (d : Date) : year (prevDay d) <= year d.
Proof.
  unfold prevDay.
  destruct (1 <? day d); [|destruct (1 <? month d)]; simpl; lia.
Qed.

(** The day before [d] is the latest day that is earlier than [d]. *)
Lemma prevDay_pred (a d : Date) :
  validDate a = true -> validDate d = true ->
  dateCompare a d = Lt -> dateCompare a (prevDay d) <> Gt.
Proof.
  intros Ha Hd Hlt Hgt.
  apply validDate_bounds in Ha. destruct Ha as [Ham Had].
  apply validDate_bounds in Hd. destruct Hd as [Hdm Hdd].
  apply dateCompare_lt in Hlt. apply dateCompare_gt in Hgt.
  apply dateCompare_lt in Hgt. revert Hgt. unfold prevDay.
  pose proof (daysInMonth_bounds (year a) (month a)).
  destruct (Z.ltb_spec 1 (day d)); [|destruct (Z.ltb_spec 1 (month d))]; simpl.
  - lia.
  - intros Hgt.
    destruct (Z.eq_dec (year a) (year d)) as [Ey|Ny];
      [destruct (Z.eq_dec (month a) (month d - 1)) as [Em|Nm]|]; try lia.
    rewrite Ey, Em in Had. lia.
  - lia.
Qed.

Lemma daysBefore_valid (k : nat) (d : Date) :
  validDate d = true -> validDate (daysBefore k d) = true.
Proof.
  revert d. induction k as [|k IH]; intros d H; simpl; [exact H|].
  apply IH. apply prevDay_valid. exact H.
Qed.

Lemma dateCompare_lt_trans (a b c : Date) :
  dateCompare a b = Lt -> dateCompare b c = Lt -> dateCompare a c = Lt.
Proof. rewrite !dateCompare_lt. lia. Qed.

Lemma daysBefore_lt (k : nat) (d : Date) :
  validDate d = true -> dateCompare (daysBefore (S k) d) d = Lt.
Proof.
  revert d. induction k as [|k IH]; intros d H; simpl.
  - apply prevDay_lt. exact H.
  - eapply dateCompare_lt_trans; [|apply prevDay_lt; exact H].
    apply (IH (prevDay d)). apply prevDay_valid. exact H.
Qed.

(** ** ISO dates in order *)

Lemma string_length_app (s t : string) :
  String.length (s +++ t) = (String.length s + String.length t)%nat.
Proof. induction s as [|c s IH]; simpl; [reflexivity|rewrite IH; reflexivity]. Qed.

Lemma digits_length (w : nat) (n : Z) : String.length (digits w n) = w.
Proof.
  revert n. induction w as [|w IH]; intros n; simpl; [reflexivity|].
  rewrite string_length_app, IH. simpl. lia.
Qed.

(** Two strings that begin with parts of one length compare by the parts
    first. *)
Lemma string_compare_app (s1 s2 t1 t2 : string) :
  String.length s1 = String.length s2 ->
  String.compare (s1 +++ t1) (s2 +++ t2) =
  match String.compare s1 s2 with
  | Eq => String.compare t1 t2
  | c => c
  end.
Proof.
  revert s2. induction s1 as [|c s1 IH]; intros [|d s2] Hlen; simpl in *;
    try discriminate; [reflexivity|].
  destruct (Ascii.compare c d); [|reflexivity|reflexivity].
  apply IH. lia.
Qed.

(** A property of the ten digits holds of every number below ten. *)
Lemma below_ten (P : Z -> Prop) :
  P 0 -> P 1 -> P 2 -> P 3 -> P 4 -> P 5 -> P 6 -> P 7 -> P 8 -> P 9 ->
  forall n, 0 <= n < 10 -> P n.
Proof.
  intros H0 H1 H2 H3 H4 H5 H6 H7 H8 H9 n Hn.
  destruct n as [|p|p]; [exact H0| |lia].
  destruct p as [p|p|]; [| |exact H1];
    (destruct p as [p|p|]; [| |assumption]);
    (destruct p as [p|p|]; [| |assumption]);
    try lia; (destruct p as [p|p|]; try lia; assumption).
Qed.

Lemma digit_compare (a b : Z) :
  Ascii.compare (digit a) (digit b) = Z.compare (a mod 10) (b mod 10).
Proof.
  unfold digit.
  pattern (a mod 10). apply below_ten; [..|apply Z.mod_pos_bound; lia];
    pattern (b mod 10); apply below_ten; try reflexivity;
    apply Z.mod_pos_bound; lia.
Qed.

Lemma digit_not_sign (n : Z) (sign : ascii) :
  sign = "-"%char \/ sign = "+"%char -> digit n <> sign.
Proof.
  unfold digit. intros [->| ->];
    (pattern (n mod 10); apply below_ten; try discriminate;
     apply Z.mod_pos_bound; lia).
Qed.

Lemma compare_by_last_digit (a b : Z) :
  Z.compare a b =
  match Z.compare (a / 10) (b / 10) with
  | Eq => Z.compare (a mod 10) (b mod 10)
  | c => c
  end.
Proof.
  pose proof (Z.div_mod a 10 ltac:(lia)) as Ea.
  pose proof (Z.div_mod b 10 ltac:(lia)) as Eb.
  pose proof (Z.mod_pos_bound a 10 ltac:(lia)) as Ha.
  pose proof (Z.mod_pos_bound b 10 ltac:(lia)) as Hb.
  destruct (Z.compare_spec (a / 10) (b / 10));
    destruct (Z.compare_spec (a mod 10) (b mod 10));
    destruct (Z.compare_spec a b); try reflexivity; lia.
Qed.

(** Numbers of [w] digits compare as their zero-padded renderings do. *)
Lemma digits_compare (w : nat) (a b : Z) :
  0 <= a < pow10 w -> 0 <= b < pow10 w ->
  String.compare (digits w a) (digits w b) = Z.compare a b.
Proof.
  revert a b. induction w as [|w IH]; intros a b Ha Hb; cbn [digits pow10] in *.
  - assert (a = 0) by lia. assert (b = 0) by lia. subst. reflexivity.
  - rewrite string_compare_app by (rewrite !digits_length; reflexivity).
    rewrite IH.
    + rewrite (compare_by_last_digit a b).
      destruct (Z.compare (a / 10) (b / 10)); try reflexivity.
      cbn [String.compare]. rewrite digit_compare.
      destruct (Z.compare (a mod 10) (b mod 10)); reflexivity.
    + split; [apply Z.div_pos; lia|apply Z.div_lt_upper_bound; lia].
    + split; [apply Z.div_pos; lia|apply Z.div_lt_upper_bound; lia].
Qed.

Lemma isoYear_inRange (y : Z) : 0 <= y <= 9999 -> isoYear y = digits 4 y.
Proof.
  intros H. unfold isoYear.
  destruct (Z.leb_spec 0 y); [|lia]. destruct (Z.leb_spec y 9999); [|lia].
  reflexivity.
Qed.

(** On days with a four-digit year, ISO dates compare as the days do. *)
Lemma toISODate_compare (a b : Date) :
  inRange a = true -> inRange b = true ->
  String.compare (toISODate a) (toISODate b) = dateCompare a b.
Proof.
  intros Ha Hb.
  apply inRange_bounds in Ha. destruct Ha as [Va Ya].
  apply inRange_bounds in Hb. destruct Hb as [Vb Yb].
  apply validDate_bounds in Va. destruct Va as [Ma Da].
  apply validDate_bounds in Vb. destruct Vb as [Mb Db].
  pose proof (daysInMonth_bounds (year a) (month a)).
  pose proof (daysInMonth_bounds (year b) (month b)).
  unfold toISODate, dateCompare. rewrite !isoYear_inRange by assumption.
  rewrite string_compare_app by (rewrite !digits_length; reflexivity).
  rewrite digits_compare by (cbn [pow10]; lia).
  destruct (Z.compare (year a) (year b)); try reflexivity.
  rewrite (@string_compare_app "-" "-") by reflexivity.
  change (String.compare "-" "-") with Eq. cbv iota.
  rewrite string_compare_app by (rewrite !digits_length; reflexivity).
  rewrite digits_compare by (cbn [pow10]; lia).
  destruct (Z.compare (month a) (month b)); try reflexivity.
  rewrite (@string_compare_app "-" "-") by reflexivity.
  change (String.compare "-" "-") with Eq. cbv iota.
  apply digits_compare; cbn [pow10]; lia.
Qed.

Lemma toISODate_head_sign (d : Date) :
  ~ (0 <= year d <= 9999) ->
  exists sign rest, (sign = "-"%char \/ sign = "+"%char) /\
                    toISODate d = String sign rest.
Proof.
  intros H. unfold toISODate, isoYear.
  destruct (Z.leb_spec 0 (year d)); [destruct (Z.leb_spec (year d) 9999); [lia|]|];
    simpl.
  - destruct (Z.ltb_spec (year d) 0); [lia|]. simpl. eauto.
  - destruct (Z.ltb_spec (year d) 0); [|lia]. simpl. eauto.
Qed.

Lemma toISODate_head_digit (d : Date) :
  0 <= year d <= 9999 ->
  exists n rest, toISODate d = String (digit n) rest.
Proof.
  intros H. unfold toISODate. rewrite isoYear_inRange by exact H.
  simpl. eauto.
Qed.

(** A day of the calendar prints as a day with a four-digit year only if
    it is that day. *)
Lemma toISODate_inj (a b : Date) :
  validDate a = true -> inRange b = true ->
  toISODate a = toISODate b -> a = b.
Proof.
  intros Va Hb E.
  destruct (Z.le_gt_cases 0 (year a)) as [H0|H0];
    [destruct (Z.le_gt_cases (year a) 9999) as [H1|H1]|].
  - apply dateCompare_eq. rewrite <- toISODate_compare.
    + rewrite E. apply string_compare_refl.
    + unfold inRange. rewrite Va. simpl.
      apply andb_true_iff. rewrite !Z.leb_le. lia.
    + exact Hb.
  - exfalso. destruct (@toISODate_head_sign a ltac:(lia)) as [s [r [Hs Hr]]].
    apply inRange_bounds in Hb. destruct Hb as [_ Yb].
    destruct (toISODate_head_digit b Yb) as [n [r' Hr']].
    rewrite Hr, Hr' in E. injection E as Hc _.
    symmetry in Hc. exact (digit_not_sign n Hs Hc).
  - exfalso. destruct (@toISODate_head_sign a ltac:(lia)) as [s [r [Hs Hr]]].
    apply inRange_bounds in Hb. destruct Hb as [_ Yb].
    destruct (toISODate_head_digit b Yb) as [n [r' Hr']].
    rewrite Hr, Hr' in E. injection E as Hc _.
    symmetry in Hc. exact (digit_not_sign n Hs Hc).
Qed.

(** ** The walk finds the run when no log is dated after today *)

Lemma Permutation_filter {A} (p : A -> bool) (l l' : list A) :
  Permutation l l' -> Permutation (filter p l) (filter p l').
Proof.
  intros H. induction H as [|x l l' _ IH|x y l|l l' l'' _ IH1 _ IH2]; simpl.
  - constructor.
  - destruct (p x); [constructor|]; exact IH.
  - destruct (p x), (p y); try apply Permutation_refl. apply perm_swap.
  - eapply Permutation_trans; eauto.
Qed.

(** The run does not depend on the order in which the logs are held. *)
Lemma runEndingAt_perm (n : nat) (logs logs' : list HabitLog.t) (d : Date) :
  Permutation logs logs' -> runEndingAt n logs d = runEndingAt n logs' d.
Proof.
  intros Hp. revert d. induction n as [|n IH]; intros d; simpl; [reflexivity|].
  pose proof (Permutation_filter
                (fun l => String.eqb (HabitLog.date l) (toISODate d)) Hp) as Hf.
  unfold logsDated.
  destruct (filter _ logs) as [|l [|l2 ls]] eqn:E.
  - apply Permutation_nil in Hf. rewrite Hf. reflexivity.
  - apply Permutation_length_1_inv in Hf. rewrite Hf. rewrite IH. reflexivity.
  - apply Permutation_length in Hf. simpl in Hf.
    destruct (filter _ logs') as [|l' [|l2' ls']]; simpl in Hf; try discriminate.
    reflexivity.
Qed.

(** A log that is dated on none of the days before [d] does not count in
    the run that ends at [d]. *)
Lemma runEndingAt_skip (n : nat) (l : HabitLog.t) (logs : list HabitLog.t) (d : Date) :
  (forall k, HabitLog.date l <> toISODate (daysBefore k d)) ->
  runEndingAt n (l :: logs) d = runEndingAt n logs d.
Proof.
  revert d. induction n as [|n IH]; intros d Hne; simpl; [reflexivity|].
  pose proof (Hne O) as H0. simpl in H0. apply String.eqb_neq in H0. rewrite H0.
  rewrite IH; [reflexivity|].
  intros k. exact (Hne (S k)).
Qed.

Lemma logsDated_none (d : string) (logs : list HabitLog.t) :
  (forall l, In l logs -> HabitLog.date l <> d) -> logsDated d logs = [].
Proof.
  intros H. unfold logsDated. induction logs as [|l logs IH]; simpl; [reflexivity|].
  assert (Hl : HabitLog.date l <> d) by (apply H; left; reflexivity).
  apply String.eqb_neq in Hl. rewrite Hl. apply IH.
  intros l' Hin. apply H. right. exact Hin.
Qed.

(** The loop and the run agree on logs sorted by date descending, dated on
    distinct days none of which is after the day the loop starts from. *)
Lemma walk_is_runEndingAt (logs : list HabitLog.t) :
  forall (d : Date) (acc : Z) (n : nat),
    StronglySorted (geKey HabitLog.date) logs ->
    NoDup (map HabitLog.date logs) ->
    Forall (datedWithin d) logs ->
    validDate d = true ->
    year d <= 9999 ->
    (List.length logs <= n)%nat ->
    walk logs d acc = acc + runEndingAt n logs d.
Proof.
  induction logs as [|l rest IH]; intros d acc n Hsorted Hnd Hall Hv Hy Hlen.
  - simpl. destruct n; simpl; lia.
  - destruct n as [|n]; [simpl in Hlen; lia|].
    apply StronglySorted_inv in Hsorted. destruct Hsorted as [Hsorted Hhead].
    inversion Hnd as [|x0 xs Hnin Hnd']; subst.
    inversion Hall as [|x0 xs [x [Hx [Hdate Hle]]] Hall']; subst.
    destruct (inRange_bounds x Hx) as [Vx Yx].
    destruct (dateCompare x d) eqn:Hcmp; [| |congruence].
    + (* the first log is dated [d] *)
      apply dateCompare_eq in Hcmp. subst x.
      assert (Hrest : forall l', In l' rest -> HabitLog.date l' <> toISODate d).
      { intros l' Hin Heq. apply Hnin. rewrite Hdate, <- Heq. apply in_map. exact Hin. }
      cbn [walk runEndingAt]. unfold branchOf, logsDated. cbn [filter].
      rewrite Hdate, String.eqb_refl. cbn [andb].
      fold (logsDated (toISODate d) rest). rewrite (logsDated_none _ Hrest).
      destruct (HabitLog.completed l); cbn [negb]; [|lia].
      rewrite (IH (prevDay d) (acc + 1) n); auto.
      * rewrite runEndingAt_skip; [lia|].
        intros k Heq. rewrite Hdate in Heq.
        assert (E : daysBefore k (prevDay d) = d).
        { apply toISODate_inj; auto.
          apply (daysBefore_valid (S k)). exact Hv. }
        pose proof (daysBefore_lt k d Hv) as Hlt. simpl in Hlt.
        rewrite E in Hlt. rewrite (proj2 (dateCompare_eq d d) eq_refl) in Hlt.
        discriminate.
      * rewrite Forall_forall in Hall'. apply Forall_forall. intros l' Hin.
        destruct (Hall' l' Hin) as [x' [Hx' [Hd' Hle']]].
        exists x'. split; [exact Hx'|]. split; [exact Hd'|].
        destruct (inRange_bounds x' Hx') as [Vx' _].
        apply prevDay_pred; auto.
        destruct (dateCompare x' d) eqn:C; [|reflexivity|congruence].
        apply dateCompare_eq in C. subst x'.
        exfalso. exact (Hrest l' Hin Hd').
      * apply prevDay_valid. exact Hv.
      * pose proof (prevDay_year_le d). lia.
      * simpl in Hlen. lia.
    + (* the first log is dated before [d] *)
      assert (Hd : inRange d = true).
      { unfold inRange. rewrite Hv. simpl. apply andb_true_iff. rewrite !Z.leb_le.
        apply dateCompare_lt in Hcmp. lia. }
      assert (Hlt : String.compare (toISODate x) (toISODate d) = Lt).
      { rewrite toISODate_compare; auto. }
      assert (Hne : HabitLog.date l <> toISODate d).
      { rewrite Hdate. intros Heq. rewrite Heq, string_compare_refl in Hlt. discriminate. }
      cbn [walk runEndingAt]. rewrite (branchOf_other_date _ Hne).
      rewrite logsDated_none; [lia|].
      intros l' [<-|Hin]; [exact Hne|].
      intros Heq. rewrite Forall_forall in Hhead. specialize (Hhead l' Hin).
      unfold geKey, strLe, localeCompare in Hhead. rewrite Heq, Hdate in Hhead.
      apply Hhead. rewrite String.compare_antisym, Hlt. reflexivity.
Qed.

(** When the logs of a habit are dated on distinct days of the calendar,
    none after today, the recompute finds the maximal unbroken run of
    completed logs ending today. *)
Lemma computeStreak_is_maximalRun (logs : list HabitLog.t) (today : Date) :
  inRange today = true ->
  NoDup (map HabitLog.date logs) ->
  Forall (datedWithin today) logs ->
  computeStreak logs today = maximalRun logs today.
Proof.
  intros Ht Hnd Hall. unfold computeStreak, maximalRun.
  destruct (inRange_bounds today Ht) as [Hv Hy].
  pose proof (sortBy_perm (fun a b => localeCompare (HabitLog.date b) (HabitLog.date a))
                          logs) as Hperm.
  fold (sortByDateDesc logs) in Hperm.
  rewrite (@walk_is_runEndingAt (sortByDateDesc logs) today 0 (List.length logs)).
  - rewrite (runEndingAt_perm _ _ Hperm). lia.
  - apply sortByDateDesc_sorted.
  - eapply Permutation_NoDup; [|exact Hnd].
    apply Permutation_map. apply Permutation_sym. exact Hperm.
  - apply Forall_forall. intros l Hin. rewrite Forall_forall in Hall. apply Hall.
    eapply Permutation_in; [exact Hperm|exact Hin].
  - exact Hv.
  - lia.
  - rewrite (Permutation_length Hperm). lia.
Qed.

(** The three days of the first scenario satisfy the conditions, and the
    lemma gives the streak of three. *)
Example computeStreak_is_maximalRun_three_days :
  let logs := [gymLog 1 "2024-01-01" true; gymLog 2 "2024-01-02" true;
               gymLog 3 "2024-01-03" true] in
  computeStreak logs (mkDate 2024 1 3) = maximalRun logs (mkDate 2024 1 3) /\
  maximalRun logs (mkDate 2024 1 3) = 3.
Proof.
  intros logs. split; [|reflexivity].
  apply computeStreak_is_maximalRun.
  - reflexivity.
  - vm_compute. repeat (apply NoDup_cons; [simpl; intuition discriminate|]).
    apply NoDup_nil.
  - repeat constructor;
      [exists (mkDate 2024 1 1)|exists (mkDate 2024 1 2)|exists (mkDate 2024 1 3)];
      (split; [reflexivity|split; [reflexivity|discriminate]]).
Qed.

(* ================================================================== *)
(** * Sorting by a comparator that orders *)
(* ================================================================== *)

Section OrderedSort.
Variable A : Type.
Variable cmp : A -> A -> comparison.
Hypothesis cmp_total : forall x y, cmp x y = Gt -> cmp y x <> Gt.
Hypothesis cmp_trans :
  forall x y z, cmp x y <> Gt -> cmp y z <> Gt -> cmp x z <> Gt.

Lemma insertBy_sorted (x : A) (l : list A) :
  StronglySorted (notAfter cmp) l -> StronglySorted (notAfter cmp) (insertBy cmp x l).
Proof.
  induction l as [|y l IH]; intros Hs; cbn [insertBy].
  - constructor; constructor.
  - apply StronglySorted_inv in Hs. destruct Hs as [Hs Hy].
    destruct (cmp x y) eqn:E.
    + constructor; [constructor; assumption|].
      assert (Hxy : notAfter cmp x y) by (unfold notAfter; congruence).
      constructor; [exact Hxy|].
      eapply Forall_impl; [|exact Hy]. intros z Hz. eapply cmp_trans; eauto.
    + constructor; [constructor; assumption|].
      assert (Hxy : notAfter cmp x y) by (unfold notAfter; congruence).
      constructor; [exact Hxy|].
      eapply Forall_impl; [|exact Hy]. intros z Hz. eapply cmp_trans; eauto.
    + constructor; [apply IH; exact Hs|].
      rewrite Forall_forall. intros z Hz.
      eapply Permutation_in in Hz; [|apply insertBy_perm].
      destruct Hz as [<-|Hz]; [apply cmp_total; exact E|].
      rewrite Forall_forall in Hy. auto.
Qed.

Lemma sortBy_sorted (l : list A) : StronglySorted (notAfter cmp) (sortBy cmp l).
Proof.
  induction l as [|x l IH]; cbn [sortBy]; [constructor|].
  apply insertBy_sorted. exact IH.
Qed.

(** Taking the elements that pass a test out of a sorted list and sorting
    the elements that pass give the same list. *)
Lemma filter_insertBy (p : A -> bool) (x : A) (l : list A) :
  StronglySorted (notAfter cmp) l ->
  filter p (insertBy cmp x l) =
  if p x then insertBy cmp x (filter p l) else filter p l.
Proof.
  induction l as [|y l IH]; intros Hs; cbn [insertBy filter].
  - destruct (p x); reflexivity.
  - apply StronglySorted_inv in Hs. destruct Hs as [Hs Hy].
    destruct (cmp x y) eqn:E.
    + cbn [filter]. destruct (p x) eqn:Px; [|reflexivity].
      destruct (p y) eqn:Py; [cbn [insertBy]; rewrite E; reflexivity|].
      assert (Hall : Forall (fun z => cmp x z <> Gt) (filter p l)).
      { apply Forall_filter. eapply Forall_impl; [|exact Hy].
        intros z Hz. eapply cmp_trans; [|exact Hz]. congruence. }
      destruct (filter p l) as [|z zs]; [reflexivity|].
      inversion Hall as [|? ? Hz _]; subst. cbn [insertBy].
      destruct (cmp x z); try reflexivity. congruence.
    + cbn [filter]. destruct (p x) eqn:Px; [|reflexivity].
      destruct (p y) eqn:Py; [cbn [insertBy]; rewrite E; reflexivity|].
      assert (Hall : Forall (fun z => cmp x z <> Gt) (filter p l)).
      { apply Forall_filter. eapply Forall_impl; [|exact Hy].
        intros z Hz. eapply cmp_trans; [|exact Hz]. congruence. }
      destruct (filter p l) as [|z zs]; [reflexivity|].
      inversion Hall as [|? ? Hz _]; subst. cbn [insertBy].
      destruct (cmp x z); try reflexivity. congruence.
    + cbn [filter]. rewrite (IH Hs).
      destruct (p y) eqn:Py; destruct (p x) eqn:Px; try reflexivity.
      cbn [insertBy]. rewrite E. reflexivity.
Qed.

Lemma filter_sortBy (p : A -> bool) (l : list A) :
  filter p (sortBy cmp l) = sortBy cmp (filter p l).
Proof.
  induction l as [|x l IH]; cbn [sortBy filter]; [reflexivity|].
  rewrite filter_insertBy by apply sortBy_sorted.
  rewrite IH. destruct (p x); reflexivity.
Qed.
End OrderedSort.

(** The same for a comparator that orders the elements of a domain. *)
Section OrderedSortOn.
Variable A : Type.
Variable cmp : A -> A -> comparison.
Variable domain : A -> Prop.
Hypothesis cmp_total_on :
  forall x y, domain x -> domain y -> cmp x y = Gt -> cmp y x <> Gt.
Hypothesis cmp_trans_on :
  forall x y z, domain x -> domain y -> domain z ->
                cmp x y <> Gt -> cmp y z <> Gt -> cmp x z <> Gt.

Lemma insertBy_sorted_on (x : A) (l : list A) :
  domain x -> Forall domain l ->
  StronglySorted (notAfter cmp) l -> StronglySorted (notAfter cmp) (insertBy cmp x l).
Proof.
  intros Hx. induction l as [|y l IH]; intros Hl Hs; cbn [insertBy].
  - constructor; constructor.
  - apply StronglySorted_inv in Hs. destruct Hs as [Hs Hy].
    inversion Hl as [|y' l' Dy Dl]; subst.
    assert (Hbefore : cmp x y <> Gt ->
                      StronglySorted (notAfter cmp) (x :: y :: l)).
    { intros Hxy. constructor; [constructor; assumption|].
      constructor; [exact Hxy|].
      rewrite Forall_forall in Hy, Dl. apply Forall_forall. intros z Hz.
      apply (@cmp_trans_on x y z); auto. apply Hy. exact Hz. }
    destruct (cmp x y) eqn:E.
    + apply Hbefore. discriminate.
    + apply Hbefore. discriminate.
    + constructor; [apply IH; assumption|].
      rewrite Forall_forall. intros z Hz.
      eapply Permutation_in in Hz; [|apply insertBy_perm].
      destruct Hz as [<-|Hz]; [apply cmp_total_on; assumption|].
      rewrite Forall_forall in Hy. auto.
Qed.

Lemma sortBy_sorted_on (l : list A) :
  Forall domain l -> StronglySorted (notAfter cmp) (sortBy cmp l).
Proof.
  induction l as [|x l IH]; intros Hl; cbn [sortBy]; [constructor|].
  inversion Hl as [|x' l' Dx Dl]; subst.
  apply insertBy_sorted_on; [exact Dx| |apply IH; exact Dl].
  rewrite Forall_forall in *. intros z Hz. apply Dl.
  eapply Permutation_in; [apply sortBy_perm|exact Hz].
Qed.

Lemma filter_insertBy_on (p : A -> bool) (x : A) (l : list A) :
  domain x -> Forall domain l ->
  StronglySorted (notAfter cmp) l ->
  filter p (insertBy cmp x l) =
  if p x then insertBy cmp x (filter p l) else filter p l.
Proof.
  intros Hx. induction l as [|y l IH]; intros Hl Hs; cbn [insertBy filter].
  - destruct (p x); reflexivity.
  - apply StronglySorted_inv in Hs. destruct Hs as [Hs Hy].
    inversion Hl as [|y' l' Dy Dl]; subst.
    assert (Hbefore : cmp x y <> Gt -> p x = true -> p y = false ->
                      insertBy cmp x (filter p l) = x :: filter p l).
    { intros Hxy Px Py.
      assert (Hall : Forall (fun z => cmp x z <> Gt) (filter p l)).
      { apply Forall_filter. rewrite Forall_forall in *. intros z Hz.
        apply (@cmp_trans_on x y z); auto. apply Hy. exact Hz. }
      destruct (filter p l) as [|z zs]; [reflexivity|].
      inversion Hall as [|? ? Hz _]; subst. cbn [insertBy].
      destruct (cmp x z); try reflexivity. congruence. }
    destruct (cmp x y) eqn:E.
    + cbn [filter]. destruct (p x) eqn:Px; [|reflexivity].
      destruct (p y) eqn:Py; [cbn [insertBy]; rewrite E; reflexivity|].
      rewrite Hbefore; [reflexivity|discriminate|reflexivity|reflexivity].
    + cbn [filter]. destruct (p x) eqn:Px; [|reflexivity].
      destruct (p y) eqn:Py; [cbn [insertBy]; rewrite E; reflexivity|].
      rewrite Hbefore; [reflexivity|discriminate|reflexivity|reflexivity].
    + cbn [filter]. rewrite (IH Dl Hs).
      destruct (p y) eqn:Py; destruct (p x) eqn:Px; try reflexivity.
      cbn [insertBy]. rewrite E. reflexivity.
Qed.

Lemma filter_sortBy_on (p : A -> bool) (l : list A) :
  Forall domain l -> filter p (sortBy cmp l) = sortBy cmp (filter p l).
Proof.
  induction l as [|x l IH]; intros Hl; cbn [sortBy filter]; [reflexivity|].
  inversion Hl as [|x' l' Dx Dl]; subst.
  rewrite filter_insertBy_on.
  - rewrite (IH Dl). destruct (p x); reflexivity.
  - exact Dx.
  - rewrite Forall_forall in *. intros z Hz. apply Dl.
    eapply Permutation_in; [apply sortBy_perm|exact Hz].
  - apply sortBy_sorted_on. exact Dl.
Qed.
End OrderedSortOn.

Lemma StronglySorted_on {A} (R R' : A -> A -> Prop) (l : list A) :
  (forall a b, In a l -> In b l -> R a b -> R' a b) ->
  StronglySorted R l -> StronglySorted R' l.
Proof.
  intros H Hs. induction Hs as [|a l Hs IH Ha]; constructor.
  - apply IH. intros x y Hx Hy. apply H; right; assumption.
  - rewrite Forall_forall in *. intros b Hb.
    apply H; [left; reflexivity|right; exact Hb|apply Ha; exact Hb].
Qed.

Section SortAgain.
Variable A : Type.

(** Two comparators that agree on the elements of a list sort it alike. *)
Lemma insertBy_ext (cmp cmp' : A -> A -> comparison) (x : A) (l : list A) :
  (forall y, In y l -> cmp x y = cmp' x y) ->
  insertBy cmp x l = insertBy cmp' x l.
Proof.
  induction l as [|y l IH]; intros H; cbn [insertBy]; [reflexivity|].
  rewrite <- (H y (or_introl eq_refl)).
  destruct (cmp x y); try reflexivity.
  rewrite IH; [reflexivity|]. intros z Hz. apply H. right. exact Hz.
Qed.

Lemma sortBy_ext (cmp cmp' : A -> A -> comparison) (l : list A) :
  (forall x y, In x l -> In y l -> cmp x y = cmp' x y) ->
  sortBy cmp l = sortBy cmp' l.
Proof.
  induction l as [|x l IH]; intros H; cbn [sortBy]; [reflexivity|].
  rewrite <- IH by (intros; apply H; right; assumption).
  apply insertBy_ext. intros y Hy. apply H; [left; reflexivity|right].
  eapply Permutation_in; [apply sortBy_perm|exact Hy].
Qed.

(** A change of the elements that the comparator does not see goes
    through the sort. *)
Lemma sortBy_map (cmp : A -> A -> comparison) (f : A -> A) (l : list A) :
  (forall x y, cmp (f x) (f y) = cmp x y) ->
  sortBy cmp (map f l) = map f (sortBy cmp l).
Proof.
  intros H.
  assert (Hins : forall x l', insertBy cmp (f x) (map f l') = map f (insertBy cmp x l')).
  { intros x l'. induction l' as [|y l' IH]; cbn [insertBy map]; [reflexivity|].
    rewrite H. destruct (cmp x y); cbn [map]; try reflexivity.
    rewrite IH. reflexivity. }
  induction l as [|x l IH]; cbn [sortBy map]; [reflexivity|].
  rewrite IH. apply Hins.
Qed.
End SortAgain.

(** ** The three orders *)

Lemma newestFirst_total (a b : Habit.t) :
  Z.compare (Habit.createdAt b) (Habit.createdAt a) = Gt ->
  Z.compare (Habit.createdAt a) (Habit.createdAt b) <> Gt.
Proof. rewrite !Z.compare_gt_iff. lia. Qed.

Lemma newestFirst_trans (a b c : Habit.t) :
  Z.compare (Habit.createdAt b) (Habit.createdAt a) <> Gt ->
  Z.compare (Habit.createdAt c) (Habit.createdAt b) <> Gt ->
  Z.compare (Habit.createdAt c) (Habit.createdAt a) <> Gt.
Proof. rewrite !Z.compare_gt_iff. lia. Qed.

(** ** The order of dates and start times under a collation *)

Section CollatedEvents.
Variable collate : string -> string -> comparison.
Hypothesis collation : isCollation collate.
Variable events : list CalendarEvent.t.
Hypothesis apart : datesApart collate events.

Lemma collate_refl (x : string) : collate x x = Eq.
Proof.
  destruct collation as [Hopp _]. pose proof (Hopp x x) as H.
  destruct (collate x x); [reflexivity|discriminate H|discriminate H].
Qed.

Lemma collate_total (x y : string) : collate x y = Gt -> collate y x <> Gt.
Proof.
  destruct collation as [Hopp _]. intros H. rewrite (Hopp x y), H. discriminate.
Qed.

Lemma collate_lt_trans (x y z : string) :
  collate x y = Lt -> collate y z = Lt -> collate x z = Lt.
Proof.
  destruct collation as [Hopp Htrans]. intros H1 H2.
  assert (Hle : collate x z <> Gt).
  { apply (Htrans x y z); [rewrite H1|rewrite H2]; discriminate. }
  destruct (collate x z) eqn:E; [|reflexivity|congruence].
  exfalso.
  assert (Hzx : collate z x <> Gt) by (rewrite (Hopp x z), E; discriminate).
  assert (Hxy : collate x y <> Gt) by (rewrite H1; discriminate).
  pose proof (Htrans z x y Hzx Hxy) as Hzy.
  apply Hzy. rewrite (Hopp y z), H2. reflexivity.
Qed.

Lemma compareDateThenStart_byDateThenStart (a b : CalendarEvent.t) :
  In a events -> In b events ->
  compareDateThenStart collate a b <> Gt <-> byDateThenStart collate a b.
Proof.
  intros Ha Hb. unfold compareDateThenStart, byDateThenStart.
  destruct (String.eqb_spec (CalendarEvent.date a) (CalendarEvent.date b)) as [E|N];
    cbn [negb].
  - split; [intros H; right; auto|].
    intros [H|[_ H]]; [|exact H].
    rewrite E, collate_refl in H. discriminate H.
  - destruct (collate (CalendarEvent.date a) (CalendarEvent.date b)) eqn:C.
    + exfalso. apply N. apply apart; assumption.
    + split; [auto|discriminate].
    + split; [congruence|]. intros [H|[H _]]; [discriminate|contradiction].
Qed.

Lemma compareDateThenStart_total_with (a b : CalendarEvent.t) :
  compareDateThenStart collate a b = Gt -> compareDateThenStart collate b a <> Gt.
Proof.
  unfold compareDateThenStart.
  destruct (String.eqb_spec (CalendarEvent.date a) (CalendarEvent.date b)) as [E|N];
    cbn [negb]; intros H.
  - rewrite E, String.eqb_refl. cbn [negb]. apply collate_total. exact H.
  - destruct (String.eqb_spec (CalendarEvent.date b) (CalendarEvent.date a)) as [E'|N'];
      [congruence|]. cbn [negb]. apply collate_total. exact H.
Qed.

Lemma compareDateThenStart_trans_on (a b c : CalendarEvent.t) :
  In a events -> In b events -> In c events ->
  compareDateThenStart collate a b <> Gt -> compareDateThenStart collate b c <> Gt ->
  compareDateThenStart collate a c <> Gt.
Proof.
  intros Ha Hb Hc.
  rewrite !compareDateThenStart_byDateThenStart by assumption.
  destruct collation as [_ Htrans]. unfold byDateThenStart.
  intros [H1|[E1 S1]] [H2|[E2 S2]].
  - left. eapply collate_lt_trans; eauto.
  - left. rewrite <- E2. exact H1.
  - left. rewrite E1. exact H2.
  - right. split; [congruence|]. eapply Htrans; eauto.
Qed.
End CollatedEvents.

Lemma localeCompare_isCollation : isCollation localeCompare.
Proof.
  split.
  - intros x y. unfold localeCompare. apply String.compare_antisym.
  - intros x y z. apply strLe_trans.
Qed.

Section AscendingByKey.
Variable A : Type.
Variable key : A -> string.

Lemma byKey_total (x y : A) :
  localeCompare (key x) (key y) = Gt -> localeCompare (key y) (key x) <> Gt.
Proof. apply strLe_of_gt. Qed.

Lemma byKey_trans (x y z : A) :
  localeCompare (key x) (key y) <> Gt -> localeCompare (key y) (key z) <> Gt ->
  localeCompare (key x) (key z) <> Gt.
Proof. apply strLe_trans. Qed.
End AscendingByKey.

(* ================================================================== *)
(** * The queries of habits *)
(* ================================================================== *)

Lemma getHabits_In (userId : Id) (db : DB) (h : Habit.t) :
  In h (getHabits userId db) <-> In h (habits db) /\ Habit.userId h = userId.
Proof.
  unfold getHabits. rewrite sortBy_In. unfold habitsOfUser.
  rewrite filter_In, Nat.eqb_eq. reflexivity.
Qed.

Lemma getActiveHabits_In (collate : string -> string -> comparison) (userId : Id)
      (db : DB) (h : Habit.t) :
  In h (getActiveHabits collate userId db) <->
  In h (habits db) /\ Habit.userId h = userId /\ Habit.isActive h = true.
Proof.
  unfold getActiveHabits. rewrite sortBy_In. unfold habitsOfUser.
  rewrite !filter_In, Nat.eqb_eq. tauto.
Qed.

(** X1.  [getHabits] returns the habits of the user and no other, each as
    often as the table holds it, with the newest first: no habit stands
    before one that was created later. *)
Theorem getHabits_newest_first :
  forall (userId : Id) (db : DB),
    Permutation (getHabits userId db) (habitsOfUser userId db) /\
    (forall h, In h (getHabits userId db) <->
               In h (habits db) /\ Habit.userId h = userId) /\
    StronglySorted (fun a b => Habit.createdAt b <= Habit.createdAt a)
                   (getHabits userId db).
Proof.
  intros userId db. split; [apply sortBy_perm|]. split; [apply getHabits_In|].
  unfold getHabits.
  pose proof (@sortBy_sorted _
    (fun a b => Z.compare (Habit.createdAt b) (Habit.createdAt a))
    newestFirst_total newestFirst_trans (habitsOfUser userId db)) as Hs.
  induction Hs as [|a l _ IH Ha]; constructor; [exact IH|].
  eapply Forall_impl; [|exact Ha]. intros b Hb. unfold notAfter in Hb.
  rewrite Z.compare_gt_iff in Hb. lia.
Qed.

(** X2.  Whatever the collation of names is, [getActiveHabits] returns
    exactly the habits of the user that are active, each as often as the
    table holds it; and when the collation is a total preorder the result
    is in ascending order of the names: no habit stands before one whose
    name the collation puts first. *)
Theorem getActiveHabits_active_by_name :
  forall (collate : string -> string -> comparison) (userId : Id) (db : DB),
    Permutation (getActiveHabits collate userId db)
                (filter (fun h => Habit.isActive h) (habitsOfUser userId db)) /\
    (forall h, In h (getActiveHabits collate userId db) <->
               In h (habits db) /\ Habit.userId h = userId /\ Habit.isActive h = true) /\
    ((forall x y, collate x y = Gt -> collate y x <> Gt) ->
     (forall x y z, collate x y <> Gt -> collate y z <> Gt -> collate x z <> Gt) ->
     StronglySorted (fun a b => collate (Habit.name a) (Habit.name b) <> Gt)
                    (getActiveHabits collate userId db)).
Proof.
  intros collate userId db. split; [apply sortBy_perm|].
  split; [apply getActiveHabits_In|]. intros Htotal Htrans.
  apply (@sortBy_sorted _ (fun a b => collate (Habit.name a) (Habit.name b))).
  - intros x y. apply Htotal.
  - intros x y z. apply Htrans.
Qed.

Lemma getActiveHabits_active_by_name_witness :
  let db := snd (handleCreateHabit nextDayClock gymPage readForm
                                   (execAll gymCalls emptyDB)) in
  map Habit.name (habitsOfUser 7 (fst (runMutation (updateHabit switchOffGym) db)))
  = ["Gym"; "Read"] /\
  map Habit.name (getActiveHabits localeCompare 7
                    (fst (runMutation (updateHabit switchOffGym) db)))
  = ["Read"] /\
  StronglySorted (fun a b => strLe (Habit.name a) (Habit.name b))
                 (getActiveHabits localeCompare 7 db).
Proof.
  intros db. split; [reflexivity|]. split; [reflexivity|].
  destruct (getActiveHabits_active_by_name localeCompare 7 db) as [_ [_ Hsorted]].
  apply Hsorted.
  - intros x y. apply strLe_of_gt.
  - intros x y z. apply strLe_trans.
Defined.

(** X3.  Switching an existing habit off with [updateHabit] takes it out
    of [getActiveHabits] of every user and leaves it in [getHabits] of its
    owner, with its streaks as they were. *)
Theorem deactivated_habit_is_listed_not_active :
  forall (db : DB) (args : UpdateHabitArgs.t) (h : Habit.t),
    tbl_get Habit._id (UpdateHabitArgs.habitId args) (habits db) = Some h ->
    UpdateHabitArgs.isActive args = Some false ->
    let db' := fst (runMutation (updateHabit args) db) in
    (forall collate u x, In x (getActiveHabits collate u db') ->
                         Habit._id x <> UpdateHabitArgs.habitId args) /\
    exists h', In h' (getHabits (Habit.userId h) db') /\
               Habit._id h' = UpdateHabitArgs.habitId args /\
               Habit.isActive h' = false /\
               Habit.currentStreak h' = Habit.currentStreak h /\
               Habit.bestStreak h' = Habit.bestStreak h.
Proof.
  intros db args h G Hoff db'.
  assert (Hdb : habits db' = tbl_patch Habit._id (UpdateHabitArgs.habitId args)
                  (Habit.patch (UpdateHabitArgs.cleanUpdates args)) (habits db)).
  { unfold db', runMutation, updateHabit, bind, patch_habit, ret. rewrite G. reflexivity. }
  assert (Hp : forall y, habitUpdated args y
                 (Habit.patch (UpdateHabitArgs.cleanUpdates args) y))
    by (intros y; apply habit_patch_cleanUpdates).
  split.
  - intros collate u x Hin Hid. apply getActiveHabits_In in Hin.
    destruct Hin as [Hin [_ Hact]]. rewrite Hdb in Hin. unfold tbl_patch in Hin.
    apply in_map_iff in Hin. destruct Hin as [y [Hy _]].
    destruct (Nat.eqb (Habit._id y) (UpdateHabitArgs.habitId args)) eqn:E.
    + subst x. destruct (Hp y) as [_ [_ [_ [_ [_ [_ [_ [_ [_ [_ [_ [_ Ha]]]]]]]]]]]].
      rewrite Hoff in Ha. congruence.
    + subst x. apply Nat.eqb_neq in E. contradiction.
  - apply tbl_get_some in G. destruct G as [Hin Hid].
    exists (Habit.patch (UpdateHabitArgs.cleanUpdates args) h).
    destruct (Hp h) as [H1 [H2 [H3 [H4 [_ [_ [_ [_ [_ [_ [_ [_ Ha]]]]]]]]]]]].
    rewrite Hoff in Ha. split.
    + apply getHabits_In. split; [|exact H2].
      rewrite Hdb. unfold tbl_patch. apply in_map_iff. exists h.
      rewrite Hid, Nat.eqb_refl. auto.
    + rewrite H1. auto.
Qed.

Lemma deactivated_habit_is_listed_not_active_witness :
  let db := execAll gymCalls emptyDB in
  let db' := fst (runMutation (updateHabit switchOffGym) db) in
  getActiveHabits localeCompare 7 db = [gymHabit 1 1] /\
  getActiveHabits localeCompare 7 db' = [] /\
  (forall collate u x, In x (getActiveHabits collate u db') -> Habit._id x <> 0%nat) /\
  exists h', In h' (getHabits 7 db') /\ Habit._id h' = 0%nat /\
             Habit.isActive h' = false /\
             Habit.currentStreak h' = 1 /\ Habit.bestStreak h' = 1.
Proof.
  intros db db'. split; [reflexivity|]. split; [reflexivity|].
  exact (@deactivated_habit_is_listed_not_active db switchOffGym (gymHabit 1 1)
           eq_refl eq_refl).
Defined.

(** ** [getHabitStats] *)

Lemma string_leb_strLe (a b : string) : String.leb a b = true <-> strLe a b.
Proof.
  unfold String.leb, strLe, localeCompare.
  destruct (String.compare a b); split; intros H; try reflexivity;
    try discriminate; congruence.
Qed.

Lemma dateWithin_bounds (startDate endDate d : string) :
  dateWithin startDate endDate d = true <-> strLe startDate d /\ strLe d endDate.
Proof.
  unfold dateWithin. rewrite andb_true_iff, !string_leb_strLe. reflexivity.
Qed.

(** No date lies in a range whose end is before its start. *)
Lemma dateWithin_inverted (startDate endDate d : string) :
  String.ltb endDate startDate = true -> dateWithin startDate endDate d = false.
Proof.
  intros Hlt. destruct (dateWithin startDate endDate d) eqn:E; [|reflexivity].
  apply dateWithin_bounds in E. destruct E as [H1 H2].
  pose proof (strLe_trans H1 H2) as H. unfold strLe, localeCompare in H.
  unfold String.ltb in Hlt. rewrite String.compare_antisym in H.
  destruct (String.compare endDate startDate); try discriminate.
  exfalso. apply H. reflexivity.
Qed.

Lemma filter_none {A} (p : A -> bool) (l : list A) :
  (forall x, In x l -> p x = false) -> filter p l = [].
Proof.
  induction l as [|x l IH]; intros H; cbn [filter]; [reflexivity|].
  rewrite (H x (or_introl eq_refl)). apply IH. intros y Hy. apply H. right. exact Hy.
Qed.

(** X4.  In the result of [getHabitStats] the completed count is between
    zero and the total, and the total is at most the number of logs of the
    habit; when no log falls in the range the percentage is zero and
    nothing is divided; and a range whose end is before its start gives
    zero for all three. *)
Theorem getHabitStats_counts :
  forall (Math_round_percent : Z -> Z -> Z) (habitId : Id)
         (startDate endDate : string) (db : DB),
    let stats := getHabitStats Math_round_percent habitId startDate endDate db in
    0 <= stats_completed stats <= stats_total stats /\
    stats_total stats <= Z.of_nat (List.length (logsOfHabit habitId db)) /\
    (stats_total stats = 0 -> stats_percentage stats = 0) /\
    (String.ltb endDate startDate = true -> stats = mkHabitStats 0 0 0).
Proof.
  intros round habitId startDate endDate db stats. subst stats.
  unfold getHabitStats. cbn [stats_completed stats_total stats_percentage].
  set (logs := logsOfHabit habitId db).
  set (fl := filter (fun log => dateWithin startDate endDate (HabitLog.date log)) logs).
  pose proof (filter_length_le (fun log => HabitLog.completed log) fl) as H1.
  pose proof (filter_length_le
                (fun log => dateWithin startDate endDate (HabitLog.date log)) logs) as H2.
  fold fl in H2.
  split; [lia|]. split; [lia|]. split.
  - intros H0. rewrite H0. reflexivity.
  - intros Hinv.
    assert (E : fl = []).
    { unfold fl. apply filter_none. intros x _. apply dateWithin_inverted. exact Hinv. }
    rewrite E. reflexivity.
Qed.

Lemma getHabitStats_counts_witness :
  let db := execAll tenLogCalls emptyDB in
  getHabitStats roundHalfUp 0 "2024-01-02" "2024-01-04" db = mkHabitStats 3 3 100 /\
  String.ltb "2024-01-01" "2024-01-10" = true /\
  getHabitStats roundHalfUp 0 "2024-01-10" "2024-01-01" db = mkHabitStats 0 0 0 /\
  stats_percentage (getHabitStats roundHalfUp 0 "2025-01-01" "2025-12-31" db) = 0.
Proof.
  intros db.
  destruct (getHabitStats_counts roundHalfUp 0 "2024-01-10" "2024-01-01" db)
    as [_ [_ [_ Hinv]]].
  destruct (getHabitStats_counts roundHalfUp 0 "2025-01-01" "2025-12-31" db)
    as [_ [_ [Hzero _]]].
  split; [vm_compute; reflexivity|]. split; [reflexivity|].
  split; [exact (Hinv eq_refl)|exact (Hzero eq_refl)].
Defined.

(* ================================================================== *)
(** * The toggle of the habits page *)
(* ================================================================== *)

Lemma existsb_filter {A} (f g : A -> bool) (l : list A) :
  existsb f (filter g l) = existsb (fun x => g x && f x) l.
Proof.
  induction l as [|x l IH]; cbn [filter existsb]; [reflexivity|].
  destruct (g x); cbn [existsb andb]; rewrite IH; reflexivity.
Qed.

Lemma existsb_same {A} (f g : A -> bool) (l : list A) :
  (forall x, f x = g x) -> existsb f l = existsb g l.
Proof.
  intros H. induction l as [|x l IH]; cbn [existsb]; [reflexivity|].
  rewrite H, IH. reflexivity.
Qed.

(** What the page shows for a habit, read off the logs of the habit on the
    client's day. *)
Lemma isHabitCompletedToday_logs (p : HabitsPage) (db : DB) (habitId userId : Id) :
  hp_convexUserId p = Some userId ->
  isHabitCompletedToday p db habitId =
  existsb (fun l => Nat.eqb (HabitLog.userId l) userId && HabitLog.completed l)
          (logsOfHabitOn habitId (hp_today p) db).
Proof.
  intros Hu. unfold isHabitCompletedToday, todayLogs, getHabitLogsByDate, logsOfHabitOn.
  rewrite Hu, !existsb_filter. apply existsb_same. intros x.
  destruct (Nat.eqb (HabitLog.userId x) userId);
    destruct (String.eqb (HabitLog.date x) (hp_today p));
    destruct (Nat.eqb (HabitLog.habitId x) habitId);
    destruct (HabitLog.completed x); reflexivity.
Qed.

Lemma toggle_once (clk : Clock) (p : HabitsPage) (habitId userId : Id) (db : DB) :
  hp_convexUserId p = Some userId ->
  uniqueLogs db ->
  (forall l, In l (logsOfHabitOn habitId (hp_today p) db) -> HabitLog.userId l = userId) ->
  let db' := handleToggleCompletion clk p habitId db in
  isHabitCompletedToday p db' habitId = negb (isHabitCompletedToday p db habitId) /\
  uniqueLogs db' /\
  (forall l, In l (logsOfHabitOn habitId (hp_today p) db') -> HabitLog.userId l = userId).
Proof.
  intros Hu Huniq Hown db'.
  set (args := LogHabitCompletionArgs.mk habitId userId (hp_today p)
                 (negb (isHabitCompletedToday p db habitId)) None).
  destruct (logHabitCompletion_write clk args Huniq) as [d [Hrun Hlogs]].
  assert (Edb : db' = d).
  { unfold db', handleToggleCompletion. rewrite Hu. fold args. rewrite Hrun. reflexivity. }
  cbn [LogHabitCompletionArgs.habitId LogHabitCompletionArgs.date args] in Hlogs.
  assert (Howner : HabitLog.userId (logAfterWrite clk args db) = userId).
  { unfold logAfterWrite.
    cbn [LogHabitCompletionArgs.habitId LogHabitCompletionArgs.date
         LogHabitCompletionArgs.userId args].
    destruct (logsOfHabitOn habitId (hp_today p) db) as [|old rest] eqn:E;
      [reflexivity|].
    cbn [HabitLog.userId]. apply Hown. left. reflexivity. }
  assert (Hdone : HabitLog.completed (logAfterWrite clk args db)
                  = negb (isHabitCompletedToday p db habitId)).
  { unfold logAfterWrite.
    destruct (logsOfHabitOn _ _ db) as [|old rest]; reflexivity. }
  rewrite Edb. split; [|split].
  - rewrite (isHabitCompletedToday_logs p d habitId Hu), Hlogs.
    cbn [existsb]. rewrite Howner, Nat.eqb_refl, Hdone.
    destruct (isHabitCompletedToday p db habitId); reflexivity.
  - pose proof (exec_uniqueLogs (CallLogHabitCompletion clk args) Huniq) as H.
    cbn [exec] in H. rewrite Hrun in H. exact H.
  - intros l Hl. rewrite Hlogs in Hl. destruct Hl as [<-|[]]. exact Howner.
Qed.

(** X5.  On a store with at most one log per habit and date, where the log
    of the habit on the client's day, if there is one, is the user's, a
    click on the habit turns what [isHabitCompletedToday] shows into its
    opposite, and a second click brings the first value back. *)
Theorem toggle_flips_completion :
  forall (clk clk' : Clock) (p : HabitsPage) (habitId userId : Id) (db : DB),
    hp_convexUserId p = Some userId ->
    uniqueLogs db ->
    (forall l, In l (logsOfHabitOn habitId (hp_today p) db) ->
               HabitLog.userId l = userId) ->
    let db1 := handleToggleCompletion clk p habitId db in
    let db2 := handleToggleCompletion clk' p habitId db1 in
    isHabitCompletedToday p db1 habitId = negb (isHabitCompletedToday p db habitId) /\
    isHabitCompletedToday p db2 habitId = isHabitCompletedToday p db habitId.
Proof.
  intros clk clk' p habitId userId db Hu Huniq Hown db1 db2.
  destruct (@toggle_once clk p habitId userId db Hu Huniq Hown) as [H1 [Hu1 Hown1]].
  fold db1 in H1, Hu1, Hown1.
  destruct (@toggle_once clk' p habitId userId db1 Hu Hu1 Hown1) as [H2 _].
  fold db2 in H2. split; [exact H1|].
  rewrite H2, H1. apply negb_involutive.
Qed.

Lemma toggle_flips_completion_witness :
  let db := execAll gymCalls emptyDB in
  let db1 := handleToggleCompletion sampleClock gymPage 0 db in
  let db2 := handleToggleCompletion sampleClock gymPage 0 db1 in
  isHabitCompletedToday gymPage db 0 = true /\
  isHabitCompletedToday gymPage db1 0 = false /\
  isHabitCompletedToday gymPage db2 0 = true.
Proof.
  intros db db1 db2.
  assert (Huniq : uniqueLogs db).
  { apply execAll_uniqueLogs. intros h d. simpl. lia. }
  assert (Hown : forall l, In l (logsOfHabitOn 0 (hp_today gymPage) db) ->
                           HabitLog.userId l = 7%nat).
  { intros l [<-|[]]. reflexivity. }
  destruct (@toggle_flips_completion sampleClock sampleClock gymPage 0%nat 7%nat db
              eq_refl Huniq Hown) as [H1 H2].
  split; [reflexivity|]. split; [exact H1|exact H2].
Defined.

(* ================================================================== *)
(** * The queries of events *)
(* ================================================================== *)

(** Elements that the comparator does not tell apart stay as they are. *)
Lemma sortBy_ties {A} (cmp : A -> A -> comparison) (l : list A) :
  (forall x y, In x l -> In y l -> cmp x y <> Gt) -> sortBy cmp l = l.
Proof.
  induction l as [|x l IH]; intros H; cbn [sortBy]; [reflexivity|].
  rewrite IH by (intros; apply H; right; assumption).
  destruct l as [|y l]; cbn [insertBy]; [reflexivity|].
  destruct (cmp x y) eqn:E; try reflexivity.
  exfalso. apply (H x y); [left; reflexivity|right; left; reflexivity|exact E].
Qed.

Lemma getEventsByDate_In (collate : string -> string -> comparison) (userId : Id)
      (d : string) (db : DB) (e : CalendarEvent.t) :
  In e (getEventsByDate collate userId d db) <->
  In e (calendarEvents db) /\ CalendarEvent.userId e = userId /\ CalendarEvent.date e = d.
Proof.
  unfold getEventsByDate. rewrite sortBy_In. unfold eventsOfUserOn.
  rewrite filter_In, andb_true_iff, Nat.eqb_eq, String.eqb_eq. tauto.
Qed.

Section ByStart.
Variable collate : string -> string -> comparison.
Hypothesis collate_total : forall x y, collate x y = Gt -> collate y x <> Gt.
Hypothesis collate_trans :
  forall x y z, collate x y <> Gt -> collate y z <> Gt -> collate x z <> Gt.

Lemma byStart_sorted (l : list CalendarEvent.t) :
  StronglySorted
    (fun a b => collate (CalendarEvent.startTime a) (CalendarEvent.startTime b) <> Gt)
    (sortBy (fun a b => collate (CalendarEvent.startTime a)
                                (CalendarEvent.startTime b)) l).
Proof.
  apply (@sortBy_sorted _
           (fun a b => collate (CalendarEvent.startTime a) (CalendarEvent.startTime b))).
  - intros x y. apply collate_total.
  - intros x y z. apply collate_trans.
Qed.

(** The same events in the same order, whatever is filtered first. *)
Lemma filter_getEventsByDate (p : CalendarEvent.t -> bool) (userId : Id) (d : string)
      (db : DB) :
  filter p (getEventsByDate collate userId d db) =
  sortBy (fun a b => collate (CalendarEvent.startTime a) (CalendarEvent.startTime b))
         (filter p (eventsOfUserOn userId d db)).
Proof.
  unfold getEventsByDate.
  apply (@filter_sortBy _
           (fun a b => collate (CalendarEvent.startTime a) (CalendarEvent.startTime b))).
  - intros x y. apply collate_total.
  - intros x y z. apply collate_trans.
Qed.
End ByStart.

(** X6.  Whatever the collation of start times is, [getEventsByDate]
    returns the events of the user on the date and no other, each as often
    as the table holds it; and when the collation is a total preorder the
    result is in ascending order of the start times under it, and events
    with one start time keep the order of their creation. *)
Theorem getEventsByDate_by_start_stable :
  forall (collate : string -> string -> comparison) (userId : Id) (d : string)
         (db : DB),
    Permutation (getEventsByDate collate userId d db) (eventsOfUserOn userId d db) /\
    (forall e, In e (getEventsByDate collate userId d db) <->
               In e (calendarEvents db) /\ CalendarEvent.userId e = userId /\
               CalendarEvent.date e = d) /\
    ((forall x y, collate x y = Gt -> collate y x <> Gt) ->
     (forall x y z, collate x y <> Gt -> collate y z <> Gt -> collate x z <> Gt) ->
     StronglySorted
       (fun a b => collate (CalendarEvent.startTime a) (CalendarEvent.startTime b) <> Gt)
       (getEventsByDate collate userId d db) /\
     (forall t,
         filter (fun e => String.eqb (CalendarEvent.startTime e) t)
                (getEventsByDate collate userId d db) =
         filter (fun e => String.eqb (CalendarEvent.startTime e) t)
                (eventsOfUserOn userId d db))).
Proof.
  intros collate userId d db. split; [apply sortBy_perm|].
  split; [apply getEventsByDate_In|]. intros Htotal Htrans.
  split; [apply byStart_sorted; assumption|].
  intros t. rewrite (@filter_getEventsByDate collate Htotal Htrans). apply sortBy_ties.
  intros x y Hx Hy. apply filter_In in Hx. apply filter_In in Hy.
  destruct Hx as [_ Hx]. destruct Hy as [_ Hy].
  apply String.eqb_eq in Hx. apply String.eqb_eq in Hy.
  rewrite Hx, Hy. intros Hgt. exact (Htotal t t Hgt Hgt).
Qed.

Lemma getEventsByDate_by_start_stable_witness :
  map CalendarEvent._id (eventsOfUserOn 7 "2024-06-03" weekDB) = [1; 3; 4]%nat /\
  map CalendarEvent._id (getEventsByDate localeCompare 7 "2024-06-03" weekDB)
  = [3; 1; 4]%nat /\
  StronglySorted
    (fun a b => strLe (CalendarEvent.startTime a) (CalendarEvent.startTime b))
    (getEventsByDate localeCompare 7 "2024-06-03" weekDB).
Proof.
  split; [reflexivity|]. split; [reflexivity|].
  destruct (getEventsByDate_by_start_stable localeCompare 7 "2024-06-03" weekDB)
    as [_ [_ Hsorted]].
  destruct Hsorted as [Hs _]; [| |exact Hs].
  - intros x y. apply strLe_of_gt.
  - intros x y z. apply strLe_trans.
Defined.

Lemma getEventsByDateRange_In (collate : string -> string -> comparison) (userId : Id)
      (startDate endDate : string) (db : DB) (e : CalendarEvent.t) :
  In e (getEventsByDateRange collate userId startDate endDate db) <->
  In e (calendarEvents db) /\ CalendarEvent.userId e = userId /\
  dateWithin startDate endDate (CalendarEvent.date e) = true.
Proof.
  unfold getEventsByDateRange. rewrite sortBy_In, !filter_In, Nat.eqb_eq. tauto.
Qed.

(** X7.  Whatever the collation is, [getEventsByDateRange] returns the
    events of the user whose date is between the two bounds, both
    included, in the comparison of strings, and no other; and a range
    whose end is before its start gives no event.  When the collation
    compares the same way in both directions, is transitive and tells the
    dates of the events in the table apart, the result is ordered by date
    and, on one date, by start time under it. *)
Theorem getEventsByDateRange_within_in_order :
  forall (collate : string -> string -> comparison) (userId : Id)
         (startDate endDate : string) (db : DB),
    (forall e, In e (getEventsByDateRange collate userId startDate endDate db) <->
               In e (calendarEvents db) /\ CalendarEvent.userId e = userId /\
               dateWithin startDate endDate (CalendarEvent.date e) = true) /\
    (String.ltb endDate startDate = true ->
     getEventsByDateRange collate userId startDate endDate db = []) /\
    (isCollation collate -> datesApart collate (calendarEvents db) ->
     StronglySorted (byDateThenStart collate)
                    (getEventsByDateRange collate userId startDate endDate db)).
Proof.
  intros collate userId startDate endDate db.
  split; [apply getEventsByDateRange_In|]. split.
  - intros Hinv. unfold getEventsByDateRange.
    rewrite (@filter_none _ (fun event => dateWithin startDate endDate
                                                     (CalendarEvent.date event)));
      [reflexivity|].
    intros x _. apply dateWithin_inverted. exact Hinv.
  - intros Hcol Hapart.
    assert (Hin : forall e, In e (getEventsByDateRange collate userId startDate endDate db)
                            -> In e (calendarEvents db)).
    { intros e He. apply getEventsByDateRange_In in He. tauto. }
    apply (@StronglySorted_on _ (notAfter (compareDateThenStart collate))).
    + intros a b Ha Hb Hab.
      apply (@compareDateThenStart_byDateThenStart collate Hcol (calendarEvents db)
               Hapart a b); auto.
    + unfold getEventsByDateRange.
      apply (@sortBy_sorted_on _ (compareDateThenStart collate)
               (fun e => In e (calendarEvents db))).
      * intros x y _ _. apply (@compareDateThenStart_total_with collate Hcol).
      * intros x y z Hx Hy Hz.
        apply (@compareDateThenStart_trans_on collate Hcol (calendarEvents db) Hapart);
          assumption.
      * apply Forall_forall. intros e He. apply filter_In in He.
        destruct He as [He _]. apply filter_In in He. tauto.
Qed.

Lemma getEventsByDateRange_within_in_order_witness :
  map CalendarEvent._id
      (getEventsByDateRange localeCompare 7 "2024-06-03" "2024-06-09" weekDB)
  = [3; 1; 4; 0]%nat /\
  StronglySorted (byDateThenStart localeCompare)
                 (getEventsByDateRange localeCompare 7 "2024-06-03" "2024-06-09" weekDB) /\
  getEventsByDateRange localeCompare 7 "2024-06-09" "2024-06-03" weekDB = [].
Proof.
  destruct (getEventsByDateRange_within_in_order localeCompare 7
              "2024-06-03" "2024-06-09" weekDB) as [_ [_ Hsorted]].
  destruct (getEventsByDateRange_within_in_order localeCompare 7
              "2024-06-09" "2024-06-03" weekDB) as [_ [Hinverted _]].
  split; [reflexivity|]. split; [|exact (Hinverted eq_refl)].
  apply Hsorted; [apply localeCompare_isCollation|].
  intros a b _ _ H. apply string_compare_eq. exact H.
Defined.

(** For a collation that orders the dates and start times of the table,
    the events of one day are taken out of the week in the order of the
    day. *)
Lemma getEventsForDate_getEventsByDateRange
      (collate : string -> string -> comparison) (userId : Id)
      (startDate endDate dateStr : string) (db : DB) :
  isCollation collate -> datesApart collate (calendarEvents db) ->
  getEventsForDate
    (Some (getEventsByDateRange collate userId startDate endDate db)) dateStr =
  if dateWithin startDate endDate dateStr
  then getEventsByDate collate userId dateStr db
  else [].
Proof.
  intros Hcol Hapart.
  unfold getEventsForDate, getEventsByDateRange, getEventsByDate, eventsOfUserOn.
  rewrite (@filter_sortBy_on _ (compareDateThenStart collate)
             (fun e => In e (calendarEvents db))).
  2:{ intros x y _ _. apply (@compareDateThenStart_total_with collate Hcol). }
  2:{ intros x y z Hx Hy Hz.
      apply (@compareDateThenStart_trans_on collate Hcol (calendarEvents db) Hapart);
        assumption. }
  2:{ apply Forall_forall. intros e He. apply filter_In in He.
      destruct He as [He _]. apply filter_In in He. tauto. }
  rewrite !filter_twice.
  destruct (dateWithin startDate endDate dateStr) eqn:W.
  - match goal with |- sortBy _ (filter ?f _) = sortBy _ (filter ?g _) =>
      rewrite (@filter_ext _ f g) end.
    + apply sortBy_ext. intros x y Hx Hy.
      apply filter_In in Hx. apply filter_In in Hy.
      destruct Hx as [_ Hx]. destruct Hy as [_ Hy].
      apply andb_true_iff in Hx. apply andb_true_iff in Hy.
      destruct Hx as [_ Hx]. destruct Hy as [_ Hy].
      unfold compareDateThenStart. apply String.eqb_eq in Hx.
      apply String.eqb_eq in Hy. rewrite Hx, Hy, String.eqb_refl. reflexivity.
    + intros x. cbv beta.
      destruct (String.eqb_spec (CalendarEvent.date x) dateStr) as [E|N].
      * rewrite E, W. destruct (Nat.eqb (CalendarEvent.userId x) userId); reflexivity.
      * rewrite !andb_false_r. reflexivity.
  - rewrite filter_none; [reflexivity|].
    intros x _. cbv beta.
    destruct (String.eqb_spec (CalendarEvent.date x) dateStr) as [E|N].
    + rewrite E, W. cbn [andb]. apply andb_false_r.
    + rewrite !andb_false_r. reflexivity.
Qed.

Lemma localeCompare_datesApart (events : list CalendarEvent.t) :
  datesApart localeCompare events.
Proof. intros a b _ _ H. apply string_compare_eq. exact H. Qed.

(** X8.  On the calendar page, the events that [getEventsForDate] takes out
    of the week that [getEventsByDateRange] returned are, for a day between
    the bounds of the week, the list that [getEventsByDate] returns for that
    day, in the same order; for a day outside the bounds there are none.
    This holds for the order of the bytes, and for every collation that
    compares the same way in both directions, is transitive and tells the
    dates of the events in the table apart. *)
Theorem getEventsForDate_of_range :
  forall (userId : Id) (startDate endDate dateStr : string) (db : DB),
    getEventsForDate
      (Some (getEventsByDateRange localeCompare userId startDate endDate db)) dateStr =
    (if dateWithin startDate endDate dateStr
     then getEventsByDate localeCompare userId dateStr db
     else []) /\
    (forall collate : string -> string -> comparison,
        isCollation collate -> datesApart collate (calendarEvents db) ->
        getEventsForDate
          (Some (getEventsByDateRange collate userId startDate endDate db)) dateStr =
        if dateWithin startDate endDate dateStr
        then getEventsByDate collate userId dateStr db
        else []).
Proof.
  intros userId startDate endDate dateStr db. split.
  - apply getEventsForDate_getEventsByDateRange;
      [apply localeCompare_isCollation|apply localeCompare_datesApart].
  - intros collate. apply getEventsForDate_getEventsByDateRange.
Qed.

(* ================================================================== *)
(** * The mutations of events *)
(* ================================================================== *)

Lemma createEvent_run (clk : Clock) (args : CreateEventArgs.t) (db : DB) :
  runMutation (createEvent clk args) db =
  (mkDB (habits db) (habitLogs db)
        (calendarEvents db ++ [createEvent_document clk args (nextId db)])
        (S (nextId db)),
   Ok (nextId db)).
Proof. reflexivity. Qed.

Lemma tbl_get_counter_none (db : DB) :
  eventsFresh db ->
  tbl_get CalendarEvent._id (nextId db) (calendarEvents db) = None.
Proof.
  intros [Hlt _].
  destruct (tbl_get CalendarEvent._id (nextId db) (calendarEvents db)) eqn:E;
    [|reflexivity].
  apply tbl_get_some in E. destruct E as [Hin Hid].
  rewrite Forall_forall in Hlt. specialize (Hlt _ Hin). lia.
Qed.

Lemma eventsFresh_insert (db : DB) (e : CalendarEvent.t) :
  eventsFresh db -> CalendarEvent._id e = nextId db ->
  eventsFresh (mkDB (habits db) (habitLogs db) (calendarEvents db ++ [e])
                    (S (nextId db))).
Proof.
  intros [Hlt Hnd] He. split; cbn [calendarEvents nextId].
  - apply Forall_app. split.
    + eapply Forall_impl; [|exact Hlt]. intros x Hx. cbv beta in *. lia.
    + constructor; [lia|constructor].
  - eapply NoDup_map_app_fresh; eauto.
Qed.

(** X9.  On a store whose event identifiers are below the counter,
    [createEvent] returns the next identifier; a lookup of it finds the
    document of the arguments, not completed and stamped with the clock;
    every other lookup is as before; the new event is the last of its
    user's day in creation order, and the lists of the other days and users
    do not change, whatever the collation of start times is. *)
Theorem createEvent_then_lookup :
  forall (clk : Clock) (args : CreateEventArgs.t) (db : DB),
    eventsFresh db ->
    let e := createEvent_document clk args (nextId db) in
    let db' := fst (runMutation (createEvent clk args) db) in
    snd (runMutation (createEvent clk args) db) = Ok (nextId db) /\
    tbl_get CalendarEvent._id (nextId db) (calendarEvents db') = Some e /\
    (forall id, id <> nextId db ->
                tbl_get CalendarEvent._id id (calendarEvents db') =
                tbl_get CalendarEvent._id id (calendarEvents db)) /\
    eventsOfUserOn (CreateEventArgs.userId args) (CreateEventArgs.date args) db' =
    eventsOfUserOn (CreateEventArgs.userId args) (CreateEventArgs.date args) db ++ [e] /\
    (forall collate u d,
        u <> CreateEventArgs.userId args \/ d <> CreateEventArgs.date args ->
        getEventsByDate collate u d db' = getEventsByDate collate u d db) /\
    eventsFresh db'.
Proof.
  intros clk args db Hfresh e db'. subst db'. rewrite createEvent_run.
  cbn [fst snd calendarEvents]. split; [reflexivity|].
  split; [|split; [|split; [|split]]].
  - rewrite tbl_get_app_fresh, (tbl_get_counter_none Hfresh).
    subst e. cbn [createEvent_document CalendarEvent._id].
    rewrite Nat.eqb_refl. reflexivity.
  - intros id Hne. rewrite tbl_get_app_fresh.
    destruct (tbl_get CalendarEvent._id id (calendarEvents db)); [reflexivity|].
    subst e. cbn [createEvent_document CalendarEvent._id].
    destruct (Nat.eqb_spec (nextId db) id); [congruence|reflexivity].
  - unfold eventsOfUserOn. cbn [calendarEvents]. rewrite filter_app.
    subst e. cbn [filter createEvent_document CalendarEvent.userId CalendarEvent.date].
    rewrite Nat.eqb_refl, String.eqb_refl. reflexivity.
  - intros collate u d Hne. unfold getEventsByDate, eventsOfUserOn.
    cbn [calendarEvents]. rewrite filter_app. subst e.
    cbn [filter createEvent_document CalendarEvent.userId CalendarEvent.date].
    destruct (Nat.eqb_spec (CreateEventArgs.userId args) u) as [Eu|Nu];
      destruct (String.eqb_spec (CreateEventArgs.date args) d) as [Ed|Nd];
      cbn [andb]; try (rewrite app_nil_r; reflexivity).
    exfalso. destruct Hne as [H|H]; apply H; congruence.
  - apply eventsFresh_insert; [exact Hfresh|reflexivity].
Qed.

Lemma weekDB_fresh : eventsFresh weekDB.
Proof.
  split.
  - unfold weekDB. cbn [calendarEvents nextId].
    repeat (constructor; [cbn [weekEvent CalendarEvent._id]; lia|]). constructor.
  - vm_compute. repeat (apply NoDup_cons; [simpl; lia|]). apply NoDup_nil.
Qed.

Lemma createEvent_then_lookup_witness :
  let db' := fst (runMutation (createEvent sampleClock dinnerArgs) weekDB) in
  snd (runMutation (createEvent sampleClock dinnerArgs) weekDB) = Ok 5%nat /\
  option_map CalendarEvent.title (tbl_get CalendarEvent._id 5 (calendarEvents db'))
  = Some "Dinner" /\
  map CalendarEvent._id (getEventsByDate localeCompare 7 "2024-06-03" db')
  = [3; 1; 4; 5]%nat.
Proof.
  intros db'.
  destruct (@createEvent_then_lookup sampleClock dinnerArgs weekDB weekDB_fresh)
    as [Hid [Hget _]].
  split; [exact Hid|]. split; [|reflexivity].
  exact (f_equal (option_map CalendarEvent.title) Hget).
Defined.

Lemma deleteEvent_missing (eventId : Id) (db : DB) :
  tbl_get CalendarEvent._id eventId (calendarEvents db) = None ->
  exists msg, runMutation (deleteEvent eventId) db = (db, Throw msg).
Proof.
  intros H. unfold runMutation, deleteEvent, bind, delete_calendarEvent.
  rewrite H. eauto.
Qed.

Lemma deleteEvent_run (eventId : Id) (db : DB) (e : CalendarEvent.t) :
  tbl_get CalendarEvent._id eventId (calendarEvents db) = Some e ->
  runMutation (deleteEvent eventId) db =
  (mkDB (habits db) (habitLogs db)
        (tbl_delete CalendarEvent._id eventId (calendarEvents db)) (nextId db),
   Ok (mkSuccess true)).
Proof.
  intros H. unfold runMutation, deleteEvent, bind, delete_calendarEvent.
  rewrite H. reflexivity.
Qed.

Lemma getEventsByDate_after_delete (collate : string -> string -> comparison)
      (eventId : Id) (db : DB) (u : Id) (d : string) :
  (forall x y, collate x y = Gt -> collate y x <> Gt) ->
  (forall x y z, collate x y <> Gt -> collate y z <> Gt -> collate x z <> Gt) ->
  getEventsByDate collate u d
    (mkDB (habits db) (habitLogs db)
          (tbl_delete CalendarEvent._id eventId (calendarEvents db)) (nextId db)) =
  filter (fun x => negb (Nat.eqb (CalendarEvent._id x) eventId))
         (getEventsByDate collate u d db).
Proof.
  intros Htotal Htrans. rewrite (@filter_getEventsByDate collate Htotal Htrans).
  unfold getEventsByDate, eventsOfUserOn, tbl_delete.
  cbn [calendarEvents]. rewrite filter_filter_swap. reflexivity.
Qed.

(** X10.  [deleteEvent] on an identifier that no event has throws and
    leaves the database as it was.  On an event that exists it returns
    success; afterwards a lookup of the identifier finds nothing, every other
    lookup is as before, the list of every day is the former list without
    the event, in the same order, for the order of the bytes and for every
    collation of start times that is a total preorder, and habits and logs
    are not touched. *)
Theorem deleteEvent_removes_the_event :
  forall (eventId : Id) (db : DB),
    (tbl_get CalendarEvent._id eventId (calendarEvents db) = None ->
     exists msg, runMutation (deleteEvent eventId) db = (db, Throw msg)) /\
    (forall e, tbl_get CalendarEvent._id eventId (calendarEvents db) = Some e ->
       let db' := fst (runMutation (deleteEvent eventId) db) in
       snd (runMutation (deleteEvent eventId) db) = Ok (mkSuccess true) /\
       tbl_get CalendarEvent._id eventId (calendarEvents db') = None /\
       (forall id, id <> eventId ->
                   tbl_get CalendarEvent._id id (calendarEvents db') =
                   tbl_get CalendarEvent._id id (calendarEvents db)) /\
       (forall u d, getEventsByDate localeCompare u d db' =
                    filter (fun x => negb (Nat.eqb (CalendarEvent._id x) eventId))
                           (getEventsByDate localeCompare u d db)) /\
       (forall collate : string -> string -> comparison,
           (forall x y, collate x y = Gt -> collate y x <> Gt) ->
           (forall x y z, collate x y <> Gt -> collate y z <> Gt -> collate x z <> Gt) ->
           forall u d, getEventsByDate collate u d db' =
                       filter (fun x => negb (Nat.eqb (CalendarEvent._id x) eventId))
                              (getEventsByDate collate u d db)) /\
       habits db' = habits db /\ habitLogs db' = habitLogs db /\
       nextId db' = nextId db).
Proof.
  intros eventId db. split; [apply deleteEvent_missing|].
  intros e He db'. subst db'. rewrite (@deleteEvent_run eventId db e He).
  cbn [fst snd calendarEvents habits habitLogs nextId].
  split; [reflexivity|]. split; [apply tbl_get_delete_same|].
  split; [intros id Hne; apply tbl_get_delete_other; exact Hne|].
  split.
  { intros u d. apply getEventsByDate_after_delete.
    - intros x y. apply strLe_of_gt.
    - intros x y z. apply strLe_trans. }
  split.
  { intros collate Htotal Htrans u d.
    apply getEventsByDate_after_delete; assumption. }
  repeat split.
Qed.

Lemma deleteEvent_removes_the_event_witness :
  let db' := fst (runMutation (deleteEvent 1) weekDB) in
  map CalendarEvent._id (getEventsByDate localeCompare 7 "2024-06-03" db')
  = [3; 4]%nat /\
  tbl_get CalendarEvent._id 1 (calendarEvents db') = None /\
  exists msg, runMutation (deleteEvent 9) weekDB = (weekDB, Throw msg).
Proof.
  intros db'.
  destruct (deleteEvent_removes_the_event 1 weekDB) as [_ Hok].
  destruct (deleteEvent_removes_the_event 9 weekDB) as [Hmiss _].
  destruct (Hok _ eq_refl) as [_ [Hnone _]].
  split; [reflexivity|]. split; [exact Hnone|exact (Hmiss eq_refl)].
Defined.

Lemma tbl_delete_last (db : DB) (e : CalendarEvent.t) :
  eventsFresh db -> CalendarEvent._id e = nextId db ->
  tbl_delete CalendarEvent._id (nextId db) (calendarEvents db ++ [e]) =
  calendarEvents db.
Proof.
  intros [Hlt _] He. unfold tbl_delete. rewrite filter_app. cbn [filter].
  rewrite He, Nat.eqb_refl. cbn [negb]. rewrite app_nil_r.
  rewrite (@filter_ext_in _ _ (fun _ => true)); [apply filter_all|].
  intros x Hx. rewrite Forall_forall in Hlt. specialize (Hlt _ Hx).
  apply negb_true_iff. apply Nat.eqb_neq. lia.
Qed.

(** X11.  Creating an event and deleting the identifier that [createEvent]
    returned gives the events back as they were, so every day list is as
    before, whatever the collation; the counter has moved on, so the identifier is not given out
    again. *)
Theorem createEvent_then_deleteEvent :
  forall (clk : Clock) (args : CreateEventArgs.t) (db : DB),
    eventsFresh db ->
    let db1 := fst (runMutation (createEvent clk args) db) in
    let db2 := fst (runMutation (deleteEvent (nextId db)) db1) in
    snd (runMutation (deleteEvent (nextId db)) db1) = Ok (mkSuccess true) /\
    calendarEvents db2 = calendarEvents db /\
    (forall collate u d,
        getEventsByDate collate u d db2 = getEventsByDate collate u d db) /\
    nextId db2 = S (nextId db) /\
    snd (runMutation (createEvent clk args) db2) = Ok (S (nextId db)).
Proof.
  intros clk args db Hfresh db1 db2.
  assert (Hget : tbl_get CalendarEvent._id (nextId db) (calendarEvents db1)
                 = Some (createEvent_document clk args (nextId db))).
  { subst db1. rewrite createEvent_run. cbn [fst calendarEvents].
    rewrite tbl_get_app_fresh, (tbl_get_counter_none Hfresh).
    cbn [createEvent_document CalendarEvent._id]. rewrite Nat.eqb_refl. reflexivity. }
  subst db2. rewrite (@deleteEvent_run _ _ _ Hget). cbn [fst snd].
  assert (Hev : tbl_delete CalendarEvent._id (nextId db) (calendarEvents db1)
                = calendarEvents db).
  { subst db1. rewrite createEvent_run. cbn [fst calendarEvents].
    apply tbl_delete_last; [exact Hfresh|reflexivity]. }
  split; [reflexivity|]. cbn [calendarEvents nextId]. split; [exact Hev|].
  split; [|split].
  - intros collate u d. unfold getEventsByDate, eventsOfUserOn.
    cbn [calendarEvents]. rewrite Hev. reflexivity.
  - subst db1. rewrite createEvent_run. reflexivity.
  - rewrite createEvent_run. cbn [snd nextId]. subst db1.
    rewrite createEvent_run. reflexivity.
Qed.

Lemma createEvent_then_deleteEvent_witness :
  let db1 := fst (runMutation (createEvent sampleClock dinnerArgs) weekDB) in
  let db2 := fst (runMutation (deleteEvent 5) db1) in
  calendarEvents db2 = calendarEvents weekDB /\ nextId db2 = 6%nat.
Proof.
  intros db1 db2.
  destruct (@createEvent_then_deleteEvent sampleClock dinnerArgs weekDB weekDB_fresh)
    as [_ [Hev [_ [Hn _]]]].
  split; [exact Hev|exact Hn].
Defined.

(** Deleting a list of events one after the other. *)
Lemma delete_events_run (ls : list CalendarEvent.t) (db : DB) :
  NoDup (map CalendarEvent._id ls) ->
  (forall e, In e ls ->
             In (CalendarEvent._id e) (map CalendarEvent._id (calendarEvents db))) ->
  forEachM (fun event => delete_calendarEvent (CalendarEvent._id event)) ls db =
  Ok (map (fun _ => tt) ls,
      mkDB (habits db) (habitLogs db)
           (filter (fun d => negb (existsb (fun l => Nat.eqb (CalendarEvent._id d)
                                                             (CalendarEvent._id l)) ls))
                   (calendarEvents db))
           (nextId db)).
Proof.
  revert db. induction ls as [|l ls IH]; intros db Hnd Hin; cbn [forEachM map existsb].
  - unfold ret. cbn [negb]. rewrite filter_all. destruct db; reflexivity.
  - inversion Hnd as [|x xs Hnin Hnd']; subst.
    unfold bind at 1. unfold delete_calendarEvent at 1.
    assert (Hl : In (CalendarEvent._id l) (map CalendarEvent._id (calendarEvents db)))
      by (apply Hin; left; reflexivity).
    apply in_map_iff in Hl. destruct Hl as [d [Hd Hind]].
    destruct (@tbl_get_in _ CalendarEvent._id _ _ _ Hind Hd) as [o G]. rewrite G.
    unfold bind at 1. rewrite IH; [|exact Hnd'|].
    + unfold ret. cbn [habits habitLogs calendarEvents nextId].
      unfold tbl_delete. rewrite filter_twice. do 3 f_equal.
      apply filter_ext. intros y. rewrite negb_orb. reflexivity.
    + intros e He. cbn [calendarEvents].
      assert (Hold : In (CalendarEvent._id e)
                        (map CalendarEvent._id (calendarEvents db)))
        by (apply Hin; right; exact He).
      apply in_map_iff in Hold. destruct Hold as [d' [Hd' Hind']].
      apply in_map_iff. exists d'. split; [exact Hd'|].
      unfold tbl_delete. apply filter_In. split; [exact Hind'|].
      apply negb_true_iff. apply Nat.eqb_neq. intros Heq.
      apply Hnin. rewrite <- Heq, Hd'. apply in_map. exact He.
Qed.

(** With one identifier per event, the events that share an identifier
    with one that passes a test are the events that pass it. *)
Lemma filter_by_ids (p : CalendarEvent.t -> bool) (evs : list CalendarEvent.t) :
  NoDup (map CalendarEvent._id evs) ->
  filter (fun d => negb (existsb (fun l => Nat.eqb (CalendarEvent._id d)
                                                   (CalendarEvent._id l))
                                 (filter p evs))) evs =
  filter (fun d => negb (p d)) evs.
Proof.
  intros Hnd. apply filter_ext_in. intros d Hd. f_equal.
  destruct (p d) eqn:P.
  - apply existsb_exists. exists d. split; [apply filter_In; auto|apply Nat.eqb_refl].
  - destruct (existsb _ (filter p evs)) eqn:E; [|reflexivity].
    apply existsb_exists in E. destruct E as [l [Hl Heq]].
    apply filter_In in Hl. destruct Hl as [Hl Pl]. apply Nat.eqb_eq in Heq.
    assert (d = l) by (eapply NoDup_map_In_inj; eauto). subst l. congruence.
Qed.

Lemma deleteEventsByDate_run (userId : Id) (d : string) (db : DB) :
  NoDup (map CalendarEvent._id (calendarEvents db)) ->
  runMutation (deleteEventsByDate userId d) db =
  (mkDB (habits db) (habitLogs db)
        (filter (fun e => negb (Nat.eqb (CalendarEvent.userId e) userId
                                && String.eqb (CalendarEvent.date e) d))
                (calendarEvents db))
        (nextId db),
   Ok (mkDeleted (Z.of_nat (List.length (eventsOfUserOn userId d db))))).
Proof.
  intros Hnd. unfold runMutation, deleteEventsByDate. unfold bind at 1.
  unfold bind at 1. rewrite delete_events_run.
  - unfold ret. unfold eventsOfUserOn at 1. rewrite (@filter_by_ids _ _ Hnd). reflexivity.
  - apply NoDup_map_filter. exact Hnd.
  - intros e He. apply in_map. apply filter_In in He. tauto.
Qed.

(** X12.  On a store with one identifier per event, [deleteEventsByDate]
    returns the number of events the user had on the date; afterwards the
    user has none on that date, the list of every other day and user is as
    before, whatever the collation of start times is, habits and logs are
    not touched, and a second call deletes nothing and returns zero. *)
Theorem deleteEventsByDate_clears_the_day :
  forall (collate : string -> string -> comparison) (userId : Id) (d : string)
         (db : DB),
    NoDup (map CalendarEvent._id (calendarEvents db)) ->
    let db' := fst (runMutation (deleteEventsByDate userId d) db) in
    snd (runMutation (deleteEventsByDate userId d) db) =
    Ok (mkDeleted (Z.of_nat (List.length (getEventsByDate collate userId d db)))) /\
    getEventsByDate collate userId d db' = [] /\
    (forall u' d', u' <> userId \/ d' <> d ->
                   getEventsByDate collate u' d' db' = getEventsByDate collate u' d' db) /\
    habits db' = habits db /\ habitLogs db' = habitLogs db /\
    runMutation (deleteEventsByDate userId d) db' = (db', Ok (mkDeleted 0)).
Proof.
  intros collate userId d db Hnd db'.
  assert (Hnd' : NoDup (map CalendarEvent._id (calendarEvents db'))).
  { subst db'. rewrite (@deleteEventsByDate_run userId d db Hnd). cbn [fst calendarEvents].
    apply NoDup_map_filter. exact Hnd. }
  assert (Hnone : eventsOfUserOn userId d db' = []).
  { subst db'. rewrite (@deleteEventsByDate_run userId d db Hnd). cbn [fst].
    unfold eventsOfUserOn. cbn [calendarEvents]. rewrite filter_twice.
    apply filter_none. intros x _. apply andb_negb_l. }
  split; [|split; [|split; [|split; [|split]]]].
  - rewrite (@deleteEventsByDate_run userId d db Hnd). cbn [snd].
    unfold getEventsByDate. rewrite sortBy_length. reflexivity.
  - unfold getEventsByDate. rewrite Hnone. reflexivity.
  - intros u' d' Hne. subst db'. rewrite (@deleteEventsByDate_run userId d db Hnd).
    cbn [fst]. unfold getEventsByDate, eventsOfUserOn. cbn [calendarEvents].
    rewrite filter_twice. f_equal. apply filter_ext. intros x.
    destruct (Nat.eqb_spec (CalendarEvent.userId x) u') as [Eu|Nu];
      destruct (String.eqb_spec (CalendarEvent.date x) d') as [Ed|Nd];
      cbn [andb]; try apply andb_false_r.
    rewrite andb_true_r. apply negb_true_iff. apply andb_false_iff.
    destruct Hne as [H|H]; [left; apply Nat.eqb_neq|right; apply String.eqb_neq];
      congruence.
  - subst db'. rewrite (@deleteEventsByDate_run userId d db Hnd). reflexivity.
  - subst db'. rewrite (@deleteEventsByDate_run userId d db Hnd). reflexivity.
  - rewrite (@deleteEventsByDate_run userId d db' Hnd'). rewrite Hnone.
    cbn [List.length Z.of_nat]. f_equal.
    assert (Hsame : filter (fun e => negb (Nat.eqb (CalendarEvent.userId e) userId
                                         && String.eqb (CalendarEvent.date e) d))
                           (calendarEvents db') = calendarEvents db').
    { subst db'. rewrite (@deleteEventsByDate_run userId d db Hnd). cbn [fst calendarEvents].
      rewrite filter_twice. apply filter_ext. intros x. apply andb_diag. }
    rewrite Hsame. destruct db'; reflexivity.
Qed.

Lemma deleteEventsByDate_clears_the_day_witness :
  let db' := fst (runMutation (deleteEventsByDate 7 "2024-06-03") weekDB) in
  snd (runMutation (deleteEventsByDate 7 "2024-06-03") weekDB) = Ok (mkDeleted 3) /\
  getEventsByDate localeCompare 7 "2024-06-03" db' = [] /\
  map CalendarEvent._id (calendarEvents db') = [0; 2]%nat /\
  runMutation (deleteEventsByDate 7 "2024-06-03") db' = (db', Ok (mkDeleted 0)).
Proof.
  intros db'.
  destruct weekDB_fresh as [_ Hnd].
  destruct (@deleteEventsByDate_clears_the_day localeCompare 7%nat "2024-06-03"
              weekDB Hnd)
    as [Hn [Hnone [_ [_ [_ Hagain]]]]].
  split; [exact Hn|]. split; [exact Hnone|]. split; [reflexivity|exact Hagain].
Defined.

(* ---------------------------------------------------------------- *)

Lemma patch_completed (c : bool) (e : CalendarEvent.t) :
  CalendarEvent.patch (completedPatch c) e = withCompleted c e.
Proof. reflexivity. Qed.

Lemma markEventComplete_run (eventId : Id) (c : bool) (db : DB) (e : CalendarEvent.t) :
  tbl_get CalendarEvent._id eventId (calendarEvents db) = Some e ->
  runMutation (markEventComplete eventId c) db =
  (mkDB (habits db) (habitLogs db)
        (map (fun x => if Nat.eqb (CalendarEvent._id x) eventId
                       then withCompleted c x else x) (calendarEvents db))
        (nextId db),
   Ok (mkSuccess true)).
Proof.
  intros H. unfold runMutation, markEventComplete, bind, patch_calendarEvent.
  rewrite H. reflexivity.
Qed.

(** X13.  [markEventComplete] on an identifier that no event has throws
    and leaves the database as it was.  On an event that exists it returns
    success; afterwards a lookup of the identifier finds the event with
    [completed] set to the argument and every other field as it was, and the
    list of every day holds the same events in the same order, whatever
    the collation of start times is, changed in that one field of that one
    event. *)
Theorem markEventComplete_sets_one_field :
  forall (eventId : Id) (c : bool) (db : DB),
    (tbl_get CalendarEvent._id eventId (calendarEvents db) = None ->
     exists msg, runMutation (markEventComplete eventId c) db = (db, Throw msg)) /\
    (forall e, tbl_get CalendarEvent._id eventId (calendarEvents db) = Some e ->
       let db' := fst (runMutation (markEventComplete eventId c) db) in
       snd (runMutation (markEventComplete eventId c) db) = Ok (mkSuccess true) /\
       tbl_get CalendarEvent._id eventId (calendarEvents db') =
       Some (withCompleted c e) /\
       (forall collate u d,
           getEventsByDate collate u d db' =
           map (fun x => if Nat.eqb (CalendarEvent._id x) eventId
                         then withCompleted c x else x)
               (getEventsByDate collate u d db)) /\
       habits db' = habits db /\ habitLogs db' = habitLogs db).
Proof.
  intros eventId c db. split.
  - intros H. unfold runMutation, markEventComplete, bind, patch_calendarEvent.
    rewrite H. eauto.
  - intros e He db'. subst db'. rewrite (@markEventComplete_run eventId c db e He).
    cbn [fst snd calendarEvents habits habitLogs]. split; [reflexivity|].
    split; [|split; [|split; reflexivity]].
    + pose proof (@tbl_get_patch _ CalendarEvent._id eventId eventId
                    (withCompleted c) (calendarEvents db) (fun _ => eq_refl)) as Hp.
      unfold tbl_patch in Hp. rewrite Hp, He. cbn [option_map].
      apply tbl_get_some in He. destruct He as [_ Hid].
      rewrite Hid, Nat.eqb_refl. reflexivity.
    + intros collate u d. unfold getEventsByDate, eventsOfUserOn.
      cbn [calendarEvents]. rewrite filter_map_commute.
      * apply sortBy_map. intros x y.
        destruct (Nat.eqb (CalendarEvent._id x) eventId);
          destruct (Nat.eqb (CalendarEvent._id y) eventId); reflexivity.
      * intros x. destruct (Nat.eqb (CalendarEvent._id x) eventId); reflexivity.
Qed.

Lemma markEventComplete_sets_one_field_witness :
  let db' := fst (runMutation (markEventComplete 4 true) weekDB) in
  map (fun e => (CalendarEvent._id e, CalendarEvent.completed e))
      (getEventsByDate localeCompare 7 "2024-06-03" db')
  = [(3%nat, Some false); (1%nat, Some false); (4%nat, Some true)] /\
  option_map CalendarEvent.completed (tbl_get CalendarEvent._id 4 (calendarEvents db'))
  = Some (Some true) /\
  exists msg, runMutation (markEventComplete 9 true) weekDB = (weekDB, Throw msg).
Proof.
  intros db'.
  destruct (markEventComplete_sets_one_field 4 true weekDB) as [_ Hok].
  destruct (markEventComplete_sets_one_field 9 true weekDB) as [Hmiss _].
  destruct (Hok _ eq_refl) as [_ [Hget _]].
  split; [reflexivity|].
  split; [exact (f_equal (option_map CalendarEvent.completed) Hget)|].
  exact (Hmiss eq_refl).
Defined.

(* ================================================================== *)
(** * The fenced block of a reply *)
(* ================================================================== *)

Lemma afterFirst_cons (pat : string) (c : ascii) (s : string) :
  afterFirst pat (String c s) =
  if String.prefix pat (String c s)
  then Some (dropChars (String.length pat) (String c s))
  else afterFirst pat s.
Proof. reflexivity. Qed.

Lemma lazyCapture_eq (s : string) :
  lazyCapture s =
  if closesHere s then Some EmptyString
  else match s with
       | EmptyString => None
       | String c s' => option_map (String c) (lazyCapture s')
       end.
Proof. destruct s; reflexivity. Qed.

Lemma prefix_fence_head (c : ascii) (s : string) :
  notBacktick c = true -> String.prefix fence (String c s) = false.
Proof.
  unfold notBacktick, fence. intros H. cbn [String.prefix].
  destruct (ascii_dec "`" c) as [E|N]; [|reflexivity].
  subst c. discriminate H.
Qed.

Lemma prefix_append (p s : string) : String.prefix p (p +++ s) = true.
Proof.
  induction p as [|c p IH]; [destruct s; reflexivity|].
  cbn [append String.prefix]. destruct (ascii_dec c c); [exact IH|congruence].
Qed.

Lemma dropChars_append (p s : string) : dropChars (String.length p) (p +++ s) = s.
Proof. induction p as [|c p IH]; [destruct s; reflexivity|exact IH]. Qed.

Lemma afterFirst_append (pat pat' before rest : string) (p0 : ascii) :
  pat = String p0 pat' ->
  allChars (fun c => negb (Ascii.eqb c p0)) before = true ->
  afterFirst pat (before +++ pat +++ rest) = Some rest.
Proof.
  intros Hpat. induction before as [|c b IH]; intros H.
  - change (EmptyString +++ pat +++ rest) with (pat +++ rest).
    assert (Hcons : pat +++ rest = String p0 (pat' +++ rest))
      by (rewrite Hpat; reflexivity).
    rewrite Hcons, afterFirst_cons, <- Hcons.
    rewrite prefix_append, dropChars_append. reflexivity.
  - cbn [allChars] in H. apply andb_true_iff in H. destruct H as [Hc Hb].
    change (String c b +++ pat +++ rest) with (String c (b +++ pat +++ rest)).
    rewrite afterFirst_cons.
    assert (Hp : String.prefix pat (String c (b +++ pat +++ rest)) = false).
    { rewrite Hpat. cbn [String.prefix].
      destruct (ascii_dec p0 c) as [E|N]; [|reflexivity].
      subst c. rewrite Ascii.eqb_refl in Hc. discriminate Hc. }
    rewrite Hp. apply IH. exact Hb.
Qed.

Lemma afterFirst_opening (before rest : string) :
  allChars notBacktick before = true ->
  afterFirst (fence +++ "json") (before +++ (fence +++ "json") +++ rest) = Some rest.
Proof.
  intros H. apply (@afterFirst_append (fence +++ "json") "``json" before rest "`").
  - reflexivity.
  - exact H.
Qed.

(** ** White space at the head of a text *)

Lemma dropSpaces_step (s : string) :
  dropSpaces s = match stripSpace s with
                 | Some rest => dropSpaces rest
                 | None => s
                 end.
Proof.
  destruct s as [|c1 [|c2 [|c3 r3]]]; cbn [dropSpaces stripSpace].
  - reflexivity.
  - destruct (isSpace c1); reflexivity.
  - destruct (isSpace c1); [reflexivity|]. destruct (isSpace2 c1 c2); reflexivity.
  - destruct (isSpace c1); [reflexivity|]. destruct (isSpace2 c1 c2); [reflexivity|].
    destruct (isSpace3 c1 c2 c3); reflexivity.
Qed.

(** A white space character is one to three bytes before the rest. *)
Lemma stripSpace_split (s rest : string) :
  stripSpace s = Some rest ->
  exists c w, s = String c w +++ rest.
Proof.
  destruct s as [|c1 r1]; cbn [stripSpace]; [discriminate|].
  destruct (isSpace c1).
  { intros H. injection H as <-. exists c1, EmptyString. reflexivity. }
  destruct r1 as [|c2 r2]; [discriminate|]. destruct (isSpace2 c1 c2).
  { intros H. injection H as <-. exists c1, (String c2 EmptyString). reflexivity. }
  destruct r2 as [|c3 r3]; [discriminate|]. destruct (isSpace3 c1 c2 c3); [|discriminate].
  intros H. injection H as <-.
  exists c1, (String c2 (String c3 EmptyString)). reflexivity.
Qed.

Lemma stripSpace_shorter (s rest : string) :
  stripSpace s = Some rest -> (String.length rest < String.length s)%nat.
Proof.
  intros H. apply stripSpace_split in H. destruct H as [c [w ->]].
  cbn [append String.length]. rewrite string_length_app. lia.
Qed.

Lemma stripSpace_append (s rest t : string) :
  stripSpace s = Some rest -> stripSpace (s +++ t) = Some (rest +++ t).
Proof.
  destruct s as [|c1 r1]; cbn [stripSpace append]; [discriminate|].
  destruct (isSpace c1); [intros H; injection H as <-; reflexivity|].
  destruct r1 as [|c2 r2]; [discriminate|]. cbn [append].
  destruct (isSpace2 c1 c2); [intros H; injection H as <-; reflexivity|].
  destruct r2 as [|c3 r3]; [discriminate|]. cbn [append].
  destruct (isSpace3 c1 c2 c3); [intros H; injection H as <-; reflexivity|discriminate].
Qed.

(** The second byte of U+00A0 and the second and third bytes of the
    others continue a character. *)
Lemma isSpace2_continues (c1 c2 : ascii) :
  isSpace2 c1 c2 = true -> isContinuation c2 = true.
Proof.
  unfold isSpace2, isContinuation.
  rewrite !andb_true_iff, !N.eqb_eq, !N.leb_le. lia.
Qed.

Lemma isSpace3_continues (c1 c2 c3 : ascii) :
  isSpace3 c1 c2 c3 = true -> isContinuation c2 = true /\ isContinuation c3 = true.
Proof.
  unfold isSpace3, isContinuation.
  rewrite !orb_true_iff, !andb_true_iff, !orb_true_iff, !andb_true_iff,
          !N.eqb_eq, !N.leb_le. lia.
Qed.

Lemma isSpace_starts (c : ascii) : isSpace c = true -> isContinuation c = false.
Proof.
  destruct c as [[] [] [] [] [] [] [] []]; intros H; try discriminate H; reflexivity.
Qed.

(** A white space character begins with a byte that begins a character. *)
Lemma stripSpace_starts (s rest : string) :
  stripSpace s = Some rest -> startsCharacter s = true.
Proof.
  destruct s as [|c1 r1]; cbn [stripSpace startsCharacter]; [discriminate|].
  destruct (isSpace c1) eqn:S1; [intros _; rewrite (isSpace_starts _ S1); reflexivity|].
  destruct r1 as [|c2 r2]; [discriminate|]. destruct (isSpace2 c1 c2) eqn:S2.
  { intros _. unfold isSpace2 in S2. unfold isContinuation.
    apply andb_true_iff in S2. destruct S2 as [S2 _]. apply N.eqb_eq in S2.
    rewrite S2. reflexivity. }
  destruct r2 as [|c3 r3]; [discriminate|]. destruct (isSpace3 c1 c2 c3) eqn:S3;
    [|discriminate].
  intros _. apply negb_true_iff. unfold isSpace3 in S3. unfold isContinuation.
  rewrite !orb_true_iff, !andb_true_iff, !orb_true_iff, !andb_true_iff,
          !N.eqb_eq, !N.leb_le in S3.
  apply andb_false_iff. rewrite !N.leb_gt. lia.
Qed.

(** What begins a character does not complete white space cut short. *)
Lemma stripSpace_none_append (s t : string) :
  stripSpace s = None -> s <> EmptyString -> startsCharacter t = true ->
  stripSpace (s +++ t) = None.
Proof.
  intros Hs Hne Ht. destruct s as [|c1 r1]; [congruence|].
  cbn [stripSpace append] in *. destruct (isSpace c1); [discriminate|].
  assert (Hhead2 : forall d, startsCharacter (String d EmptyString) = true ->
                             isSpace2 c1 d = false).
  { intros d Hd. destruct (isSpace2 c1 d) eqn:E; [|reflexivity].
    apply isSpace2_continues in E. cbn [startsCharacter] in Hd. rewrite E in Hd.
    discriminate Hd. }
  assert (Hmid : forall c d, startsCharacter (String d EmptyString) = true ->
                             isSpace3 c1 d c = false).
  { intros c d Hd. destruct (isSpace3 c1 d c) eqn:E; [|reflexivity].
    apply isSpace3_continues in E. destruct E as [E _].
    cbn [startsCharacter] in Hd. rewrite E in Hd. discriminate Hd. }
  assert (Hlast : forall c d, startsCharacter (String d EmptyString) = true ->
                              isSpace3 c1 c d = false).
  { intros c d Hd. destruct (isSpace3 c1 c d) eqn:E; [|reflexivity].
    apply isSpace3_continues in E. destruct E as [_ E].
    cbn [startsCharacter] in Hd. rewrite E in Hd. discriminate Hd. }
  destruct r1 as [|c2 r2]; cbn [append].
  - destruct t as [|d t']; [reflexivity|]. rewrite (Hhead2 d Ht).
    destruct t' as [|d' t'']; [reflexivity|]. rewrite (Hmid d' d Ht). reflexivity.
  - destruct (isSpace2 c1 c2); [discriminate|].
    destruct r2 as [|c3 r3]; cbn [append].
    + destruct t as [|d t']; [reflexivity|]. rewrite (Hlast c2 d Ht). reflexivity.
    + destruct (isSpace3 c1 c2 c3); [discriminate Hs|reflexivity].
Qed.

Lemma dropSpaces_length (s : string) :
  (String.length (dropSpaces s) <= String.length s)%nat.
Proof.
  remember (String.length s) as n eqn:Hn.
  assert (Hle : (String.length s <= n)%nat) by lia. clear Hn.
  assert (Hgoal : (String.length (dropSpaces s) <= String.length s)%nat); [|lia].
  revert s Hle. induction n as [|n IH]; intros s Hle.
  - destruct s; [cbn; lia|cbn [String.length] in Hle; lia].
  - rewrite dropSpaces_step. destruct (stripSpace s) as [rest|] eqn:E; [|lia].
    pose proof (stripSpace_shorter _ E) as Hlt.
    assert (Hr : (String.length rest <= n)%nat) by lia.
    specialize (IH rest Hr). lia.
Qed.

(** Text that is nothing but white space goes with the white space that
    follows it. *)
Lemma dropSpaces_spaces (ws s : string) :
  dropSpaces ws = EmptyString -> dropSpaces (ws +++ s) = dropSpaces s.
Proof.
  remember (String.length ws) as n eqn:Hn.
  assert (Hle : (String.length ws <= n)%nat) by lia. clear Hn.
  revert ws Hle. induction n as [|n IH]; intros ws Hle H.
  - destruct ws; [reflexivity|cbn [String.length] in Hle; lia].
  - destruct ws as [|c w]; [reflexivity|].
    rewrite dropSpaces_step in H.
    destruct (stripSpace (String c w)) as [rest|] eqn:E; [|discriminate H].
    rewrite dropSpaces_step, (stripSpace_append _ s E).
    apply IH; [|exact H]. pose proof (stripSpace_shorter _ E) as Hlt. lia.
Qed.

Lemma dropSpaces_fence (after : string) :
  dropSpaces (fence +++ after) = fence +++ after.
Proof. reflexivity. Qed.

Lemma spaces_start (ws after : string) :
  dropSpaces ws = EmptyString -> startsCharacter (ws +++ fence +++ after) = true.
Proof.
  intros H. destruct ws as [|c w]; [reflexivity|].
  rewrite dropSpaces_step in H.
  destruct (stripSpace (String c w)) as [rest|] eqn:E; [|discriminate H].
  apply stripSpace_starts in E. exact E.
Qed.

Lemma closesHere_closing (ws after : string) :
  dropSpaces ws = EmptyString -> closesHere (ws +++ fence +++ after) = true.
Proof.
  intros H. unfold closesHere. rewrite dropSpaces_spaces by exact H.
  rewrite dropSpaces_fence. apply prefix_append.
Qed.

Lemma allChars_rest (p : ascii -> bool) (c : ascii) (w rest : string) :
  allChars p (String c w +++ rest) = true -> allChars p rest = true.
Proof.
  cbn [append allChars]. intros H. apply andb_true_iff in H. destruct H as [_ H].
  induction w as [|x w IH]; [exact H|].
  cbn [append allChars] in H. apply andb_true_iff in H. destruct H as [_ H].
  apply IH. exact H.
Qed.

(** Before text that is not white space alone and has no backtick, the
    closing fence does not match. *)
Lemma closesHere_inside (s rest : string) :
  dropSpaces s <> EmptyString -> allChars notBacktick s = true ->
  startsCharacter rest = true ->
  closesHere (s +++ rest) = false.
Proof.
  remember (String.length s) as n eqn:Hn.
  assert (Hle : (String.length s <= n)%nat) by lia. clear Hn.
  revert s Hle. induction n as [|n IH]; intros s Hle Hd Hb Hrest.
  - destruct s; [exfalso; apply Hd; reflexivity|cbn [String.length] in Hle; lia].
  - destruct s as [|c s']; [exfalso; apply Hd; reflexivity|].
    unfold closesHere. rewrite dropSpaces_step.
    destruct (stripSpace (String c s')) as [r|] eqn:E.
    + rewrite (stripSpace_append _ rest E).
      rewrite dropSpaces_step, E in Hd.
      pose proof (stripSpace_shorter _ E) as Hlt.
      destruct (stripSpace_split _ E) as [c0 [w Hw]]. rewrite Hw in Hb.
      apply allChars_rest in Hb.
      apply (IH r); [lia|exact Hd|exact Hb|exact Hrest].
    + rewrite (@stripSpace_none_append (String c s') rest E); [|discriminate|exact Hrest].
      cbn [allChars] in Hb. apply andb_true_iff in Hb. destruct Hb as [Hc _].
      cbn [append]. apply prefix_fence_head. exact Hc.
Qed.

Lemma trimEnd_cons (c : ascii) (b : string) :
  trimEnd (String c b) =
  if String.eqb (dropSpaces (String c b)) EmptyString then EmptyString
  else String c (trimEnd b).
Proof. reflexivity. Qed.

Lemma trimEnd_tail (c : ascii) (b : string) :
  trimEnd (String c b) = String c b ->
  dropSpaces (String c b) <> EmptyString /\ trimEnd b = b.
Proof.
  rewrite trimEnd_cons.
  destruct (String.eqb (dropSpaces (String c b)) EmptyString) eqn:E; [discriminate|].
  intros H. injection H as H. split; [|exact H].
  apply String.eqb_neq. exact E.
Qed.

Lemma lazyCapture_block (block rest : string) :
  trimEnd block = block -> allChars notBacktick block = true ->
  startsCharacter rest = true -> closesHere rest = true ->
  lazyCapture (block +++ rest) = Some block.
Proof.
  induction block as [|c b IH]; intros Ht Hb Hstart Hrest.
  - cbn [append]. rewrite lazyCapture_eq, Hrest. reflexivity.
  - destruct (trimEnd_tail Ht) as [Hd Ht'].
    rewrite lazyCapture_eq.
    rewrite (@closesHere_inside (String c b) rest Hd Hb Hstart).
    cbn [append]. cbn [allChars] in Hb. apply andb_true_iff in Hb.
    destruct Hb as [_ Hb]. rewrite IH; [reflexivity|exact Ht'|exact Hb|exact Hstart|
                                        exact Hrest].
Qed.

Lemma jsonMatch_fencedReply (before ws1 block ws2 after : string) :
  allChars notBacktick before = true ->
  dropSpaces ws1 = EmptyString -> dropSpaces ws2 = EmptyString ->
  allChars notBacktick block = true ->
  dropSpaces block = block -> trimEnd block = block ->
  jsonMatch (fencedReply before ws1 block ws2 after) = Some block.
Proof.
  intros Hbefore Hws1 Hws2 Hblock Hhead Htail.
  unfold jsonMatch, fencedReply. rewrite afterFirst_opening by exact Hbefore.
  rewrite dropSpaces_spaces by exact Hws1.
  assert (Hclose : closesHere (ws2 +++ fence +++ after) = true)
    by (apply closesHere_closing; exact Hws2).
  assert (Hstart : startsCharacter (ws2 +++ fence +++ after) = true)
    by (apply spaces_start; exact Hws2).
  destruct block as [|c b].
  - cbn [append]. rewrite dropSpaces_spaces by exact Hws2.
    rewrite dropSpaces_fence, lazyCapture_eq.
    unfold closesHere. rewrite dropSpaces_fence, prefix_append. reflexivity.
  - assert (Hnone : stripSpace (String c b) = None).
    { destruct (stripSpace (String c b)) as [r|] eqn:E; [|reflexivity]. exfalso.
      rewrite dropSpaces_step, E in Hhead.
      pose proof (stripSpace_shorter _ E) as Hlt.
      pose proof (dropSpaces_length r) as Hlen. rewrite Hhead in Hlen. lia. }
    rewrite dropSpaces_step.
    rewrite (@stripSpace_none_append (String c b) _ Hnone); [|discriminate|exact Hstart].
    exact (@lazyCapture_block (String c b) _ Htail Hblock Hstart Hclose).
Qed.

(** X14.  When the reply holds, after a text without backticks, the
    opening [```json], nothing but white space, a block without backticks
    that neither begins nor ends with white space, nothing but white space
    and the closing fence, the pattern of [handleSubmit] captures exactly
    the block, whatever follows the fence; and when [JSON.parse] of the
    block has an array under [events], [handleSubmit] leaves that array in
    [parsedSchedule].  White space is that of JavaScript, the no-break
    space and the other spaces of Unicode with it. *)
Theorem fenced_block_becomes_the_schedule :
  forall (before ws1 block ws2 after : string),
    allChars notBacktick before = true ->
    dropSpaces ws1 = EmptyString -> dropSpaces ws2 = EmptyString ->
    allChars notBacktick block = true ->
    dropSpaces block = block -> trimEnd block = block ->
    jsonMatch (fencedReply before ws1 block ws2 after) = Some block /\
    forall (JSON_parse : string -> option JSON) (chunks : list string) (w : World)
           (parsed : JSON) (events : list JSON),
      String.concat EmptyString chunks = fencedReply before ws1 block ws2 after ->
      String.eqb (trim (input (page w))) EmptyString || isLoading (page w) = false ->
      JSON_parse block = Some parsed ->
      eventsOf parsed = Ok (Some events) ->
      parsedSchedule (page (handleSubmit JSON_parse (ChatStreamed chunks) w))
      = Some events.
Proof.
  intros before ws1 block ws2 after Hbefore Hws1 Hws2 Hblock Hhead Htail.
  pose proof (@jsonMatch_fencedReply before ws1 block ws2 after
                Hbefore Hws1 Hws2 Hblock Hhead Htail) as Hm.
  split; [exact Hm|].
  intros JSON_parse chunks w parsed events Hchunks Hguard Hparse Hevents.
  unfold handleSubmit. rewrite Hguard. cbv zeta. rewrite Hchunks.
  unfold detectSchedule. rewrite Hm, Hparse, Hevents. reflexivity.
Qed.

Lemma fenced_block_becomes_the_schedule_witness :
  let w := mkWorld (chattingPage "that is all") emptyDB in
  jsonMatch twoBlockReply = Some oneEventBlock /\
  parsedSchedule (page (handleSubmit MiniJSON.parse (ChatStreamed [twoBlockReply]) w))
  = Some [meditate].
Proof.
  intros w.
  destruct (@fenced_block_becomes_the_schedule "Here it is:" (newline +++ nbsp)
              oneEventBlock (nbsp +++ newline +++ " ")
              (" or " +++ fence +++ "json" +++ scheduleBlock +++ fence)
              eq_refl eq_refl eq_refl eq_refl eq_refl eq_refl) as [Hm Hs].
  split; [exact Hm|].
  exact (Hs MiniJSON.parse [twoBlockReply] w
            (JObj [("events", JArr [meditate])]) [meditate]
            eq_refl eq_refl eq_refl eq_refl).
Defined.

(** The no-break space is trimmed with the other white space of
    JavaScript; the zero width space is not white space. *)
Example trim_javascript_white_space :
  trim (nbsp +++ " yes, 9 to 5" +++ newline +++ nbsp) = "yes, 9 to 5" /\
  trim (nbsp +++ nbsp) = EmptyString /\
  isSpace3 (ascii_of_nat 227) (ascii_of_nat 128) (ascii_of_nat 128) = true /\
  isSpace3 (ascii_of_nat 239) (ascii_of_nat 187) (ascii_of_nat 191) = true /\
  isSpace3 (ascii_of_nat 226) (ascii_of_nat 128) (ascii_of_nat 139) = false.
Proof. repeat split. Qed.

(* ================================================================== *)
(** * What a submit touches *)
(* ================================================================== *)

(** The check for a schedule writes to [parsedSchedule] alone. *)
Lemma detectSchedule_frame (JSON_parse : string -> option JSON) (reply : string)
      (p : PlanPage) :
  let p' := detectSchedule JSON_parse reply p in
  messages p' = messages p /\ input p' = input p /\ isLoading p' = isLoading p /\
  scheduleConfirmed p' = scheduleConfirmed p /\ convexUserId p' = convexUserId p /\
  (jsonMatch reply = None -> parsedSchedule p' = parsedSchedule p).
Proof.
  unfold detectSchedule. destruct (jsonMatch reply) as [block|].
  - destruct (JSON_parse block) as [parsed|]; [|repeat split; discriminate].
    destruct (eventsOf parsed) as [[events|]|msg]; repeat split; discriminate.
  - repeat split.
Qed.

(** X15.  [handleSubmit] never writes to the database, to
    [scheduleConfirmed] or to the user, whatever the answer of the chat
    route.  With a blank input, or while the page is loading, it changes
    nothing at all.  Otherwise the transcript grows by exactly two
    messages, the trimmed input as the user's and one of the assistant (the
    streamed reply in full, or the apology when the request failed), the
    input is cleared and the page is no longer loading; and a failed
    request, or a reply without the opening fence, leaves [parsedSchedule]
    as it was. *)
Theorem handleSubmit_transcript_and_frame :
  forall (JSON_parse : string -> option JSON) (response : ChatResponse) (w : World),
    let w' := handleSubmit JSON_parse response w in
    let reply := match response with
                 | ChatFailed => chatErrorMessage
                 | ChatStreamed chunks =>
                     mkMessage r_assistant (String.concat EmptyString chunks)
                 end in
    db w' = db w /\
    scheduleConfirmed (page w') = scheduleConfirmed (page w) /\
    convexUserId (page w') = convexUserId (page w) /\
    (String.eqb (trim (input (page w))) EmptyString || isLoading (page w) = true ->
     w' = w) /\
    (String.eqb (trim (input (page w))) EmptyString || isLoading (page w) = false ->
     messages (page w') =
       messages (page w) ++ [mkMessage r_user (trim (input (page w))); reply] /\
     input (page w') = EmptyString /\
     isLoading (page w') = false /\
     (response = ChatFailed \/
      (exists chunks, response = ChatStreamed chunks /\
                      jsonMatch (String.concat EmptyString chunks) = None) ->
      parsedSchedule (page w') = parsedSchedule (page w))).
Proof.
  intros JSON_parse response w w' reply. subst w' reply. unfold handleSubmit.
  assert (Happ : forall (a : list Message) x y, (a ++ [x]) ++ [y] = a ++ [x; y])
    by (intros; rewrite <- app_assoc; reflexivity).
  destruct (String.eqb (trim (input (page w))) EmptyString || isLoading (page w)) eqn:G.
  - split; [reflexivity|]. split; [reflexivity|]. split; [reflexivity|].
    split; [reflexivity|]. intros Hfalse. discriminate Hfalse.
  - cbv zeta. destruct response as [|chunks].
    + cbn [db page scheduleConfirmed convexUserId messages input isLoading
           parsedSchedule setIsLoading setInput setMessages].
      rewrite Happ.
      split; [reflexivity|]. split; [reflexivity|]. split; [reflexivity|].
      split; [intros Htrue; discriminate Htrue|]. intros _.
      split; [reflexivity|]. split; [reflexivity|]. split; [reflexivity|].
      reflexivity.
    + match goal with |- context [detectSchedule JSON_parse ?r ?p] =>
        destruct (detectSchedule_frame JSON_parse r p) as [Hm [Hi [Hl [Hc [Hu Hs]]]]];
        set (p2 := detectSchedule JSON_parse r p) in *
      end.
      cbn [db page scheduleConfirmed convexUserId messages input isLoading
           parsedSchedule setIsLoading].
      rewrite Hc, Hu, Hm, Hi.
      cbn [scheduleConfirmed convexUserId messages input isLoading
           parsedSchedule setIsLoading setInput setMessages].
      rewrite Happ.
      split; [reflexivity|]. split; [reflexivity|]. split; [reflexivity|].
      split; [intros Htrue; discriminate Htrue|]. intros _.
      split; [reflexivity|]. split; [reflexivity|]. split; [reflexivity|].
      intros [Hf|[chunks' [Hr Hnone]]]; [discriminate Hf|].
      injection Hr as <-. rewrite (Hs Hnone). reflexivity.
Qed.

Lemma handleSubmit_transcript_and_frame_witness :
  let w := mkWorld (chattingPage " yes, 9 to 5 ") weekDB in
  let w' := handleSubmit MiniJSON.parse ChatFailed w in
  let idle := mkWorld (chattingPage (" " +++ nbsp +++ newline)) weekDB in
  messages (page w') =
    messages (page w) ++ [mkMessage r_user "yes, 9 to 5"; chatErrorMessage] /\
  parsedSchedule (page w') = None /\ db w' = weekDB /\
  handleSubmit MiniJSON.parse (ChatStreamed [scheduleReply]) idle = idle.
Proof.
  intros w w' idle.
  destruct (handleSubmit_transcript_and_frame MiniJSON.parse ChatFailed w)
    as [Hdb [_ [_ [_ Hgo]]]].
  destruct (Hgo eq_refl) as [Hm [_ [_ Hs]]].
  destruct (handleSubmit_transcript_and_frame MiniJSON.parse
              (ChatStreamed [scheduleReply]) idle) as [_ [_ [_ [Hidle _]]]].
  split; [exact Hm|]. split; [exact (Hs (or_introl eq_refl))|].
  split; [exact Hdb|exact (Hidle eq_refl)].
Defined.

(* ================================================================== *)
(** * What a confirm stores *)
(* ================================================================== *)

Lemma eventToCreate_fields (day : PlanDay) (event : JSON) (raw : RawEvent.t) :
  eventToCreate day event = Ok raw ->
  (exists t, RawEvent.startTime raw = Some (JStr (tomorrowDate day +++ "T" +++ t))) /\
  (exists t, RawEvent.endTime raw = Some (JStr (tomorrowDate day +++ "T" +++ t))) /\
  RawEvent.date raw = Some (JStr (tomorrowDate day)) /\
  RawEvent.isRecurring raw = Some (JBool false) /\
  RawEvent.createdBy raw = Some (JStr "ai").
Proof.
  unfold eventToCreate.
  destruct (getProp event "title"); destruct (getProp event "description");
    destruct (getProp event "startTime") as [startTime|];
    destruct (getProp event "endTime") as [endTime|];
    destruct (getProp event "category"); try discriminate.
  destruct (toStringJS startTime) as [startText|];
    destruct (toStringJS endTime) as [endText|]; try discriminate.
  intros H. injection H as <-. cbn [RawEvent.startTime RawEvent.endTime RawEvent.date
                                     RawEvent.isRecurring RawEvent.createdBy].
  split; [eexists; reflexivity|]. split; [eexists; reflexivity|].
  split; [reflexivity|]. split; reflexivity.
Qed.

Lemma v_event_fields (day : PlanDay) (event : JSON) (raw : RawEvent.t) (n : NewEvent.t) :
  eventToCreate day event = Ok raw -> v_event raw = Some n ->
  String.prefix (tomorrowDate day +++ "T") (NewEvent.startTime n) = true /\
  String.prefix (tomorrowDate day +++ "T") (NewEvent.endTime n) = true /\
  NewEvent.date n = tomorrowDate day /\
  NewEvent.isRecurring n = false /\
  NewEvent.createdBy n = CreatedBy.ai.
Proof.
  intros Hraw Hv. apply eventToCreate_fields in Hraw.
  destruct Hraw as [[ts Hs] [[te He] [Hd [Hr Hc]]]].
  unfold v_event in Hv. rewrite Hs, He, Hd, Hr, Hc in Hv.
  destruct (v_string (RawEvent.title raw)); [|discriminate].
  destruct (v_optional_string (RawEvent.description raw)); [|discriminate].
  cbn [v_string v_boolean v_createdBy] in Hv.
  destruct (v_category (RawEvent.category raw)); [|discriminate].
  cbn in Hv. injection Hv as <-.
  cbn [NewEvent.startTime NewEvent.endTime NewEvent.date NewEvent.isRecurring
       NewEvent.createdBy].
  assert (Hp : forall tm, String.prefix (tomorrowDate day +++ "T")
                                        (tomorrowDate day +++ "T" +++ tm) = true).
  { intros tm.
    assert (Hassoc : forall a b c, a +++ b +++ c = (a +++ b) +++ c).
    { induction a as [|x a IH]; intros b c; [reflexivity|].
      cbn [append]. rewrite IH. reflexivity. }
    rewrite Hassoc. apply prefix_append. }
  repeat split; try apply Hp.
Qed.

Lemma confirm_validated (day : PlanDay) (schedule : list JSON)
      (raws : list RawEvent.t) (news : list NewEvent.t) :
  eventsToCreate day schedule = Ok raws -> v_events raws = Some news ->
  List.length news = List.length schedule /\
  Forall (fun n => String.prefix (tomorrowDate day +++ "T") (NewEvent.startTime n) = true /\
                   String.prefix (tomorrowDate day +++ "T") (NewEvent.endTime n) = true /\
                   NewEvent.date n = tomorrowDate day /\
                   NewEvent.isRecurring n = false /\
                   NewEvent.createdBy n = CreatedBy.ai) news.
Proof.
  revert raws news. induction schedule as [|event rest IH]; intros raws news Hr Hv.
  - cbn [eventsToCreate] in Hr. injection Hr as <-. cbn [v_events] in Hv.
    injection Hv as <-. split; [reflexivity|constructor].
  - cbn [eventsToCreate] in Hr.
    destruct (eventToCreate day event) as [raw|] eqn:E; [|discriminate].
    destruct (eventsToCreate day rest) as [raws'|] eqn:E'; [|discriminate].
    injection Hr as <-. cbn [v_events] in Hv.
    destruct (v_event raw) as [n|] eqn:Vn; [|discriminate].
    destruct (v_events raws') as [news'|] eqn:Vs; [|discriminate].
    injection Hv as <-. destruct (IH raws' news' eq_refl Vs) as [Hlen Hall].
    split; [cbn [List.length]; rewrite Hlen; reflexivity|].
    constructor; [|exact Hall]. eapply v_event_fields; eauto.
Qed.

Lemma insertedEvents_stored (clk : Clock) (day : PlanDay) (userId : Id)
      (news : list NewEvent.t) (n : Id) :
  Forall (fun e => String.prefix (tomorrowDate day +++ "T") (NewEvent.startTime e) = true /\
                   String.prefix (tomorrowDate day +++ "T") (NewEvent.endTime e) = true /\
                   NewEvent.date e = tomorrowDate day /\
                   NewEvent.isRecurring e = false /\
                   NewEvent.createdBy e = CreatedBy.ai) news ->
  Forall (storedByConfirm clk day userId) (insertedEvents clk userId n news).
Proof.
  intros H. revert n. induction H as [|e news He _ IH]; intros n;
    cbn [insertedEvents]; constructor; [|apply IH].
  destruct He as [Hs [He [Hd [Hr Hc]]]]. unfold storedByConfirm.
  cbn [CalendarEvent.userId CalendarEvent.date CalendarEvent.startTime
       CalendarEvent.endTime CalendarEvent.isRecurring CalendarEvent.recurringPattern
       CalendarEvent.createdBy CalendarEvent.completed CalendarEvent.createdAt].
  repeat split; assumption.
Qed.

(** What the body of the [try] commits: nothing when it throws, and one
    event for each element of the schedule when it returns. *)
Lemma saveSchedule_effect (clk : Clock) (day : PlanDay) (userId : Id)
      (schedule : list JSON) (db : DB) :
  let attempt := saveSchedule clk day userId schedule db in
  habits (fst attempt) = habits db /\
  habitLogs (fst attempt) = habitLogs db /\
  exists added,
    calendarEvents (fst attempt) = calendarEvents db ++ added /\
    Forall (storedByConfirm clk day userId) added /\
    ((added = [] /\ exists msg, snd attempt = Throw msg) \/
     (List.length added = List.length schedule /\ exists ids, snd attempt = Ok ids)).
Proof.
  unfold saveSchedule.
  destruct (eventsToCreate day schedule) as [raws|msg] eqn:Hr.
  2:{ cbn [fst snd]. split; [reflexivity|split; [reflexivity|]].
      exists []. rewrite app_nil_r. split; [reflexivity|].
      split; [constructor|left; eauto]. }
  unfold createManyEvents.
  destruct (v_events raws) as [news|] eqn:Hv.
  2:{ unfold runMutation, throw. cbn [fst snd].
      split; [reflexivity|split; [reflexivity|]].
      exists []. rewrite app_nil_r. split; [reflexivity|].
      split; [constructor|left; eauto]. }
  unfold runMutation. rewrite createManyEvents_handler_effect.
  cbn [fst snd habits habitLogs calendarEvents].
  split; [reflexivity|split; [reflexivity|]].
  destruct (@confirm_validated day schedule raws news Hr Hv) as [Hlen Hall].
  eexists. split; [reflexivity|].
  split; [apply insertedEvents_stored; exact Hall|].
  right. split; [rewrite insertedEvents_length; exact Hlen|eauto].
Qed.

(** X16.  Whatever the page and the proposed schedule hold,
    [handleConfirmSchedule] leaves habits, habit logs and every event that
    was stored before as they are, and stores either nothing or one event
    for each element of the proposed schedule, in which case
    [scheduleConfirmed] is set.  Every event it stores belongs to the user
    of the page, is dated the planning date, has start and end times that
    begin with that date and a [T], is created by [ai], not recurring and
    not completed. *)
Theorem confirm_appends_all_or_nothing :
  forall (clk : Clock) (day : PlanDay) (w : World),
    let w' := handleConfirmSchedule clk day w in
    habits (db w') = habits (db w) /\
    habitLogs (db w') = habitLogs (db w) /\
    exists added,
      calendarEvents (db w') = calendarEvents (db w) ++ added /\
      (added = [] \/
       exists schedule userId,
         parsedSchedule (page w) = Some schedule /\
         convexUserId (page w) = Some userId /\
         List.length added = List.length schedule /\
         scheduleConfirmed (page w') = true /\
         Forall (storedByConfirm clk day userId) added).
Proof.
  intros clk day w w'. subst w'. unfold handleConfirmSchedule.
  destruct (parsedSchedule (page w)) as [schedule|] eqn:Hs;
    [|split; [reflexivity|split; [reflexivity|]];
      exists []; rewrite app_nil_r; auto].
  destruct (convexUserId (page w)) as [userId|] eqn:Hu;
    [|split; [reflexivity|split; [reflexivity|]];
      exists []; rewrite app_nil_r; auto].
  destruct (saveSchedule_effect clk day userId schedule (db w))
    as [Hh [Hl [added [Hev [Hstored Hcases]]]]].
  cbn [db]. split; [exact Hh|]. split; [exact Hl|].
  exists added. split; [exact Hev|].
  destruct Hcases as [[Hnil _]|[Hlen [ids Hok]]]; [left; exact Hnil|right].
  exists schedule, userId. rewrite Hok.
  cbn [page scheduleConfirmed setIsLoading setMessages setScheduleConfirmed].
  repeat split; assumption.
Qed.

Lemma filter_every {A} (p : A -> bool) (l : list A) :
  (forall x, In x l -> p x = true) -> filter p l = l.
Proof.
  induction l as [|x l IH]; intros H; cbn [filter]; [reflexivity|].
  rewrite (H x (or_introl eq_refl)), IH; [reflexivity|].
  intros y Hy. apply H. right. exact Hy.
Qed.

(** X25.  Every event that [handleConfirmSchedule] stores is in the list
    that [getEventsByDate] returns for the user of the page and the
    planning date, after the events that were there in creation order; and
    the list of every other user or date is what it was, whatever the
    collation of start times is. *)
Theorem confirm_shows_on_the_planning_day :
  forall (clk : Clock) (day : PlanDay) (w : World),
    let w' := handleConfirmSchedule clk day w in
    (forall collate u d,
        convexUserId (page w) <> Some u \/ d <> tomorrowDate day ->
        getEventsByDate collate u d (db w') = getEventsByDate collate u d (db w)) /\
    (forall userId, convexUserId (page w) = Some userId ->
       exists added,
         calendarEvents (db w') = calendarEvents (db w) ++ added /\
         eventsOfUserOn userId (tomorrowDate day) (db w') =
         eventsOfUserOn userId (tomorrowDate day) (db w) ++ added /\
         forall collate e,
           In e added ->
           In e (getEventsByDate collate userId (tomorrowDate day) (db w'))).
Proof.
  intros clk day w w'. subst w'. unfold handleConfirmSchedule.
  destruct (parsedSchedule (page w)) as [schedule|] eqn:Hs.
  2:{ split; [reflexivity|]. intros userId _. exists [].
      rewrite !app_nil_r. repeat split. intros collate e []. }
  destruct (convexUserId (page w)) as [uid|] eqn:Hu.
  2:{ split; [reflexivity|]. intros userId Hsome. discriminate Hsome. }
  destruct (saveSchedule_effect clk day uid schedule (db w))
    as [_ [_ [added [Hev [Hstored _]]]]].
  cbn [db]. rewrite Forall_forall in Hstored.
  assert (Hon : forall u d,
             eventsOfUserOn u d (fst (saveSchedule clk day uid schedule (db w))) =
             eventsOfUserOn u d (db w) ++
             filter (fun e => Nat.eqb (CalendarEvent.userId e) u
                              && String.eqb (CalendarEvent.date e) d) added).
  { intros u d. unfold eventsOfUserOn. rewrite Hev. apply filter_app. }
  split.
  - intros collate u d Hne. unfold getEventsByDate. rewrite Hon.
    rewrite (@filter_none _ _ added); [rewrite app_nil_r; reflexivity|].
    intros e He. destruct (Hstored e He) as [Heu [Hed _]]. rewrite Heu, Hed.
    apply andb_false_iff.
    destruct Hne as [Hne|Hne]; [left; apply Nat.eqb_neq|right; apply String.eqb_neq];
      congruence.
  - intros userId Hsome. injection Hsome as <-. exists added.
    split; [exact Hev|].
    assert (Hall : filter (fun e => Nat.eqb (CalendarEvent.userId e) uid
                                    && String.eqb (CalendarEvent.date e)
                                                  (tomorrowDate day)) added = added).
    { apply filter_every. intros e He. destruct (Hstored e He) as [Heu [Hed _]].
      rewrite Heu, Hed, Nat.eqb_refl, String.eqb_refl. reflexivity. }
    split; [rewrite Hon, Hall; reflexivity|].
    intros collate e He. unfold getEventsByDate. apply sortBy_In. rewrite Hon, Hall.
    apply in_or_app. right. exact He.
Qed.

Lemma confirm_shows_on_the_planning_day_witness :
  let w := mkWorld (proposedPage [standup; meditate]) weekDB in
  let w' := handleConfirmSchedule sampleClock june2 w in
  map CalendarEvent.title (getEventsByDate localeCompare 7 "2024-06-02" (db w'))
  = ["Meditate"; "Standup+work"] /\
  getEventsByDate localeCompare 7 "2024-06-03" (db w') =
  getEventsByDate localeCompare 7 "2024-06-03" weekDB.
Proof.
  intros w w'.
  destruct (confirm_shows_on_the_planning_day sampleClock june2 w) as [Hother _].
  split; [reflexivity|].
  apply (Hother localeCompare 7%nat "2024-06-03"). right. discriminate.
Defined.

(** X17.  [handleConfirmSchedule] does not check the times of a proposed
    event.  For an event with a string title, a description that is a
    string or absent and an accepted category, whatever is under
    [startTime] and [endTime], a string or not, there or not: when both
    convert to text the event is stored, with the planning date, a [T],
    the text of the value and [:00] as its start and end; and when one of
    the conversions throws, which an object with a member of its own named
    [toString] makes it do, nothing is stored and the apology is
    appended. *)
Theorem confirm_does_not_check_times :
  forall (clk : Clock) (day : PlanDay) (w : World) (userId : Id) (event : JSON)
         (title : string) (description category startTime endTime : option JSON)
         (description' : option string) (category' : Category.t),
    parsedSchedule (page w) = Some [event] ->
    convexUserId (page w) = Some userId ->
    getProp event "title" = Ok (Some (JStr title)) ->
    getProp event "description" = Ok description ->
    v_optional_string description = Some description' ->
    getProp event "category" = Ok category ->
    v_category (if truthy category then category else Some (JStr "other"))
    = Some category' ->
    getProp event "startTime" = Ok startTime ->
    getProp event "endTime" = Ok endTime ->
    let w' := handleConfirmSchedule clk day w in
    (forall startText endText,
        toStringJS startTime = Ok startText -> toStringJS endTime = Ok endText ->
        calendarEvents (db w') =
        calendarEvents (db w) ++
        [CalendarEvent.mk (nextId (db w)) userId title description'
           (tomorrowDate day +++ "T" +++ startText +++ ":00")
           (tomorrowDate day +++ "T" +++ endText +++ ":00")
           (tomorrowDate day) category' false None CreatedBy.ai (Some false)
           (now clk)]) /\
    ((exists msg, toStringJS startTime = Throw msg) \/
     (exists msg, toStringJS endTime = Throw msg) ->
     db w' = db w /\
     messages (page w') = messages (page w) ++ [saveErrorMessage] /\
     scheduleConfirmed (page w') = scheduleConfirmed (page w)).
Proof.
  intros clk day w userId event title description category startTime endTime
         description' category' Hs Hu Ht Hd Hd' Hc Hc' Hst Hen w'.
  subst w'. unfold handleConfirmSchedule. rewrite Hs, Hu. unfold saveSchedule.
  cbn [eventsToCreate]. unfold eventToCreate. rewrite Ht, Hd, Hst, Hen, Hc. split.
  - intros startText endText Hstart Hend. rewrite Hstart, Hend.
    unfold createManyEvents. cbn [v_events]. unfold v_event.
    cbn [RawEvent.title RawEvent.description RawEvent.startTime RawEvent.endTime
         RawEvent.date RawEvent.category RawEvent.isRecurring RawEvent.createdBy].
    rewrite Hd', Hc'. cbn [v_string v_boolean v_createdBy String.eqb Ascii.eqb Bool.eqb].
    unfold runMutation. rewrite createManyEvents_handler_effect. reflexivity.
  - intros Hthrow.
    assert (Hfail : exists msg,
               match toStringJS startTime, toStringJS endTime with
               | Ok startText, Ok endText =>
                   Ok (RawEvent.mk (Some (JStr title)) description
                         (Some (JStr (tomorrowDate day +++ "T" +++ startText +++ ":00")))
                         (Some (JStr (tomorrowDate day +++ "T" +++ endText +++ ":00")))
                         (Some (JStr (tomorrowDate day)))
                         (if truthy category then category else Some (JStr "other"))
                         (Some (JBool false)) (Some (JStr "ai")))
               | Throw e, _ => Throw e
               | _, Throw e => Throw e
               end = Throw msg).
    { destruct Hthrow as [[msg Hm]|[msg Hm]]; rewrite Hm.
      - eauto.
      - destruct (toStringJS startTime); eauto. }
    destruct Hfail as [msg Hfail]. rewrite Hfail. cbn [fst snd db page].
    split; [reflexivity|]. split; reflexivity.
Qed.

Lemma confirm_does_not_check_times_witness :
  map CalendarEvent.startTime
      (calendarEvents (db (handleConfirmSchedule sampleClock june2
                             (mkWorld (proposedPage [nap]) emptyDB))))
  = ["2024-06-02Tundefined:00"] /\
  toStringJS (Some (JObj [("toString", JNum "1")])) =
    Throw "TypeError: Cannot convert object to primitive value" /\
  db (handleConfirmSchedule sampleClock june2
        (mkWorld (proposedPage [napWithoutEnd]) weekDB)) = weekDB.
Proof.
  destruct (@confirm_does_not_check_times sampleClock june2
              (mkWorld (proposedPage [nap]) emptyDB) 7%nat nap "Nap"
              None None None None None Category.other
              eq_refl eq_refl eq_refl eq_refl eq_refl eq_refl eq_refl eq_refl eq_refl)
    as [Hstored _].
  destruct (@confirm_does_not_check_times sampleClock june2
              (mkWorld (proposedPage [napWithoutEnd]) weekDB) 7%nat napWithoutEnd "Nap"
              None None (Some (JStr "13:00")) (Some (JObj [("toString", JNum "1")]))
              None Category.other
              eq_refl eq_refl eq_refl eq_refl eq_refl eq_refl eq_refl eq_refl eq_refl)
    as [_ Hthrown].
  split; [rewrite (Hstored "undefined" "undefined" eq_refl eq_refl); reflexivity|].
  split; [reflexivity|].
  destruct Hthrown as [Hdb _]; [right; eexists; reflexivity|exact Hdb].
Defined.

(* ================================================================== *)
(** * The streak after a write for today *)
(* ================================================================== *)





(* ================================================================== *)
(** * Deleting a habit that is not there *)
(* ================================================================== *)

(** X19.  [deleteHabit] on an identifier that no habit has throws, and the
    database is as it was: the logs that name the identifier, which the
    handler deletes first, are all still there. *)
Theorem deleteHabit_missing_changes_nothing :
  forall (habitId : Id) (db : DB),
    tbl_get Habit._id habitId (habits db) = None ->
    exists msg, runMutation (deleteHabit habitId) db = (db, Throw msg).
Proof.
  intros habitId db Hnone. unfold runMutation, deleteHabit, bind, collect_by_habit.
  destruct (forEachM _ (logsOfHabit habitId db) db) as [[us db1]|e] eqn:E;
    [|eauto].
  apply delete_logs_effect in E. destruct E as [Hh _].
  unfold delete_habit. rewrite Hh, Hnone. eauto.
Qed.

Lemma deleteHabit_missing_changes_nothing_witness :
  logsOfHabit 0 orphanDB = aheadLogs /\
  exists msg, runMutation (deleteHabit 0) orphanDB = (orphanDB, Throw msg).
Proof.
  split; [reflexivity|].
  exact (@deleteHabit_missing_changes_nothing 0%nat orphanDB eq_refl).
Defined.

(* ================================================================== *)
(** * A habit made on the habits page *)
(* ================================================================== *)

(** X20.  For a signed-in user, [handleCreateHabit] does nothing when the
    name in the form is blank.  Otherwise it stores one new habit under the
    next identifier, with the trimmed name, the trimmed description or none
    when that is empty, both streaks at zero and active, so that
    [getActiveHabits] and [getHabits] of the user list it; the habit logs
    are not touched and the form is reset and closed. *)
Theorem handleCreateHabit_adds_an_active_habit :
  forall (clk : Clock) (p : HabitsPage) (form : HabitForm) (db : DB) (userId : Id),
    hp_convexUserId p = Some userId ->
    let r := handleCreateHabit clk p form db in
    (trim (nh_name (newHabit form)) = EmptyString -> r = (form, db)) /\
    (trim (nh_name (newHabit form)) <> EmptyString ->
     fst r = mkHabitForm initialNewHabit false /\
     habitLogs (snd r) = habitLogs db /\
     exists h,
       habits (snd r) = habits db ++ [h] /\
       Habit._id h = nextId db /\
       Habit.userId h = userId /\
       Habit.name h = trim (nh_name (newHabit form)) /\
       Habit.description h = orUndefined (trim (nh_description (newHabit form))) /\
       Habit.currentStreak h = 0 /\ Habit.bestStreak h = 0 /\
       Habit.isActive h = true /\
       (forall collate, In h (getActiveHabits collate userId (snd r))) /\
       In h (getHabits userId (snd r))).
Proof.
  intros clk p form db userId Hu r. subst r. unfold handleCreateHabit. rewrite Hu.
  cbv zeta. split.
  - intros Hblank. rewrite Hblank. reflexivity.
  - intros Hname. apply String.eqb_neq in Hname. rewrite Hname.
    unfold runMutation, createHabit, bind, insert_habit, ret.
    cbn [fst snd habitLogs habits]. split; [reflexivity|]. split; [reflexivity|].
    eexists. split; [reflexivity|].
    cbn [Habit._id Habit.userId Habit.name Habit.description Habit.currentStreak
         Habit.bestStreak Habit.isActive CreateHabitArgs.userId CreateHabitArgs.name
         CreateHabitArgs.description].
    repeat (split; [reflexivity|]). split.
    + intros collate. apply getActiveHabits_In.
      cbn [habits Habit.userId Habit.isActive CreateHabitArgs.userId].
      split; [apply in_or_app; right; left; reflexivity|]. split; reflexivity.
    + apply getHabits_In. cbn [habits Habit.userId CreateHabitArgs.userId].
      split; [apply in_or_app; right; left; reflexivity|reflexivity].
Qed.

Lemma handleCreateHabit_adds_an_active_habit_witness :
  let db := execAll gymCalls emptyDB in
  map Habit.name (getActiveHabits localeCompare 7
                    (snd (handleCreateHabit nextDayClock gymPage readForm db)))
  = ["Gym"; "Read"] /\
  map Habit.description (habits (snd (handleCreateHabit nextDayClock gymPage
                                                        readForm db)))
  = [None; None] /\
  handleCreateHabit nextDayClock gymPage blankForm db = (blankForm, db).
Proof.
  intros db.
  destruct (@handleCreateHabit_adds_an_active_habit nextDayClock gymPage blankForm db
              7%nat eq_refl) as [Hblank _].
  split; [reflexivity|]. split; [reflexivity|exact (Hblank eq_refl)].
Defined.

(* ================================================================== *)
(** * The users table *)
(* ================================================================== *)

Lemma usersOfClerk_at_most_one (clerkId : string) (udb : UserDB) :
  NoDup (map User.clerkId (users udb)) ->
  (List.length (usersOfClerk clerkId udb) <= 1)%nat.
Proof.
  unfold usersOfClerk. induction (users udb) as [|u us IH]; intros Hnd;
    cbn [filter List.length]; [lia|].
  cbn [map] in Hnd. inversion Hnd as [|x xs Hnin Hnd']; subst.
  destruct (String.eqb_spec (User.clerkId u) clerkId) as [E|N]; [|apply IH; exact Hnd'].
  rewrite filter_none; [cbn [List.length]; lia|].
  intros y Hy. apply String.eqb_neq. intros Ey. apply Hnin.
  rewrite E, <- Ey. apply in_map. exact Hy.
Qed.

Lemma unique_by_clerk_id_cases (clerkId : string) (udb : UserDB) :
  NoDup (map User.clerkId (users udb)) ->
  (usersOfClerk clerkId udb = [] /\ unique_by_clerk_id clerkId udb = Ok None) \/
  (exists u, usersOfClerk clerkId udb = [u] /\
             unique_by_clerk_id clerkId udb = Ok (Some u) /\
             In u (users udb) /\ User.clerkId u = clerkId).
Proof.
  intros Hnd. pose proof (usersOfClerk_at_most_one clerkId udb Hnd) as Hlen.
  unfold unique_by_clerk_id.
  destruct (usersOfClerk clerkId udb) as [|u [|u' us]] eqn:E.
  - left. auto.
  - right. exists u. split; [reflexivity|]. split; [reflexivity|].
    assert (Hin : In u (usersOfClerk clerkId udb)) by (rewrite E; left; reflexivity).
    unfold usersOfClerk in Hin. apply filter_In in Hin.
    destruct Hin as [Hin Hc]. apply String.eqb_eq in Hc. auto.
  - cbn [List.length] in Hlen. lia.
Qed.

Lemma usersOk_patch (id : Id) (f : User.t -> User.t) (udb : UserDB) :
  (forall u, User._id (f u) = User._id u) ->
  (forall u, User.clerkId (f u) = User.clerkId u) ->
  usersOk udb ->
  usersOk (mkUserDB (tbl_patch User._id id f (users udb)) (nextUserId udb)).
Proof.
  intros Hid Hclerk [Hc [Hi Hlt]]. unfold usersOk. cbn [users nextUserId].
  assert (Hmap : forall (A : Type) (g : User.t -> A),
             (forall u, g (f u) = g u) ->
             map g (tbl_patch User._id id f (users udb)) = map g (users udb)).
  { intros A g Hg. unfold tbl_patch. rewrite map_map. apply map_ext.
    intros u. destruct (Nat.eqb (User._id u) id); [apply Hg|reflexivity]. }
  split; [rewrite (Hmap _ User.clerkId Hclerk); exact Hc|].
  split; [rewrite (Hmap _ User._id Hid); exact Hi|].
  unfold tbl_patch. apply Forall_map. eapply Forall_impl; [|exact Hlt].
  intros u Hu. cbv beta in *.
  destruct (Nat.eqb (User._id u) id); [rewrite Hid|]; exact Hu.
Qed.

Lemma getOrCreateUser_usersOk (clk : Clock) (args : GetOrCreateUserArgs.t)
      (udb : UserDB) :
  usersOk udb ->
  exists id udb',
    getOrCreateUser clk args udb = Ok (id, udb') /\ usersOk udb' /\
    exists u, usersOfClerk (GetOrCreateUserArgs.clerkId args) udb' = [u] /\
              User._id u = id /\
              (usersOfClerk (GetOrCreateUserArgs.clerkId args) udb = [] ->
               u = User.mk (nextUserId udb) (GetOrCreateUserArgs.clerkId args)
                           (GetOrCreateUserArgs.email args)
                           (GetOrCreateUserArgs.name args) None None false (now clk) /\
               users udb' = users udb ++ [u]) /\
              (usersOfClerk (GetOrCreateUserArgs.clerkId args) udb <> [] ->
               udb' = udb).
Proof.
  intros [Hc [Hi Hlt]]. unfold getOrCreateUser.
  destruct (@unique_by_clerk_id_cases (GetOrCreateUserArgs.clerkId args) udb Hc)
    as [[Hnone Hq]|[u [Hone [Hq [Hin Hcl]]]]]; rewrite Hq.
  - eexists. eexists. split; [reflexivity|].
    assert (Hfresh : forall x, In x (users udb) ->
                               User.clerkId x <> GetOrCreateUserArgs.clerkId args).
    { intros x Hx E. assert (Hf : In x (usersOfClerk (GetOrCreateUserArgs.clerkId args) udb)).
      { unfold usersOfClerk. apply filter_In. split; [exact Hx|].
        apply String.eqb_eq. exact E. }
      rewrite Hnone in Hf. exact Hf. }
    split.
    + unfold usersOk. cbn [users nextUserId]. rewrite !map_app. cbn [map User.clerkId User._id].
      split; [|split].
      * apply Permutation_NoDup with (l := GetOrCreateUserArgs.clerkId args
                                             :: map User.clerkId (users udb)).
        { apply Permutation_cons_append. }
        constructor; [|exact Hc]. intros Hm. apply in_map_iff in Hm.
        destruct Hm as [x [Ex Hx]]. exact (Hfresh x Hx Ex).
      * apply Permutation_NoDup with (l := nextUserId udb :: map User._id (users udb)).
        { apply Permutation_cons_append. }
        constructor; [|exact Hi]. intros Hm. apply in_map_iff in Hm.
        destruct Hm as [x [Ex Hx]]. rewrite Forall_forall in Hlt.
        specialize (Hlt x Hx). lia.
      * apply Forall_app. split.
        { eapply Forall_impl; [|exact Hlt]. intros x Hx. cbv beta in *. lia. }
        { constructor; [cbn [User._id]; lia|constructor]. }
    + eexists. split.
      * unfold usersOfClerk in *. cbn [users]. rewrite filter_app, Hnone.
        cbn [filter app User.clerkId]. rewrite String.eqb_refl. reflexivity.
      * split; [reflexivity|]. split; [intros _; split; reflexivity|].
        intros Hne. contradiction.
  - exists (User._id u), udb. split; [reflexivity|].
    split; [unfold usersOk; auto|]. exists u. split; [exact Hone|].
    split; [reflexivity|]. split; [|intros _; reflexivity].
    intros Hnone. rewrite Hnone in Hone. discriminate.
Qed.

(** X21.  On a users table with one user for each Clerk identifier,
    [getOrCreateUser] returns the identifier of the one user of the Clerk
    identifier, whom it creates, not yet onboarded, when there is none.  A
    second call for the same Clerk identifier, whatever address and name it
    brings, returns the same identifier and changes nothing, so the first
    address and name stay; and [getCurrentUser] finds that user. *)
Theorem getOrCreateUser_is_idempotent :
  forall (clk clk' : Clock) (args args' : GetOrCreateUserArgs.t) (udb : UserDB),
    usersOk udb ->
    GetOrCreateUserArgs.clerkId args' = GetOrCreateUserArgs.clerkId args ->
    exists id udb' u,
      runUserMutation (getOrCreateUser clk args) udb = (udb', Ok id) /\
      runUserMutation (getOrCreateUser clk' args') udb' = (udb', Ok id) /\
      getCurrentUser (GetOrCreateUserArgs.clerkId args) udb' = Ok (Some u) /\
      User._id u = id /\
      (usersOfClerk (GetOrCreateUserArgs.clerkId args) udb = [] ->
       users udb' = users udb ++ [u] /\
       User.email u = GetOrCreateUserArgs.email args /\
       User.name u = GetOrCreateUserArgs.name args /\
       User.onboardingComplete u = false) /\
      (usersOfClerk (GetOrCreateUserArgs.clerkId args) udb <> [] -> udb' = udb) /\
      usersOk udb'.
Proof.
  intros clk clk' args args' udb Hok Hsame.
  destruct (@getOrCreateUser_usersOk clk args udb Hok)
    as [id [udb' [Hrun [Hok' [u [Hone [Hid [Hnew Hold]]]]]]]].
  exists id, udb', u. unfold runUserMutation. rewrite Hrun.
  split; [reflexivity|].
  assert (Hq : unique_by_clerk_id (GetOrCreateUserArgs.clerkId args) udb'
               = Ok (Some u)).
  { unfold unique_by_clerk_id. rewrite Hone. reflexivity. }
  split; [|split; [exact Hq|split; [exact Hid|split; [|split; [exact Hold|exact Hok']]]]].
  - unfold getOrCreateUser. rewrite Hsame, Hq, Hid. reflexivity.
  - intros Hnone. destruct (Hnew Hnone) as [Hu Hus].
    split; [exact Hus|]. rewrite Hu. repeat split.
Qed.

Lemma getOrCreateUser_is_idempotent_witness :
  let udb1 := fst (runUserMutation (getOrCreateUser sampleClock signIn) emptyUserDB) in
  runUserMutation (getOrCreateUser laterClock signInAgain) udb1 = (udb1, Ok 0%nat) /\
  map User.email (users udb1) = ["ada@example.org"].
Proof.
  intros udb1.
  assert (Hok : usersOk emptyUserDB).
  { unfold usersOk, emptyUserDB. cbn [users map]. repeat split; constructor. }
  destruct (@getOrCreateUser_is_idempotent sampleClock laterClock signIn signInAgain
              emptyUserDB Hok eq_refl)
    as [id [udb' [u [Hrun [Hagain _]]]]].
  assert (E : (udb', Ok id) = (udb1, Ok 0%nat)) by (rewrite <- Hrun; reflexivity).
  injection E as -> ->. split; [exact Hagain|reflexivity].
Defined.

Lemma tbl_patch_only (id : Id) (f : User.t -> User.t) (us : list User.t) (x : User.t) :
  In x (tbl_patch User._id id f us) ->
  exists x0, In x0 us /\ x = (if Nat.eqb (User._id x0) id then f x0 else x0).
Proof.
  unfold tbl_patch. intros H. apply in_map_iff in H. destruct H as [x0 [E Hx0]].
  exists x0. split; [exact Hx0|symmetry; exact E].
Qed.

Lemma onboarding_run (clerkId : string) (f : User.t -> User.t) (udb : UserDB)
      (u : User.t) :
  (forall x, User._id (f x) = User._id x) ->
  (forall x, User.clerkId (f x) = User.clerkId x) ->
  usersOk udb -> In u (users udb) -> User.clerkId u = clerkId ->
  unique_by_clerk_id clerkId udb = Ok (Some u) /\
  patch_user (User._id u) f udb =
    Ok (tt, mkUserDB (tbl_patch User._id (User._id u) f (users udb)) (nextUserId udb)) /\
  unique_by_clerk_id clerkId
    (mkUserDB (tbl_patch User._id (User._id u) f (users udb)) (nextUserId udb))
  = Ok (Some (f u)) /\
  (forall x, In x (users udb) -> x <> u ->
             In x (tbl_patch User._id (User._id u) f (users udb))).
Proof.
  intros Hid Hclerk Hok Hin Hcl. pose proof Hok as [Hc [Hi Hlt]].
  assert (Hq : unique_by_clerk_id clerkId udb = Ok (Some u)).
  { destruct (@unique_by_clerk_id_cases clerkId udb Hc)
      as [[Hnone _]|[u' [Hone [Hq [Hin' Hcl']]]]].
    - exfalso. assert (Hf : In u (usersOfClerk clerkId udb)).
      { unfold usersOfClerk. apply filter_In. split; [exact Hin|].
        apply String.eqb_eq. exact Hcl. }
      rewrite Hnone in Hf. exact Hf.
    - assert (u' = u).
      { eapply NoDup_map_In_inj; [exact Hc|exact Hin'|exact Hin|congruence]. }
      subst u'. exact Hq. }
  split; [exact Hq|].
  assert (Hget : tbl_get User._id (User._id u) (users udb) = Some u)
    by (eapply tbl_get_unique; eauto).
  split; [unfold patch_user; rewrite Hget; reflexivity|].
  split.
  - pose proof (@usersOk_patch (User._id u) f udb Hid Hclerk Hok) as [Hc' _].
    destruct (@unique_by_clerk_id_cases clerkId
                (mkUserDB (tbl_patch User._id (User._id u) f (users udb))
                          (nextUserId udb)) Hc')
      as [[Hnone _]|[u' [Hone [Hq' [Hin' Hcl']]]]].
    + exfalso.
      assert (Hf : In (f u) (usersOfClerk clerkId
                  (mkUserDB (tbl_patch User._id (User._id u) f (users udb))
                            (nextUserId udb)))).
      { unfold usersOfClerk. apply filter_In. cbn [users]. split.
        - unfold tbl_patch. apply in_map_iff. exists u.
          rewrite Nat.eqb_refl. auto.
        - apply String.eqb_eq. rewrite Hclerk. exact Hcl. }
      rewrite Hnone in Hf. exact Hf.
    + rewrite Hq'. do 2 f_equal. cbn [users] in Hin'.
      apply tbl_patch_only in Hin'. destruct Hin' as [x0 [Hx0 Ex]].
      assert (Hx0c : User.clerkId x0 = clerkId).
      { rewrite <- Hcl'. rewrite Ex.
        destruct (Nat.eqb (User._id x0) (User._id u)); [rewrite Hclerk|]; reflexivity. }
      assert (x0 = u).
      { eapply NoDup_map_In_inj; [exact Hc|exact Hx0|exact Hin|congruence]. }
      subst x0. rewrite Nat.eqb_refl in Ex. exact Ex.
  - intros x Hx Hne. unfold tbl_patch. apply in_map_iff. exists x.
    split; [|exact Hx].
    destruct (Nat.eqb_spec (User._id x) (User._id u)) as [E|N]; [|reflexivity].
    exfalso. apply Hne. eapply NoDup_map_In_inj; [exact Hi|exact Hx|exact Hin|exact E].
Qed.

(** X22.  On a users table with one user for each Clerk identifier and one
    identifier for each user, [completeOnboarding] and [updatePlanningTime]
    throw and change nothing when the Clerk identifier has no user.  When it
    has one, [completeOnboarding] returns success and [getCurrentUser] then
    finds that user with the planning time and the time zone of the call,
    onboarded, and with identifier, address, name and creation time as
    before; [updatePlanningTime] changes the planning time alone; and every
    other user is in the table as before. *)
Theorem onboarding_updates_one_user :
  forall (clerkId planningTime timezone : string) (udb : UserDB),
    usersOk udb ->
    (usersOfClerk clerkId udb = [] ->
     (exists msg, runUserMutation (completeOnboarding clerkId planningTime timezone) udb
                  = (udb, Throw msg)) /\
     (exists msg, runUserMutation (updatePlanningTime clerkId planningTime) udb
                  = (udb, Throw msg))) /\
    (forall u, In u (users udb) -> User.clerkId u = clerkId ->
       let udb1 := fst (runUserMutation
                          (completeOnboarding clerkId planningTime timezone) udb) in
       let udb2 := fst (runUserMutation (updatePlanningTime clerkId planningTime) udb) in
       snd (runUserMutation (completeOnboarding clerkId planningTime timezone) udb)
       = Ok (mkSuccess true) /\
       getCurrentUser clerkId udb1 =
         Ok (Some (User.mk (User._id u) clerkId (User.email u) (User.name u)
                           (Some planningTime) (Some timezone) true
                           (User.createdAt u))) /\
       getCurrentUser clerkId udb2 =
         Ok (Some (User.mk (User._id u) clerkId (User.email u) (User.name u)
                           (Some planningTime) (User.timezone u)
                           (User.onboardingComplete u) (User.createdAt u))) /\
       (forall x, In x (users udb) -> x <> u ->
                  In x (users udb1) /\ In x (users udb2)) /\
       usersOk udb1 /\ usersOk udb2).
Proof.
  intros clerkId planningTime timezone udb Hok. split.
  - intros Hnone. unfold runUserMutation, completeOnboarding, updatePlanningTime,
      unique_by_clerk_id. rewrite Hnone. split; eauto.
  - intros u Hin Hcl udb1 udb2.
    destruct (@onboarding_run clerkId (onboarded planningTime timezone) udb u
                (fun _ => eq_refl) (fun _ => eq_refl) Hok Hin Hcl)
      as [Hq [Hp [Hq1 Hothers1]]].
    destruct (@onboarding_run clerkId (withPlanningTime planningTime) udb u
                (fun _ => eq_refl) (fun _ => eq_refl) Hok Hin Hcl)
      as [_ [Hp2 [Hq2 Hothers2]]].
    assert (E1 : runUserMutation (completeOnboarding clerkId planningTime timezone) udb
                 = (mkUserDB (tbl_patch User._id (User._id u)
                                        (onboarded planningTime timezone) (users udb))
                             (nextUserId udb), Ok (mkSuccess true))).
    { unfold runUserMutation, completeOnboarding. rewrite Hq, Hp. reflexivity. }
    assert (E2 : runUserMutation (updatePlanningTime clerkId planningTime) udb
                 = (mkUserDB (tbl_patch User._id (User._id u)
                                        (withPlanningTime planningTime) (users udb))
                             (nextUserId udb), Ok (mkSuccess true))).
    { unfold runUserMutation, updatePlanningTime. rewrite Hq, Hp2. reflexivity. }
    subst udb1 udb2. rewrite E1, E2. cbn [fst snd].
    split; [reflexivity|].
    split; [unfold getCurrentUser; rewrite Hq1; unfold onboarded; rewrite Hcl;
            reflexivity|].
    split; [unfold getCurrentUser; rewrite Hq2; unfold withPlanningTime; rewrite Hcl;
            reflexivity|].
    split; [intros x Hx Hne; split; [apply Hothers1|apply Hothers2]; assumption|].
    split; apply usersOk_patch; auto.
Qed.

Lemma onboarding_updates_one_user_witness :
  let udb := fst (runUserMutation (getOrCreateUser sampleClock signIn) emptyUserDB) in
  let udb1 := fst (runUserMutation (completeOnboarding "clerk_1" "21:00" "Europe/Paris")
                                   udb) in
  getCurrentUser "clerk_1" udb1 =
    Ok (Some (User.mk 0 "clerk_1" "ada@example.org" (Some "Ada") (Some "21:00")
                      (Some "Europe/Paris") true 1704240000000)) /\
  exists msg, runUserMutation (completeOnboarding "clerk_2" "21:00" "Europe/Paris") udb
              = (udb, Throw msg).
Proof.
  intros udb udb1.
  assert (Hok : usersOk udb).
  { unfold usersOk. vm_compute.
    repeat split; repeat constructor; simpl; try lia; intros []. }
  destruct (@onboarding_updates_one_user "clerk_1" "21:00" "Europe/Paris" udb Hok)
    as [_ Hfound].
  destruct (@onboarding_updates_one_user "clerk_2" "21:00" "Europe/Paris" udb Hok)
    as [Hmissing _].
  destruct (Hfound (User.mk 0 "clerk_1" "ada@example.org" (Some "Ada") None None false
                            1704240000000) (or_introl eq_refl) eq_refl)
    as [_ [Hget _]].
  split; [exact Hget|]. destruct (Hmissing eq_refl) as [Hthrow _]. exact Hthrow.
Defined.

(** X23.  After any sequence of calls of [getOrCreateUser],
    [updatePlanningTime] and [completeOnboarding] on the empty users table
    there is one user for each Clerk identifier and one identifier for each
    user; so the [unique()] of [getCurrentUser] never throws, and
    [getOrCreateUser] always returns an identifier. *)
Theorem users_stay_one_per_clerk_id :
  forall (calls : list UserCall),
    let udb := execUsers calls emptyUserDB in
    usersOk udb /\
    (forall clerkId, exists found, getCurrentUser clerkId udb = Ok found) /\
    (forall clk args, exists id,
        snd (runUserMutation (getOrCreateUser clk args) udb) = Ok id).
Proof.
  intros calls udb.
  assert (Hok : usersOk udb).
  { subst udb. induction calls as [|c calls IH] using rev_ind.
    - unfold usersOk, emptyUserDB. cbn [execUsers fold_left users map].
      repeat split; constructor.
    - unfold execUsers in *. rewrite fold_left_app. cbn [fold_left].
      set (udb := fold_left (fun udb c => execUser c udb) calls emptyUserDB) in *.
      destruct c as [clk args|clerkId planningTime|clerkId planningTime timezone];
        cbn [execUser]; unfold runUserMutation.
      + destruct (@getOrCreateUser_usersOk clk args udb IH) as [id [udb' [Hrun [Hok' _]]]].
        rewrite Hrun. exact Hok'.
      + unfold updatePlanningTime.
        destruct (unique_by_clerk_id clerkId udb) as [[user|]|msg]; try exact IH.
        unfold patch_user.
        destruct (tbl_get User._id (User._id user) (users udb)); [|exact IH].
        cbn [fst]. apply usersOk_patch; auto.
      + unfold completeOnboarding.
        destruct (unique_by_clerk_id clerkId udb) as [[user|]|msg]; try exact IH.
        unfold patch_user.
        destruct (tbl_get User._id (User._id user) (users udb)); [|exact IH].
        cbn [fst]. apply usersOk_patch; auto. }
  split; [exact Hok|]. split.
  - intros clerkId. unfold getCurrentUser. destruct Hok as [Hc _].
    destruct (@unique_by_clerk_id_cases clerkId udb Hc) as [[_ Hq]|[u [_ [Hq _]]]];
      rewrite Hq; eauto.
  - intros clk args.
    destruct (@getOrCreateUser_usersOk clk args udb Hok) as [id [udb' [Hrun _]]].
    exists id. unfold runUserMutation. rewrite Hrun. reflexivity.
Qed.

(* ================================================================== *)
(** * The store after any calls *)
(* ================================================================== *)

Lemma insertedEvents_ids (clk : Clock) (userId : Id) (n : Id) (news : list NewEvent.t) :
  map CalendarEvent._id (insertedEvents clk userId n news) = seq n (List.length news).
Proof.
  revert n. induction news as [|e news IH]; intros n; cbn [insertedEvents map
    List.length seq CalendarEvent._id]; [reflexivity|].
  rewrite IH. reflexivity.
Qed.

Lemma eventsFresh_same (db db' : DB) :
  calendarEvents db' = calendarEvents db -> (nextId db <= nextId db')%nat ->
  eventsFresh db -> eventsFresh db'.
Proof.
  intros He Hn [Hlt Hnd]. unfold eventsFresh. rewrite He. split; [|exact Hnd].
  eapply Forall_impl; [|exact Hlt]. intros e Hlt'. cbv beta in *. lia.
Qed.

Lemma eventsFresh_filter (keep : CalendarEvent.t -> bool) (db db' : DB) :
  calendarEvents db' = filter keep (calendarEvents db) ->
  (nextId db <= nextId db')%nat ->
  eventsFresh db -> eventsFresh db'.
Proof.
  intros He Hn [Hlt Hnd]. unfold eventsFresh. rewrite He. split.
  - apply Forall_filter. eapply Forall_impl; [|exact Hlt].
    intros e Hlt'. cbv beta in *. lia.
  - apply NoDup_map_filter. exact Hnd.
Qed.

Lemma eventsFresh_patch (id : Id) (f : CalendarEvent.t -> CalendarEvent.t) (db db' : DB) :
  (forall e, CalendarEvent._id (f e) = CalendarEvent._id e) ->
  calendarEvents db' = tbl_patch CalendarEvent._id id f (calendarEvents db) ->
  (nextId db <= nextId db')%nat ->
  eventsFresh db -> eventsFresh db'.
Proof.
  intros Hid He Hn [Hlt Hnd]. unfold eventsFresh. rewrite He. split.
  - apply Forall_lt_tbl_patch; [exact Hid|].
    eapply Forall_impl; [|exact Hlt]. intros e Hlt'. cbv beta in *. lia.
  - rewrite map_id_tbl_patch by exact Hid. exact Hnd.
Qed.

Lemma eventsFresh_inserted (clk : Clock) (userId : Id) (news : list NewEvent.t)
      (db db' : DB) :
  calendarEvents db' =
    calendarEvents db ++ insertedEvents clk userId (nextId db) news ->
  nextId db' = (nextId db + List.length news)%nat ->
  eventsFresh db -> eventsFresh db'.
Proof.
  intros He Hn [Hlt Hnd]. unfold eventsFresh. rewrite He, Hn. split.
  - apply Forall_app. split.
    + eapply Forall_impl; [|exact Hlt]. intros e Hlt'. cbv beta in *. lia.
    + apply Forall_forall. intros e Hin.
      assert (Hid : In (CalendarEvent._id e)
                       (map CalendarEvent._id
                            (insertedEvents clk userId (nextId db) news)))
        by (apply in_map; exact Hin).
      rewrite insertedEvents_ids in Hid. apply in_seq in Hid. lia.
  - rewrite map_app, insertedEvents_ids.
    apply NoDup_app; [exact Hnd|apply seq_NoDup|].
    intros x Hx Hs. apply in_seq in Hs. apply in_map_iff in Hx.
    destruct Hx as [e [<- Hin]]. rewrite Forall_forall in Hlt.
    specialize (Hlt e Hin). lia.
Qed.

(** The calls of habits leave the events alone; [createManyEvents] and
    [updateEvent] insert and patch. *)
Lemma exec_eventsFresh (c : Call) (db : DB) : eventsFresh db -> eventsFresh (exec c db).
Proof.
  intros Hf. destruct (exec_steps c db) as [_ [_ Hn]].
  destruct c as [clk args|args|habitId|clk args|clk userId events|args];
    cbn [exec] in *.
  - eapply eventsFresh_same; [|exact Hn|exact Hf]. reflexivity.
  - eapply eventsFresh_same; [|exact Hn|exact Hf].
    unfold runMutation, updateHabit, bind, patch_habit.
    destruct (tbl_get Habit._id (UpdateHabitArgs.habitId args) (habits db));
      reflexivity.
  - eapply eventsFresh_same; [|exact Hn|exact Hf].
    unfold runMutation, deleteHabit, bind, collect_by_habit.
    destruct (forEachM _ (logsOfHabit habitId db) db) as [[us db1]|e] eqn:E;
      [|reflexivity].
    apply delete_logs_effect in E. destruct E as [_ [Hc _]].
    unfold delete_habit. destruct (tbl_get Habit._id habitId (habits db1));
      [exact Hc|reflexivity].
  - eapply eventsFresh_same; [|exact Hn|exact Hf].
    unfold runMutation, logHabitCompletion, bind.
    destruct (upsertLog clk args db) as [[u db1]|e] eqn:E; [|reflexivity].
    destruct (upsertLog_habits _ _ _ E) as [_ Hc].
    destruct (updateStreak_returns clk (LogHabitCompletionArgs.habitId args) db1)
      as [db2 [Hup [_ [Hc2 _]]]].
    rewrite Hup. unfold ret. cbn [fst]. rewrite Hc2. exact Hc.
  - unfold runMutation, createManyEvents in *.
    destruct (v_events events) as [news|]; [|exact Hf].
    rewrite createManyEvents_handler_effect in *. cbn [fst] in *.
    eapply eventsFresh_inserted; [| |exact Hf]; reflexivity.
  - unfold runMutation, updateEvent, bind, patch_calendarEvent in *.
    destruct (tbl_get CalendarEvent._id (UpdateEventArgs.eventId args)
                      (calendarEvents db)); [|exact Hf].
    cbn [fst] in *.
    eapply eventsFresh_patch; [| |exact Hn|exact Hf]; [|reflexivity].
    intros e. reflexivity.
Qed.

(** What the four other mutations of events do to the store. *)
Lemma execApi_events (c : ApiCall) (db : DB) :
  eventsFresh db ->
  eventsFresh (execApi c db) /\
  ((exists c0, c = ApiCall_of c0) \/
   (habits (execApi c db) = habits db /\
    habitLogs (execApi c db) = habitLogs db /\
    (nextId db <= nextId (execApi c db))%nat)).
Proof.
  intros Hf. destruct c as [c0|clk args|eventId|userId d|eventId completed];
    cbn [execApi].
  - split; [apply exec_eventsFresh; exact Hf|left; eauto].
  - rewrite createEvent_run. cbn [fst habits habitLogs nextId].
    split; [apply eventsFresh_insert; [exact Hf|reflexivity]|right].
    repeat split. lia.
  - destruct (tbl_get CalendarEvent._id eventId (calendarEvents db)) as [e|] eqn:G.
    + rewrite (@deleteEvent_run eventId db e G). cbn [fst habits habitLogs nextId].
      split; [|right; repeat split; lia].
      eapply eventsFresh_filter; [| |exact Hf]; [reflexivity|cbn [nextId]; lia].
    + destruct (@deleteEvent_missing eventId db G) as [msg Hm]. rewrite Hm.
      cbn [fst]. split; [exact Hf|right; repeat split; lia].
  - destruct Hf as [Hlt Hnd].
    rewrite (@deleteEventsByDate_run userId d db Hnd). cbn [fst habits habitLogs nextId].
    split; [|right; repeat split; lia].
    eapply eventsFresh_filter; [| |split; [exact Hlt|exact Hnd]];
      [reflexivity|cbn [nextId]; lia].
  - destruct (tbl_get CalendarEvent._id eventId (calendarEvents db)) as [e|] eqn:G.
    + rewrite (@markEventComplete_run eventId completed db e G).
      cbn [fst habits habitLogs nextId]. split; [|right; repeat split; lia].
      apply (@eventsFresh_patch eventId (withCompleted completed) db);
        [intros x; reflexivity|reflexivity|cbn [nextId]; lia|exact Hf].
    + unfold runMutation, markEventComplete, bind, patch_calendarEvent. rewrite G.
      cbn [fst]. split; [exact Hf|right; repeat split; lia].
Qed.

(** X24.  After any sequence of calls of the mutations of habits and of
    events on the empty database, no two events share an identifier and
    every event identifier is below the counter; the same holds of habits
    and of habit logs; there is at most one log for a habit and a date; and
    every habit has [0 <= currentStreak <= bestStreak]. *)
Theorem store_invariants_after_any_calls :
  forall (calls : list ApiCall),
    let db := execApiAll calls emptyDB in
    eventsFresh db /\ idsFresh db /\ uniqueLogs db /\ streaksOk db.
Proof.
  intros calls db. subst db. induction calls as [|c calls IH] using rev_ind.
  - cbn [execApiAll fold_left]. split; [split; constructor|].
    split; [apply idsFresh_empty|]. split; [|constructor].
    intros h d. cbn [emptyDB logsOfHabitOn habitLogs filter List.length]. lia.
  - unfold execApiAll in *. rewrite fold_left_app. cbn [fold_left].
    set (db := fold_left (fun db c => execApi c db) calls emptyDB) in *.
    destruct IH as [He [Hi [Hu Hs]]].
    destruct (@execApi_events c db He) as [He' [[c0 ->]|[Hh [Hl Hn]]]].
    + split; [exact He'|]. cbn [execApi].
      split; [apply exec_idsFresh; exact Hi|].
      split; [apply exec_uniqueLogs; exact Hu|apply exec_streaksOk; exact Hs].
    + split; [exact He'|]. split; [|split].
      * destruct Hi as [H1 [H2 [H3 H4]]]. unfold idsFresh. rewrite Hh, Hl.
        split; [eapply Forall_impl; [|exact H1]; intros x Hx; cbv beta in *; lia|].
        split; [eapply Forall_impl; [|exact H2]; intros x Hx; cbv beta in *; lia|].
        split; assumption.
      * intros h d. unfold logsOfHabitOn. rewrite Hl. exact (Hu h d).
      * unfold streaksOk. rewrite Hh. exact Hs.
Qed.
